(** * Verification of the chunk planner, chunk transcriber, merge engine and
      job-status transitions of [scripts/parallel_processor.py].

    Python floats (seconds) are modelled as exact rationals [Q]; Python [int]
    as [Z]; [str] as [string]; dictionaries with a fixed key set as records;
    the status store and the object heap as [gmap]s.  External tools (ffmpeg,
    ffprobe, the transcription model, the network) are inputs of the model:
    their outputs are parameters of the functions that consume them. *)

From Stdlib Require Import QArith Qabs Qminmax Qround Lqa.
From Stdlib Require Import Sorted Permutation Ascii.
From stdpp Require Import gmap strings list pretty.
From Equations Require Import Equations.

(** ** Results of fallible code *)

(** A Python call either returns a value or raises; the payload of [Raised]
    is [str(e)]. *)
Inductive outcome (A : Type) : Type :=
| Ok (a : A)
| Raised (e : string).
Arguments Ok {A} a.
Arguments Raised {A} e.

(** ** Comparisons on rationals, as booleans *)

Definition Qltb (x y : Q) : bool :=
  match (x ?= y)%Q with Lt => true | _ => false end.

Definition Qleb (x y : Q) : bool :=
  match (x ?= y)%Q with Gt => false | _ => true end.

(** ** Python string operations

    A character is a code point below 256. *)

Module PyStr.

(** [c.isspace()] *)
Definition is_space (c : ascii) : bool :=
  let n := nat_of_ascii c in
  ((9 <=? n) && (n <=? 13) || (28 <=? n) && (n <=? 32)
   || (n =? 133) || (n =? 160))%nat.

(** [s.lstrip()] *)
Fixpoint lstrip (s : string) : string :=
  match s with
  | String c s' => if is_space c then lstrip s' else s
  | EmptyString => EmptyString
  end.

(** [s.rstrip()] *)
Fixpoint rstrip (s : string) : string :=
  match s with
  | String c s' =>
      match rstrip s' with
      | EmptyString => if is_space c then EmptyString else String c EmptyString
      | r => String c r
      end
  | EmptyString => EmptyString
  end.

(** [s.strip()] *)
Definition strip (s : string) : string := rstrip (lstrip s).

(** [bool(s)]: a string is truthy when it is not empty. *)
Definition truthy (s : string) : bool :=
  match s with EmptyString => false | String _ _ => true end.

(** [sub in s] *)
Fixpoint contains (sub s : string) : bool :=
  String.prefix sub s ||
  match s with
  | String _ s' => contains sub s'
  | EmptyString => false
  end.

(** [s.split(sep)] for a non-empty [sep]: [skip] counts the characters of a
    separator occurrence still to pass over, [cur] is the field read so far
    (reversed). *)
Fixpoint split_aux (sep : string) (skip : nat) (cur : list ascii) (s : string)
    : list string :=
  match s with
  | EmptyString => [String.string_of_list_ascii (rev cur)]
  | String c s' =>
      match skip with
      | S k => split_aux sep k cur s'
      | O =>
          if String.prefix sep s then
            String.string_of_list_ascii (rev cur)
              :: split_aux sep (String.length sep - 1) [] s'
          else split_aux sep 0 (c :: cur) s'
      end
  end.

Definition split (sep s : string) : list string := split_aux sep 0 [] s.

(** [s.split()]: the maximal runs of non-whitespace characters. *)
Fixpoint split_ws_aux (cur : list ascii) (s : string) : list string :=
  match s with
  | EmptyString =>
      match cur with
      | [] => []
      | _ => [String.string_of_list_ascii (rev cur)]
      end
  | String c s' =>
      if is_space c then
        match cur with
        | [] => split_ws_aux [] s'
        | _ => String.string_of_list_ascii (rev cur) :: split_ws_aux [] s'
        end
      else split_ws_aux (c :: cur) s'
  end.

Definition split_ws (s : string) : list string := split_ws_aux [] s.

(** [sep.join(parts)] *)
Fixpoint join (sep : string) (parts : list string) : string :=
  match parts with
  | [] => EmptyString
  | [p] => p
  | p :: rest => p ++ sep ++ join sep rest
  end.

(** The newline character and the separators built from it. *)
Definition nl : string := String (ascii_of_nat 10) EmptyString.
Definition nlnl : string := nl ++ nl.

(** A reader for plain decimal literals, [-?digits(.digits)?]: the part of
    the syntax of Python's [float] that ffmpeg prints. *)
Definition digit_of (c : ascii) : option Z :=
  let n := nat_of_ascii c in
  if ((48 <=? n) && (n <=? 57))%nat then Some (Z.of_nat (n - 48)) else None.

Fixpoint read_digits (acc : Z) (count : positive) (s : string)
    : option (Z * positive * string) :=
  match s with
  | EmptyString => Some (acc, count, EmptyString)
  | String c s' =>
      match digit_of c with
      | Some d => read_digits (10 * acc + d) (10 * count) s'
      | None => Some (acc, count, s)
      end
  end.

Definition decimal_unsigned (s : string) : option Q :=
  match s with
  | EmptyString => None
  | String c _ =>
      match digit_of c with
      | None => None
      | Some _ =>
          match read_digits 0 1 s with
          | Some (n, _, EmptyString) => Some (inject_Z n)
          | Some (n, _, String "." frac) =>
              match read_digits 0 1 frac with
              | Some (f, den, EmptyString) =>
                  Some (inject_Z n + (f # den))%Q
              | _ => None
              end
          | _ => None
          end
      end
  end.

Definition decimal_float (s : string) : option Q :=
  match s with
  | String "-" s' => option_map Qopp (decimal_unsigned s')
  | _ => decimal_unsigned s
  end.

End PyStr.

(** The files on disk: path to content. *)
Abbreviation filesystem := (gmap string string).

(** ** Chunk planner: [split_audio_with_silence_detection] *)

Module Planner.
Local Open Scope Q_scope.

(** An entry of [silence_periods]: [{'start': s}] or [{'start': s, 'end': e}]. *)
Record silence_period : Type := mk_silence {
  sil_start : Q;
  sil_end : option Q
}.

(** A chunk descriptor: [{'path', 'start', 'duration', 'index'}]. *)
Record chunk : Type := mk_chunk {
  c_path : string;
  c_start : Q;
  c_duration : Q;
  c_index : Z
}.

(** *** Parsing the silence detector's diagnostic output *)

Section parser.
(** Python's [float(token)]; [None] is [ValueError]. *)
Variable py_float : string -> option Q.

(** [float(line.split(sep)[1].split()[0])] *)
Definition marker_value (sep line : string) : outcome Q :=
  match nth_error (PyStr.split sep line) 1 with
  | None => Raised "list index out of range"
  | Some rest =>
      match nth_error (PyStr.split_ws rest) 0 with
      | None => Raised "list index out of range"
      | Some token =>
          match py_float token with
          | Some v => Ok v
          | None => Raised ("could not convert string to float: " ++ token)
          end
      end
  end.

(** [silence_periods and 'end' not in silence_periods[-1]] *)
Definition last_is_open (silence_periods : list silence_period) : bool :=
  match last silence_periods with
  | Some p => match sil_end p with None => true | Some _ => false end
  | None => false
  end.

(** [silence_periods[-1]['end'] = e] *)
Fixpoint set_last_end (silence_periods : list silence_period) (e : Q)
    : list silence_period :=
  match silence_periods with
  | [] => []
  | [p] => [mk_silence (sil_start p) (Some e)]
  | p :: rest => p :: set_last_end rest e
  end.

(** The body of [for line in result.stderr.split('\n')]. *)
Definition parse_line (silence_periods : list silence_period)
    (line : string) : outcome (list silence_period) :=
  if PyStr.contains "silence_start:" line then
    match marker_value "silence_start: " line with
    | Ok start => Ok (silence_periods ++ [mk_silence start None])
    | Raised e => Raised e
    end
  else if PyStr.contains "silence_end:" line
          && last_is_open silence_periods then
    match marker_value "silence_end: " line with
    | Ok e => Ok (set_last_end silence_periods e)
    | Raised e => Raised e
    end
  else Ok silence_periods.

Fixpoint parse_lines (silence_periods : list silence_period)
    (lines : list string) : outcome (list silence_period) :=
  match lines with
  | [] => Ok silence_periods
  | line :: rest =>
      match parse_line silence_periods line with
      | Ok silence_periods' => parse_lines silence_periods' rest
      | Raised e => Raised e
      end
  end.

(** The parse of [result.stderr]. *)
Definition parse_silence (stderr : string) : outcome (list silence_period) :=
  parse_lines [] (PyStr.split PyStr.nl stderr).
End parser.

(** [f"{chunk_num:03d}"] for a non-negative [chunk_num]. *)
Definition fmt_03d (n : Z) : string :=
  let s := pretty (Z.to_N n) in
  match String.length s with
  | 0%nat => "000" ++ s
  | 1%nat => "00" ++ s
  | 2%nat => "0" ++ s
  | _ => s
  end.

(** [self.temp_dir / f"{hearing_id}_chunk_{chunk_num:03d}.wav"] *)
Definition chunk_file (temp_dir hearing_id : string) (chunk_num : Z) : string :=
  temp_dir ++ "/" ++ hearing_id ++ "_chunk_" ++ fmt_03d chunk_num ++ ".wav".

(** [distance < min_distance], where [None] stands for [float('inf')]. *)
Definition below (distance : Q) (min_distance : option Q) : bool :=
  match min_distance with
  | None => true
  | Some m => Qltb distance m
  end.

(** One iteration of [for silence in silence_periods]; the state is
    [(min_distance, best_split)]. *)
Definition scan_silence (current_start target_end : Q)
    (st : option Q * Q) (silence : silence_period) : option Q * Q :=
  match sil_end silence with
  | Some e =>
      if Qltb current_start e && Qleb e (target_end + 5) then
        let distance := Qabs (e - target_end) in
        if below distance (fst st) then (Some distance, e) else st
      else st
  | None => st
  end.

(** The search for the split point of one planning step. *)
Definition find_best_split (silence_periods : list silence_period)
    (current_start target_end : Q) : Q :=
  snd (fold_left (scan_silence current_start target_end) silence_periods
         (None, target_end)).

Section planner.
(** [self.temp_dir], [self.chunk_duration], Python's [float] ([None] is
    [ValueError]) and the ffmpeg cut ([subprocess.run(cmd, check=True)],
    given [-ss], [-t] and the output path): whether the tool exits with
    status 0, and the content of the output file if it wrote one. *)
Variable temp_dir : string.
Variable chunk_duration : Q.
Variable py_float : string -> option Q.
Variable ffmpeg_cut : Q -> Q -> string -> bool * option string.

(** [float(result.stdout.strip())] on ffprobe's output. *)
Definition get_audio_duration (ffprobe_stdout : string) : outcome Q :=
  match py_float (PyStr.strip ffprobe_stdout) with
  | Some d => Ok d
  | None =>
      Raised ("could not convert string to float: '"
              ++ PyStr.strip ffprobe_stdout ++ "'")
  end.

Definition target_end_of (duration current_start : Q) : Q :=
  Qmin (current_start + chunk_duration) duration.

(** The file a tool run leaves at [path]. *)
Definition write_output (fs : filesystem) (path : string)
    (written : option string) : filesystem :=
  match written with
  | Some content => <[path := content]> fs
  | None => fs
  end.

(** The [while current_start < duration] loop on the files [fs]; [None] is
    "out of fuel".  When a cut fails, [check=True] raises
    [CalledProcessError]; the payload names the exception and leaves out the
    command line and exit status that [str(e)] spells out. *)
Fixpoint plan_loop (fuel : nat) (duration : Q)
    (silence_periods : list silence_period) (hearing_id : string)
    (current_start : Q) (chunk_num : Z) (chunks : list chunk)
    (fs : filesystem) : option (outcome (list chunk) * filesystem) :=
  match fuel with
  | O => None
  | S fuel' =>
      if Qltb current_start duration then
        let target_end := target_end_of duration current_start in
        let best_split :=
          find_best_split silence_periods current_start target_end in
        let chunk_path := chunk_file temp_dir hearing_id chunk_num in
        let chunk_dur := best_split - current_start in
        if Qltb (1 # 2) chunk_dur then
          let cut := ffmpeg_cut current_start chunk_dur chunk_path in
          let fs' := write_output fs chunk_path (snd cut) in
          if fst cut then
            plan_loop fuel' duration silence_periods hearing_id best_split
              (chunk_num + 1)%Z
              (chunks ++ [mk_chunk chunk_path current_start chunk_dur chunk_num])
              fs'
          else Some (Raised "CalledProcessError", fs')
        else
          plan_loop fuel' duration silence_periods hearing_id best_split
            chunk_num chunks fs
      else Some (Ok chunks, fs)
  end.

(** Enough iterations for any run with [chunk_duration > 0]: every
    iteration either consumes a silence end or advances by a full
    [chunk_duration] (or reaches [duration]). *)
Definition plan_fuel (duration : Q) (silence_periods : list silence_period)
    : nat :=
  S (length silence_periods + Z.to_nat (Qceiling (duration / chunk_duration))).

(** The planning part of [split_audio_with_silence_detection], from
    [current_start = 0] and [chunk_num = 0]. *)
Definition plan_chunks (duration : Q)
    (silence_periods : list silence_period) (hearing_id : string)
    (fs : filesystem) : option (outcome (list chunk) * filesystem) :=
  plan_loop (plan_fuel duration silence_periods) duration silence_periods
    hearing_id 0 0%Z [] fs.

(** [split_audio_with_silence_detection], given what the tools print:
    [ffprobe_stdout] for the duration and [stderr] from the silence
    detector. *)
Definition split_audio_with_silence_detection
    (ffprobe_stdout stderr hearing_id : string) (fs : filesystem)
    : option (outcome (list chunk) * filesystem) :=
  match get_audio_duration ffprobe_stdout with
  | Raised e => Some (Raised e, fs)
  | Ok duration =>
      match parse_silence py_float stderr with
      | Raised e => Some (Raised e, fs)
      | Ok silence_periods =>
          plan_chunks duration silence_periods hearing_id fs
      end
  end.
End planner.

End Planner.

(** ** Specification vocabulary for the planner *)

Module PlannerSpec.
Import Planner.
Local Open Scope Q_scope.

(** The recorded ends of a silence list. *)
Definition recorded_ends (silence_periods : list silence_period) : list Q :=
  omap sil_end silence_periods.

(** The window in which a silence end is eligible as a split point. *)
Definition in_window (current_start target_end e : Q) : Prop :=
  current_start < e /\ e <= target_end + 5.

(** What the scan has established after a prefix of the silence list. *)
Definition scanned (s t : Q) (seen : list Q) (st : option Q * Q) : Prop :=
  match fst st with
  | None =>
      snd st = t /\ forall e, In e seen -> ~ in_window s t e
  | Some d =>
      In (snd st) seen /\ in_window s t (snd st) /\
      d = Qabs (snd st - t) /\
      forall e, In e seen -> in_window s t e ->
                Qabs (snd st - t) <= Qabs (e - t)
  end.

(** The split point chosen by the iteration that starts at [current_start]. *)
Definition next_split (chunk_duration duration : Q)
    (silence_periods : list silence_period) (current_start : Q) : Q :=
  find_best_split silence_periods current_start
    (target_end_of chunk_duration duration current_start).

(** Silence ends still ahead of the current start. *)
Definition ahead (cs : Q) (p : silence_period) : bool :=
  match sil_end p with Some e => Qltb cs e | None => false end.

Definition pending (silence_periods : list silence_period) (cs : Q) : nat :=
  length (List.filter (ahead cs) silence_periods).

(** Full-length steps still needed to reach [duration]. *)
Definition hard_steps (chunk_duration duration cs : Q) : nat :=
  Z.to_nat (Qceiling ((duration - cs) / chunk_duration)).

(** The spans of [chunks] tile the interval from [a] to [b]: the first starts
    at [a], each next one starts where the previous one ends, the last ends
    at [b]. *)
Fixpoint tiles (a : Q) (chunks : list chunk) (b : Q) : Prop :=
  match chunks with
  | [] => a == b
  | c :: rest =>
      c_start c == a /\ 0 < c_duration c /\
      tiles (c_start c + c_duration c) rest b
  end.

(** A well-formed descriptor of this run. *)
Definition emitted_ok (temp_dir : string) (chunk_duration : Q)
    (hearing_id : string) (c : chunk) : Prop :=
  1 # 2 < c_duration c /\ c_duration c <= chunk_duration /\
  c_path c = chunk_file temp_dir hearing_id (c_index c).

(** *** Silence intervals, as the specification describes them *)

(** The entries of a parsed list that carry both a start and an end. *)
Definition usable (silence_periods : list silence_period) : list (Q * Q) :=
  omap (fun p => match sil_end p with
                 | Some e => Some (sil_start p, e)
                 | None => None
                 end) silence_periods.

(** A list of complete intervals, as silence entries. *)
Definition closed (intervals : list (Q * Q)) : list silence_period :=
  map (fun i => mk_silence (fst i) (Some (snd i))) intervals.

Definition is_start_line (line : string) : bool :=
  PyStr.contains "silence_start:" line.

Definition is_end_line (line : string) : bool :=
  negb (PyStr.contains "silence_start:" line)
  && PyStr.contains "silence_end:" line.

Definition value_of (r : outcome Q) : option Q :=
  match r with Ok v => Some v | Raised _ => None end.

(** The specification's reading of the diagnostic lines: a silence interval
    is produced when an end marker is met while a start marker is open;
    [open] is the start that still waits for its end.  A start that is
    followed by another start, or by the end of the output, produces
    nothing. *)
Fixpoint matched (py_float : string -> option Q) (open : option Q)
    (lines : list string) : list (Q * Q) :=
  match lines with
  | [] => []
  | line :: rest =>
      if is_start_line line then
        matched py_float
          (value_of (marker_value py_float "silence_start: " line)) rest
      else if is_end_line line then
        match open, value_of (marker_value py_float "silence_end: " line) with
        | Some s, Some e => (s, e) :: matched py_float None rest
        | _, _ => matched py_float None rest
        end
      else matched py_float open rest
  end.

(** The start left open at the end of a parsed list, if any. *)
Definition open_start (silence_periods : list silence_period) : option Q :=
  match last silence_periods with
  | Some p =>
      match sil_end p with None => Some (sil_start p) | Some _ => None end
  | None => None
  end.

(** A cutting tool that always succeeds and writes a RIFF header. *)
Definition sample_cut (start duration : Q) (path : string)
    : bool * option string :=
  (true, Some "RIFF").

(** A sample of the detector's output: one complete silence and a trailing
    silence that is still open when the file ends. *)
Definition sample_stderr : string :=
  "[silencedetect @ 0x1] silence_start: 29.5" ++ PyStr.nl ++
  "[silencedetect @ 0x1] silence_end: 31 | silence_duration: 1.5" ++ PyStr.nl ++
  "[silencedetect @ 0x1] silence_start: 88.25" ++ PyStr.nl ++
  "size=N/A time=00:01:30.00".

End PlannerSpec.

(** ** Transcript data *)

(** A segment as the transcription model yields it, with chunk-local
    timestamps ([segment.start], [segment.end], [segment.text]). *)
Record model_segment : Type := mk_model_segment {
  ms_start : Q;
  ms_end : Q;
  ms_text : string
}.

(** A transcript segment [{'start', 'end', 'text'}]. *)
Record segment : Type := mk_segment {
  seg_start : Q;
  seg_end : Q;
  seg_text : string
}.

(** A chunk result [{'text', 'segments', 'chunk_index'}]; [merge_chunks]
    reads the segments with [chunk.get('segments', [])], so the key may be
    absent. *)
Record chunk_result : Type := mk_chunk_result {
  cr_text : string;
  cr_segments : option (list segment);
  cr_chunk_index : Z
}.

(** ** Chunk transcriber: [transcribe_chunk_worker] *)

Module Transcriber.
Import Planner.
Local Open Scope Q_scope.

(** [beam_size], [best_of] and [condition_on_previous_text] for a
    transcription mode: ['fast'], or else quality. *)
Definition decoding_parameters (transcription_mode : string) : Z * Z * bool :=
  if String.eqb transcription_mode "fast"
  then (3%Z, 3%Z, false) else (5%Z, 5%Z, true).

Section worker.
(** [WhisperModel(whisper_model, ...).transcribe(path, beam_size=..,
    best_of=.., condition_on_previous_text=.., ...)], with the segment
    generator read to its end. *)
Variable whisper :
  string -> string -> Z -> Z -> bool -> outcome (list model_segment).

(** The body of [for segment in segments]; the state is
    [(segment_list, text_parts)]. *)
Definition adjust_segment (chunk_info : chunk)
    (st : list segment * list string) (seg : model_segment)
    : list segment * list string :=
  let adjusted_segment :=
    mk_segment (ms_start seg + c_start chunk_info)
               (ms_end seg + c_start chunk_info)
               (PyStr.strip (ms_text seg)) in
  if PyStr.truthy (seg_text adjusted_segment) then
    (fst st ++ [adjusted_segment], snd st ++ [seg_text adjusted_segment])
  else st.

(** [transcribe_chunk_worker((chunk_info, whisper_model, transcription_mode))]
    on the files [fs]: the result, and the files afterwards. *)
Definition transcribe_chunk_worker (fs : filesystem)
    (args : chunk * string * string)
    : outcome chunk_result * filesystem :=
  let '(chunk_info, whisper_model, transcription_mode) := args in
  let '(beam_size, best_of, condition_on_previous_text) :=
    decoding_parameters transcription_mode in
  match whisper whisper_model (c_path chunk_info) beam_size best_of
          condition_on_previous_text with
  | Raised e => (Raised e, fs)
  | Ok segments =>
      let '(segment_list, text_parts) :=
        fold_left (adjust_segment chunk_info) segments ([], []) in
      match fs !! c_path chunk_info with
      | None => (Raised "No such file or directory", fs)
      | Some _ =>
          (Ok (mk_chunk_result (PyStr.join PyStr.nl text_parts)
                 (Some segment_list) (c_index chunk_info)),
           delete (c_path chunk_info) fs)
      end
  end.
End worker.

End Transcriber.

(** ** Specification vocabulary for the transcriber *)

Module TranscriberSpec.
Import Planner.
Local Open Scope Q_scope.

(** A model segment on the recording's timeline, its text trimmed. *)
Definition rebase (offset : Q) (m : model_segment) : segment :=
  mk_segment (ms_start m + offset) (ms_end m + offset)
    (PyStr.strip (ms_text m)).

(** The model segment has text left after trimming. *)
Definition keeps (m : model_segment) : bool :=
  PyStr.truthy (PyStr.strip (ms_text m)).

(** A sample chunk, its file, and what the model hears in it. *)
Definition sample_chunk : chunk := mk_chunk "tmp/h_chunk_001.wav" 31 30 1.

Definition sample_files : filesystem :=
  {[ "tmp/h_chunk_001.wav" := "RIFF"; "tmp/h_full.wav" := "RIFF" ]}.

Definition sample_whisper (model path : string) (beam_size best_of : Z)
    (condition_on_previous_text : bool) : outcome (list model_segment) :=
  Ok [ mk_model_segment 0 (5 # 2) " Good morning. ";
       mk_model_segment (5 # 2) 3 "   ";
       mk_model_segment 3 7 "The committee will come to order." ].

End TranscriberSpec.

(** ** Merge engine: [merge_chunks] *)

Module Merge.
Local Open Scope Q_scope.

(** [list.sort(key=...)]: a stable sort that compares keys with [<].  An
    element is inserted after the elements with a smaller key and before
    those with an equal or greater key, which it preceded in the input. *)
Section sort.
Context {A K : Type}.
Variable key : A -> K.
Variable ltb : K -> K -> bool.

Fixpoint insert_by (x : A) (l : list A) : list A :=
  match l with
  | [] => [x]
  | y :: l' =>
      if ltb (key y) (key x) then y :: insert_by x l' else x :: y :: l'
  end.

Fixpoint sort_by (l : list A) : list A :=
  match l with
  | [] => []
  | x :: l' => insert_by x (sort_by l')
  end.
End sort.

(** The returned dictionary [{'text', 'segments'}]. *)
Record merged : Type := mk_merged {
  m_text : string;
  m_segments : list segment
}.

(** List objects live on a heap: the caller and [merge_chunks] hold the same
    list. *)
Definition loc : Type := positive.

(** [chunk.get('segments', [])] *)
Definition get_segments (chunk : chunk_result) : list segment :=
  match cr_segments chunk with Some l => l | None => [] end.

(** The body of [merge_chunks] on the content of the list: the returned
    dictionary and the content of the list afterwards. *)
Definition merge_list (l : list chunk_result) : merged * list chunk_result :=
  let l' := sort_by cr_chunk_index Z.ltb l in
  let full_text :=
    PyStr.join PyStr.nlnl (List.filter PyStr.truthy (map cr_text l')) in
  let all_segments :=
    fold_left (fun acc chunk => acc ++ get_segments chunk) l' [] in
  let all_segments' := sort_by seg_start Qltb all_segments in
  (mk_merged (PyStr.strip full_text) all_segments', l').

(** [merge_chunks(chunk_results)], where [chunk_results] refers to a list on
    the heap [h]: the returned dictionary and the heap afterwards.  [None]
    when the reference does not point to a list. *)
Definition merge_chunks (h : gmap loc (list chunk_result))
    (chunk_results : loc)
    : option (merged * gmap loc (list chunk_result)) :=
  match h !! chunk_results with
  | None => None
  | Some l =>
      let '(result, l') := merge_list l in
      Some (result, <[chunk_results := l']> h)
  end.

End Merge.

(** ** Specification vocabulary for sorting and merging *)

Module MergeSpec.
Import Merge.
Local Open Scope Q_scope.

(** [a] may stand before [b] in a list sorted by [key]. *)
Definition key_le {A K : Type} (key : A -> K) (ltb : K -> K -> bool)
    (a b : A) : Prop :=
  ltb (key b) (key a) = false.

(** [a]'s key is equivalent to [k]: neither is below the other. *)
Definition key_is {A K : Type} (key : A -> K) (ltb : K -> K -> bool)
    (k : K) (a : A) : bool :=
  negb (ltb (key a) k) && negb (ltb k (key a)).

(** The segments of a list of chunk results, chunk after chunk. *)
Definition flatten (chunks : list chunk_result) : list segment :=
  concat (map get_segments chunks).

(** Ascending chunk index, strictly. *)
Definition index_lt (a b : chunk_result) : Prop :=
  (cr_chunk_index a < cr_chunk_index b)%Z.

(** Ascending chunk index. *)
Definition index_le (a b : chunk_result) : Prop :=
  (cr_chunk_index a <= cr_chunk_index b)%Z.

(** Non-decreasing start time. *)
Definition start_le (a b : segment) : Prop := seg_start a <= seg_start b.

(** The segment starts at time [t]. *)
Definition starts_at (t : Q) (a : segment) : bool := Qeq_bool (seg_start a) t.

(** The paragraph-separated join of the non-empty texts of [chunks]. *)
Definition joined_text (chunks : list chunk_result) : string :=
  PyStr.join PyStr.nlnl (List.filter PyStr.truthy (map cr_text chunks)).

(** Sample chunk results: two that share an index, one whose text starts
    with a blank, and a list of four with distinct indices, out of order,
    one of them without text and without segments. *)
Definition dup_a : chunk_result := mk_chunk_result "a" (Some []) 0.
Definition dup_b : chunk_result := mk_chunk_result "b" (Some []) 0.
Definition blank_head : chunk_result := mk_chunk_result " a" (Some []) 0.

Definition sample_results : list chunk_result :=
  [ mk_chunk_result "third" (Some [mk_segment 61 70 "third"]) 2;
    mk_chunk_result "first"
      (Some [mk_segment 0 10 "fir"; mk_segment 31 32 "st"]) 0;
    mk_chunk_result "" None 3;
    mk_chunk_result "second" (Some [mk_segment 31 40 "second"]) 1 ].

End MergeSpec.

(** ** Status gateway: the [hearings] table *)

Module Store.

(** A value stored in a column. *)
Inductive sql_value : Type :=
| SqlText (s : string)
| SqlInt (n : Z)
| SqlTime (t : Q)
| SqlNull.

(** A row maps column names to values; the table maps ids to rows. *)
Abbreviation row := (gmap string sql_value).
Abbreviation table := (gmap string (gmap string sql_value)).

(** [_update_status_sync(hearing_id, status_field, status_value, error_msg)]
    at time [now]: [UPDATE hearings SET ... WHERE id = hearing_id]. *)
Definition _update_status_sync (now : Q) (db : table)
    (hearing_id status_field status_value : string)
    (error_msg : option string) : table :=
  if String.eqb status_field "download_status"
     && String.eqb status_value "downloading" then
    alter (fun r : row =>
             <["download_started_at" := SqlTime now]>
               (<[status_field := SqlText status_value]> r))
      hearing_id db
  else if String.eqb status_field "transcription_status"
          && String.eqb status_value "processing" then
    alter (fun r : row =>
             <["transcription_started_at" := SqlTime now]>
               (<[status_field := SqlText status_value]> r))
      hearing_id db
  else
    alter (fun r : row => <[status_field := SqlText status_value]> r)
      hearing_id db.

(** [_update_download_complete_sync(hearing_id, filename, file_size)] *)
Definition _update_download_complete_sync (now : Q) (db : table)
    (hearing_id filename : string) (file_size : Z) : table :=
  alter (fun r : row =>
           <["download_completed_at" := SqlTime now]>
             (<["video_size_bytes" := SqlInt file_size]>
                (<["video_file_path" := SqlText filename]>
                   (<["download_status" := SqlText "completed"]> r))))
    hearing_id db.

(** [_update_transcription_complete_sync]: the stored text is read back
    from the transcript file when it exists; [transcription_json] is the
    rendered JSON document. *)
Definition _update_transcription_complete_sync (now : Q) (db : table)
    (fs : filesystem) (text_path hearing_id transcription_json : string)
    : table :=
  let transcription_text :=
    match fs !! text_path with Some t => t | None => EmptyString end in
  alter (fun r : row =>
           <["transcription_completed_at" := SqlTime now]>
             (<["transcription_json" := SqlText transcription_json]>
                (<["transcription_text" := SqlText transcription_text]>
                   (<["transcription_status" := SqlText "completed"]> r))))
    hearing_id db.

End Store.

(** ** Job scheduler: the state the processor works on *)

Module Job.
Import Store.
Local Open Scope Q_scope.

(** A hearing as the scheduler holds it. *)
Record hearing : Type := mk_hearing {
  h_id : string;
  h_title : string;
  h_url : string;
  h_chamber : option string;
  h_video_file_path : option string
}.

(** [self.performance_stats] *)
Record stats : Type := mk_stats {
  dl_successful : Z;
  dl_failed : Z;
  dl_total_bytes : Z;
  dl_total_time : Q;
  tr_successful : Z;
  tr_failed : Z;
  tr_total_audio_duration : Q;
  tr_total_time : Q
}.

(** An entry of [self.download_progress]. *)
Inductive progress : Type :=
| StartTime (t : Q)
| Transfer (total downloaded : Z) (percent : Q).

(** What the logger records, and the pauses of the event loop. *)
Inductive event : Type :=
| AlreadyDownloaded (title : string)
| StartingDownload (title : string) (attempt total : nat)
| StreamDetected (title : string)
| Executing (cmd : list string)
| StreamCompleted (video_id : string) (file_size : Z)
| DownloadComplete (title : string) (file_size : Z)
| DownloadFailed (title err : string)
| Retrying (wait_time : Q)
| Slept (wait_time : Q)
| MaxRetries (title : string)
| VideoNotFound (path : string)
| VideoCorrupted (path : string)
| VerificationTimeout (path : string)
| StartingTranscription (title : string)
| ExtractingAudio (title : string)
| AudioDuration (seconds : Q)
| SplitInto (chunks : nat)
| ChunkWorkers (workers : Z)
| TranscriptionComplete (title : string) (seconds : Q)
| DeletedAudio (path : string)
| DeletedChunk (path : string)
| DeletedVideo (path : string)
| TranscriptionFailed (title err : string).

(** The processor's state together with its environment. *)
Record world : Type := mk_world {
  w_db : table;
  w_fs : filesystem;
  w_now : Q;
  w_log : list event;
  w_download_progress : gmap string progress;
  w_stats : stats
}.

Definition set_db (f : table -> table) (w : world) : world :=
  mk_world (f (w_db w)) (w_fs w) (w_now w) (w_log w)
    (w_download_progress w) (w_stats w).

Definition set_fs (f : filesystem -> filesystem) (w : world) : world :=
  mk_world (w_db w) (f (w_fs w)) (w_now w) (w_log w)
    (w_download_progress w) (w_stats w).

Definition elapse (seconds : Q) (w : world) : world :=
  mk_world (w_db w) (w_fs w) (w_now w + seconds) (w_log w)
    (w_download_progress w) (w_stats w).

Definition emit (e : event) (w : world) : world :=
  mk_world (w_db w) (w_fs w) (w_now w) (w_log w ++ [e])
    (w_download_progress w) (w_stats w).

Definition set_progress (video_id : string) (p : progress) (w : world)
    : world :=
  mk_world (w_db w) (w_fs w) (w_now w) (w_log w)
    (<[video_id := p]> (w_download_progress w)) (w_stats w).

Definition set_stats (f : stats -> stats) (w : world) : world :=
  mk_world (w_db w) (w_fs w) (w_now w) (w_log w)
    (w_download_progress w) (f (w_stats w)).

(** [update_status]: the synchronous update, run off the event loop. *)
Definition update_status (hearing_id status_field status_value : string)
    (error_msg : option string) (w : world) : world :=
  set_db (fun db => _update_status_sync (w_now w) db hearing_id status_field
                      status_value error_msg) w.

(** [path.stat().st_size] *)
Definition st_size (content : string) : Z := Z.of_nat (String.length content).

(** [s.endswith(suffix)] *)
Definition endswith (suffix s : string) : bool :=
  (String.length suffix <=? String.length s)%nat
  && String.eqb
       (String.substring (String.length s - String.length suffix)
          (String.length suffix) s)
       suffix.

End Job.

(** ** Job scheduler: [download_video] *)

Module Download.
Import Store Job.
Local Open Scope Q_scope.

(** One run of [ffmpeg -i url -c copy ... temp_path -y]: its exit status,
    what it printed on stderr, the file it left at [temp_path] if any, and
    how long it ran. *)
Record stream_run : Type := mk_stream_run {
  sr_returncode : Z;
  sr_stderr : string;
  sr_output : option string;
  sr_seconds : Q
}.

(** One HTTP GET: the request fails before the target file is opened, or a
    response arrives with its [Content-Length], the body chunks that are
    read, and the error that interrupts the body, if any. *)
Inductive http_run : Type :=
| HttpRefused (err : string) (seconds : Q)
| HttpResponse (content_length : Z) (chunks : list string)
    (failure : option string) (seconds : Q).

Definition max_retries : nat := 3.

Section download.
(** [self.videos_dir]; the network, per URL and attempt; and the value of
    [random.uniform(0, 1)] drawn after the attempt with a given
    [retry_count]. *)
Variable videos_dir : string.
Variable stream : string -> nat -> stream_run.
Variable http : string -> nat -> http_run.
Variable jitter : nat -> Q.

(** [self.videos_dir / f"{video_id}.mp4"] *)
Definition video_file (video_id : string) : string :=
  videos_dir ++ "/" ++ video_id ++ ".mp4".

(** [video_path.exists() and video_path.stat().st_size > 0] *)
Definition already_downloaded (video_path : string) (w : world) : bool :=
  match w_fs w !! video_path with
  | Some content => (0 <? st_size content)%Z
  | None => false
  end.

(** The m3u8 branch of the [try] block. *)
Definition fetch_stream (hearing : hearing) (retry_count : nat)
    (video_path : string) (w : world) : outcome unit * world :=
  let w := emit (StreamDetected (h_title hearing)) w in
  let temp_path := (video_path ++ ".downloading")%string in
  let cmd := ["ffmpeg"; "-i"; h_url hearing; "-c"; "copy"; "-bsf:a";
              "aac_adtstoasc"; "-f"; "mp4"; temp_path; "-y"] in
  let w := emit (Executing cmd) w in
  let run := stream (h_url hearing) retry_count in
  let w :=
    elapse (sr_seconds run)
      (set_fs (fun fs => Planner.write_output fs temp_path (sr_output run))
         w) in
  if negb (sr_returncode run =? 0)%Z then
    let error_msg :=
      if PyStr.truthy (sr_stderr run) then sr_stderr run
      else "Unknown error" in
    (Raised ("FFmpeg failed: " ++ error_msg)%string, w)
  else
    match w_fs w !! temp_path with
    | None => (Raised "No such file or directory", w)
    | Some content =>
        let w :=
          set_fs (fun fs => <[video_path := content]> (delete temp_path fs))
            w in
        (Ok tt, emit (StreamCompleted (h_id hearing) (st_size content)) w)
    end.

(** The body of [async for chunk in response.content.iter_chunked(8192)];
    the state is [(downloaded, world)]. *)
Definition write_chunk (video_id video_path : string) (total_size : Z)
    (st : Z * world) (chunk : string) : Z * world :=
  let '(downloaded, w) := st in
  let w :=
    set_fs (fun fs =>
              match fs !! video_path with
              | Some content => <[video_path := (content ++ chunk)%string]> fs
              | None => <[video_path := chunk]> fs
              end) w in
  let downloaded := (downloaded + st_size chunk)%Z in
  let percent :=
    if (0 <? total_size)%Z
    then inject_Z downloaded / inject_Z total_size * 100 else 0 in
  (downloaded, set_progress video_id (Transfer total_size downloaded percent) w).

(** The plain HTTP branch of the [try] block. *)
Definition fetch_http (hearing : hearing) (retry_count : nat)
    (video_path : string) (w : world) : outcome unit * world :=
  match http (h_url hearing) retry_count with
  | HttpRefused err seconds => (Raised err, elapse seconds w)
  | HttpResponse total_size chunks failure seconds =>
      let w := set_fs (fun fs => <[video_path := EmptyString]> fs) w in
      let '(_, w) :=
        fold_left (write_chunk (h_id hearing) video_path total_size) chunks
          (0%Z, w) in
      let w := elapse seconds w in
      match failure with
      | Some err => (Raised err, w)
      | None => (Ok tt, w)
      end
  end.

(** The [try] block: fetch the video, then record the completion. *)
Definition attempt_download (hearing : hearing) (retry_count : nat)
    (video_path : string) (w : world) : outcome unit * world :=
  let video_url := h_url hearing in
  let fetched :=
    if endswith ".m3u8" video_url || PyStr.contains "HLS" video_url
    then fetch_stream hearing retry_count video_path w
    else fetch_http hearing retry_count video_path w in
  match fetched with
  | (Raised e, w) => (Raised e, w)
  | (Ok _, w) =>
      match w_fs w !! video_path with
      | None => (Raised "No such file or directory", w)
      | Some content =>
          let file_size := st_size content in
          let w :=
            set_db (fun db =>
                      _update_download_complete_sync (w_now w) db
                        (h_id hearing) (h_id hearing ++ ".mp4")%string file_size)
              w in
          let download_time :=
            match w_download_progress w !! h_id hearing with
            | Some (StartTime t) => w_now w - t
            | _ => 0
            end in
          let w :=
            set_stats (fun st =>
                         mk_stats (dl_successful st + 1) (dl_failed st)
                           (dl_total_bytes st + file_size)
                           (dl_total_time st + download_time)
                           (tr_successful st) (tr_failed st)
                           (tr_total_audio_duration st) (tr_total_time st))
              w in
          (Ok tt, emit (DownloadComplete (h_title hearing) file_size) w)
      end
  end.

(** [(2 ** retry_count) + random.uniform(0, 1)] *)
Definition wait_time_of (retry_count : nat) : Q :=
  inject_Z (2 ^ Z.of_nat retry_count) + jitter retry_count.

(** [download_video(hearing, retry_count)]: the returned path ([None] after
    the last failed attempt) and the state afterwards. *)
Equations download_video (hearing : hearing) (retry_count : nat) (w : world)
    : option string * world by wf (max_retries - retry_count)%nat lt :=
download_video hearing retry_count w
  with already_downloaded (video_file (h_id hearing)) w := {
  | true :=
      (Some (video_file (h_id hearing)),
       emit (AlreadyDownloaded (h_title hearing)) w)
  | false
    with attempt_download hearing retry_count (video_file (h_id hearing))
           (update_status (h_id hearing) "download_status" "downloading" None
              (set_progress (h_id hearing) (StartTime (w_now w))
                 (emit (StartingDownload (h_title hearing) (retry_count + 1)
                          (max_retries + 1)) w))) := {
    | (Ok _, w1) := (Some (video_file (h_id hearing)), w1)
    | (Raised e, w1) with lt_dec retry_count max_retries := {
      | left Hlt :=
          download_video hearing (S retry_count)
            (emit (Slept (wait_time_of retry_count))
               (elapse (wait_time_of retry_count)
                  (emit (Retrying (wait_time_of retry_count))
                     (emit (DownloadFailed (h_title hearing) e) w1))))
      | right _ :=
          (None,
           update_status (h_id hearing) "download_status" "failed" (Some e)
             (emit (MaxRetries (h_title hearing))
                (emit (DownloadFailed (h_title hearing) e) w1))) } } }.
Next Obligation. unfold max_retries in *. lia. Qed.
End download.

End Download.

(** ** Job scheduler: [transcribe_video] *)

Module Transcription.
Import Store Job Planner Transcriber Merge.
Local Open Scope Q_scope.

(** The integrity probe [subprocess.run(verify_cmd, ..., timeout=10)]. *)
Inductive verify_run : Type :=
| VerifyExit (returncode : Z) (stderr : string)
| VerifyTimeout.

(** [repr] of a list of strings without quotes or backslashes. *)
Definition repr_list (l : list string) : string :=
  ("[" ++ PyStr.join ", " (map (fun x => "'" ++ x ++ "'") l) ++ "]")%string.

(** [str(CalledProcessError(returncode, cmd))] *)
Definition called_process_error (cmd : list string) (returncode : Z) : string :=
  ("Command '" ++ repr_list cmd ++ "' returned non-zero exit status "
   ++ pretty returncode ++ ".")%string.

(** [title.replace('/', '_').replace('\\', '_')[:100]] *)
Fixpoint replace_separators (s : string) : string :=
  match s with
  | EmptyString => EmptyString
  | String c s' =>
      String (if Ascii.eqb c "/" || Ascii.eqb c "\" then "_"%char else c)
        (replace_separators s')
  end.

Definition safe_title_of (title : string) : string :=
  String.substring 0 100 (replace_separators title).

(** The first exception among the workers' results, in chunk order. *)
Fixpoint collect {A} (results : list (outcome A)) : outcome (list A) :=
  match results with
  | [] => Ok []
  | Raised e :: _ => Raised e
  | Ok a :: rest =>
      match collect rest with
      | Ok l => Ok (a :: l)
      | Raised e => Raised e
      end
  end.

Section transcribe.
(** Configuration of the processor. *)
Variable videos_dir temp_dir transcriptions_dir : string.
Variable chunk_duration : Q.
Variable whisper_model transcription_mode : string.
Variable delete_after : bool.
Variable total_cores : Z.

(** The tools, as functions of the file they are run on: the integrity
    probe; the audio extraction (exit status, file written); ffprobe's
    duration output; the silence detector's stderr; the cut; the
    transcription model; and the time the processing takes. *)
Variable py_float : string -> option Q.
Variable ffprobe_verify : string -> verify_run.
Variable ffmpeg_extract : string -> Z * option string.
Variable ffprobe_duration : string -> string.
Variable silencedetect : string -> string.
Variable ffmpeg_cut : string -> Q -> Q -> string -> bool * option string.
Variable whisper :
  string -> string -> Z -> Z -> bool -> outcome (list model_segment).
Variable processing_seconds : Q.

(** The rendering of the transcript files and of the stored JSON document
    from title, chamber, id, time, audio duration, number of chunks and the
    merged result. *)
Variable render_text :
  string -> string -> string -> Q -> Q -> nat -> merged -> string.
Variable render_json :
  string -> string -> string -> Q -> Q -> nat -> merged -> string.
Variable render_db_json :
  string -> string -> string -> Q -> Q -> nat -> merged -> string.

(** A path under [temp_dir] that matches [f"{hearing_id}_chunk_*.wav"]. *)
Definition chunk_glob (hearing_id path : string) : bool :=
  let pre := (temp_dir ++ "/" ++ hearing_id ++ "_chunk_")%string in
  String.prefix pre path
  && endswith ".wav" path
  && (String.length pre + 4 <=? String.length path)%nat
  && negb (PyStr.contains "/"
             (String.substring (String.length pre)
                (String.length path - String.length pre - 4) path)).

(** [for chunk_file in self.temp_dir.glob(...): chunk_file.unlink()] *)
Definition unlink_chunks (hearing_id : string) (fs : filesystem)
    : filesystem :=
  filter (fun kv => chunk_glob hearing_id kv.1 = false) fs.

(** The chunk files the glob finds. *)
Definition glob_chunks (hearing_id : string) (fs : filesystem) : list string :=
  List.filter (chunk_glob hearing_id) (map fst (map_to_list fs)).

(** [extract_audio(video_path, audio_path)] *)
Definition extract_audio (video_path audio_path : string) (w : world)
    : outcome unit * world :=
  let cmd := ["ffmpeg"; "-i"; video_path; "-vn"; "-acodec"; "pcm_s16le";
              "-ar"; "16000"; "-ac"; "1"; audio_path; "-y"; "-loglevel";
              "error"] in
  let video := match w_fs w !! video_path with
               | Some c => c | None => EmptyString end in
  let run := ffmpeg_extract video in
  let w := set_fs (fun fs => write_output fs audio_path (snd run)) w in
  if (fst run =? 0)%Z then (Ok tt, w)
  else (Raised (called_process_error cmd (fst run)), w).

(** The chunk workers: every task runs; each works on the files the
    previous ones left. *)
Fixpoint run_workers (fs : filesystem) (worker_args : list (chunk * string * string))
    : list (outcome chunk_result) * filesystem :=
  match worker_args with
  | [] => ([], fs)
  | args :: rest =>
      let '(r, fs1) := transcribe_chunk_worker whisper fs args in
      let '(rs, fs2) := run_workers fs1 rest in
      (r :: rs, fs2)
  end.

(** The [try] block of [transcribe_video]; [None] when the planning loop
    does not terminate. *)
Definition transcribe_body (hearing : hearing) (video_path audio_path : string)
    (w : world) : option (outcome unit * world) :=
  let hearing_id := h_id hearing in
  let title := h_title hearing in
  let chamber := match h_chamber hearing with
                 | Some c => c | None => "house" end in
  let w := set_db (fun db => _update_status_sync (w_now w) db hearing_id
                               "transcription_status" "processing" None) w in
  let w := emit (StartingTranscription title) w in
  let start_time := w_now w in
  let w := emit (ExtractingAudio title) w in
  match extract_audio video_path audio_path w with
  | (Raised e, w) => Some (Raised e, w)
  | (Ok _, w) =>
  let audio := match w_fs w !! audio_path with
               | Some c => c | None => EmptyString end in
  match get_audio_duration py_float (ffprobe_duration audio) with
  | Raised e => Some (Raised e, w)
  | Ok audio_duration =>
  let w := emit (AudioDuration audio_duration) w in
  match split_audio_with_silence_detection temp_dir chunk_duration py_float
          (ffmpeg_cut audio) (ffprobe_duration audio) (silencedetect audio)
          hearing_id (w_fs w) with
  | None => None
  | Some (Raised e, fs) => Some (Raised e, set_fs (fun _ => fs) w)
  | Some (Ok chunks, fs) =>
  let w := emit (SplitInto (length chunks)) (set_fs (fun _ => fs) w) in
  let chunk_workers :=
    Z.min (total_cores / 2) (Z.of_nat (length chunks)) in
  let w := emit (ChunkWorkers chunk_workers) w in
  let worker_args :=
    map (fun chunk => (chunk, whisper_model, transcription_mode)) chunks in
  if (chunk_workers <? 1)%Z then
    Some (Raised "Number of processes must be at least 1", w)
  else
  let '(results, fs) := run_workers (w_fs w) worker_args in
  let w := set_fs (fun _ => fs) w in
  match collect results with
  | Raised e => Some (Raised e, w)
  | Ok chunk_results =>
  let merged_result := fst (merge_list chunk_results) in
  let safe_title := safe_title_of title in
  let w := elapse processing_seconds w in
  let text_path := (transcriptions_dir ++ "/" ++ safe_title ++ ".txt")%string in
  let json_path := (transcriptions_dir ++ "/" ++ safe_title ++ ".json")%string in
  let w :=
    set_fs (fun fs =>
              <[json_path := render_json title chamber hearing_id (w_now w)
                               audio_duration (length chunks) merged_result]>
                (<[text_path := render_text title chamber hearing_id (w_now w)
                                  audio_duration (length chunks) merged_result]>
                   fs)) w in
  let duration := w_now w - start_time in
  let w :=
    set_db (fun db =>
              _update_transcription_complete_sync (w_now w) db (w_fs w)
                text_path hearing_id
                (render_db_json title chamber hearing_id (w_now w)
                   audio_duration (length chunks) merged_result)) w in
  let w :=
    set_stats (fun st =>
                 mk_stats (dl_successful st) (dl_failed st)
                   (dl_total_bytes st) (dl_total_time st)
                   (tr_successful st + 1) (tr_failed st)
                   (tr_total_audio_duration st + audio_duration)
                   (tr_total_time st + duration)) w in
  let w := emit (TranscriptionComplete title duration) w in
  let w :=
    match w_fs w !! audio_path with
    | Some _ => emit (DeletedAudio audio_path)
                  (set_fs (fun fs => delete audio_path fs) w)
    | None => w
    end in
  let w :=
    fold_left (fun w chunk_file => emit (DeletedChunk chunk_file) w)
      (glob_chunks hearing_id (w_fs w))
      (set_fs (unlink_chunks hearing_id) w) in
  let w :=
    if delete_after then
      match w_fs w !! video_path with
      | Some _ => emit (DeletedVideo video_path)
                    (set_fs (fun fs => delete video_path fs) w)
      | None => w
      end
    else w in
  Some (Ok tt, w)
  end end end end.

(** The [except Exception as e] block of [transcribe_video]. *)
Definition transcribe_failed (hearing : hearing) (audio_path e : string)
    (w : world) : world :=
  let w := emit (TranscriptionFailed (h_title hearing) e) w in
  let w := set_db (fun db => _update_status_sync (w_now w) db (h_id hearing)
                               "transcription_status" "failed" (Some e)) w in
  let w :=
    set_stats (fun st =>
                 mk_stats (dl_successful st) (dl_failed st)
                   (dl_total_bytes st) (dl_total_time st)
                   (tr_successful st) (tr_failed st + 1)
                   (tr_total_audio_duration st) (tr_total_time st)) w in
  let w := set_fs (fun fs => delete audio_path fs) w in
  set_fs (unlink_chunks (h_id hearing)) w.

(** [transcribe_video(hearing)]: [Raised] is an exception that leaves the
    function, [None] a call that does not return. *)
Definition transcribe_video (hearing : hearing) (w : world)
    : option (outcome unit * world) :=
  let hearing_id := h_id hearing in
  let video_path :=
    match h_video_file_path hearing with
    | Some p => if PyStr.truthy p then p
                else Download.video_file videos_dir hearing_id
    | None => Download.video_file videos_dir hearing_id
    end in
  let audio_path := (temp_dir ++ "/" ++ hearing_id ++ "_full.wav")%string in
  match w_fs w !! video_path with
  | None =>
      let w := emit (VideoNotFound video_path) w in
      Some
      (Ok tt,
       set_db (fun db => _update_status_sync (w_now w) db hearing_id
                           "transcription_status" "failed"
                           (Some ("Video not found: " ++ video_path)%string))
         w)
  | Some _ =>
      match ffprobe_verify video_path with
      | VerifyTimeout =>
          let w := emit (VerificationTimeout video_path) w in
          Some
          (Ok tt,
           set_db (fun db => _update_status_sync (w_now w) db hearing_id
                               "transcription_status" "failed"
                               (Some "Video verification timeout")) w)
      | VerifyExit returncode stderr =>
          if negb (returncode =? 0)%Z then
            let w := emit (VideoCorrupted video_path) w in
            let w :=
              set_db (fun db => _update_status_sync (w_now w) db hearing_id
                                  "transcription_status" "failed"
                                  (Some ("Video corrupted: " ++ stderr)%string))
                w in
            if delete_after then
              Some (Raised "name 'video_filename' is not defined",
                    set_fs (fun fs => delete video_path fs) w)
            else Some (Ok tt, w)
          else
            match transcribe_body hearing video_path audio_path w with
            | Some (Ok _, w) => Some (Ok tt, w)
            | Some (Raised e, w) =>
                Some (Ok tt, transcribe_failed hearing audio_path e w)
            | None => None
            end
      end
  end.
End transcribe.

End Transcription.

(** ** Specification vocabulary for the download retries *)

Module DownloadSpec.
Import Store Job Download.
Local Open Scope Q_scope.

(** The outcome an event reports for a download attempt. *)
Definition attempt_result (e : event) : option bool :=
  match e with
  | DownloadFailed _ _ => Some false
  | DownloadComplete _ _ => Some true
  | _ => None
  end.

(** The outcomes of the attempts a log reports, in order. *)
Definition attempt_results (evs : list event) : list bool :=
  omap attempt_result evs.

Definition sleep_of (e : event) : option Q :=
  match e with Slept t => Some t | _ => None end.

(** The pauses a log reports, in order. *)
Definition sleeps (evs : list event) : list Q := omap sleep_of evs.

(** A column of a job's row in the status store. *)
Definition column (w : world) (hearing_id col : string) : option sql_value :=
  w_db w !! hearing_id ≫= (fun r : row => r !! col).

(** [w'] extends the log of [w] by [evs]. *)
Definition logged (w w' : world) (evs : list event) : Prop :=
  w_log w' = w_log w ++ evs.

(** A log extension without attempt outcomes or pauses. *)
Definition quiet (evs : list event) : Prop :=
  attempt_results evs = [] /\ sleeps evs = [].

(** The columns [download_video] writes. *)
Definition download_columns : list string :=
  ["download_status"; "download_started_at"; "transcription_started_at";
   "video_file_path"; "video_size_bytes"; "download_completed_at"].

(** The three ways a call [download_video(hearing, retry_count)] can end,
    read off the log it leaves: [k] failed attempts and then a success;
    [k] failed attempts and then a file found on disk; or failures until
    the retries are exhausted.  A pause follows every failed attempt but the
    last of an exhausted run. *)
Definition retry_outcome (videos_dir : string) (jitter : nat -> Q)
    (hearing : hearing) (retry_count : nat) (w : world)
    (result : option string * world) : Prop :=
  let res := fst result in
  let w' := snd result in
  let video_id := h_id hearing in
  exists evs,
    logged w w' evs /\
    (forall id', is_Some (w_db w' !! id') <-> is_Some (w_db w !! id')) /\
    (forall id' col, ~ In col download_columns ->
                     column w' id' col = column w id' col) /\
    ((exists k, (k <= max_retries - retry_count)%nat /\
        attempt_results evs = replicate k false ++ [true] /\
        sleeps evs = map (wait_time_of jitter) (seq retry_count k) /\
        res = Some (video_file videos_dir video_id) /\
        (is_Some (w_db w !! video_id) ->
         column w' video_id "download_status" = Some (SqlText "completed")))
     \/
     (exists k, (k <= max_retries - retry_count)%nat /\
        attempt_results evs = replicate k false /\
        sleeps evs = map (wait_time_of jitter) (seq retry_count k) /\
        res = Some (video_file videos_dir video_id))
     \/
     (attempt_results evs = replicate (S (max_retries - retry_count)) false /\
      sleeps evs =
        map (wait_time_of jitter)
          (seq retry_count (max_retries - retry_count)) /\
      res = None /\
      (is_Some (w_db w !! video_id) ->
       column w' video_id "download_status" = Some (SqlText "failed")))).

(** A sample job, its row in the store, and two networks: one that refuses
    three connections and then delivers four bytes, one that always
    refuses. *)
Definition sample_hearing : hearing :=
  mk_hearing "7" "Budget hearing" "https://example.org/v.mp4" None None.

Definition sample_world : world :=
  mk_world
    {[ "7" := {[ "download_status" := SqlText "pending";
                 "transcription_status" := SqlText "pending";
                 "retry_count" := SqlInt 0 ]} ]}
    ∅ 0 [] ∅ (mk_stats 0 0 0 0 0 0 0 0).

Definition no_stream (url : string) (attempt : nat) : stream_run :=
  mk_stream_run 1 "" None 0.

Definition fourth_time_lucky (url : string) (attempt : nat) : http_run :=
  if (attempt <? 3)%nat then HttpRefused "connection reset" 1
  else HttpResponse 4 ["ab"; "cd"] None 2.

Definition always_refused (url : string) (attempt : nat) : http_run :=
  HttpRefused "connection reset" 1.

Definition half_jitter (attempt : nat) : Q := 1 # 2.

End DownloadSpec.

(** ** Specification vocabulary for the transcription phase *)

Module TranscriptionSpec.
Import Store Job Transcription TranscriberSpec.
Local Open Scope Q_scope.

(** The path [transcribe_video] takes for the job's video. *)
Definition video_path_of (videos_dir : string) (hearing : hearing) : string :=
  match h_video_file_path hearing with
  | Some p => if PyStr.truthy p then p
              else Download.video_file videos_dir (h_id hearing)
  | None => Download.video_file videos_dir (h_id hearing)
  end.

(** [self.temp_dir / f"{hearing_id}_full.wav"] *)
Definition audio_path_of (temp_dir : string) (hearing : hearing) : string :=
  (temp_dir ++ "/" ++ h_id hearing ++ "_full.wav")%string.

(** The command line of the audio extraction. *)
Definition extract_cmd (video_path audio_path : string) : list string :=
  ["ffmpeg"; "-i"; video_path; "-vn"; "-acodec"; "pcm_s16le"; "-ar";
   "16000"; "-ac"; "1"; audio_path; "-y"; "-loglevel"; "error"].

(** A downloaded job with a stale chunk file on disk, and tools of which the
    audio extraction fails with exit status 1. *)
Definition downloaded_world : world :=
  mk_world
    {[ "7" := {[ "download_status" := SqlText "completed";
                 "transcription_status" := SqlText "pending";
                 "retry_count" := SqlInt 0 ]} ]}
    {[ "videos/7.mp4" := "VIDEO"; "tmp/7_chunk_000.wav" := "RIFF" ]}
    100 [] ∅ (mk_stats 1 0 5 1 0 0 0 0).

Definition verify_passes (path : string) : verify_run := VerifyExit 0 "".

Definition extract_fails (video : string) : Z * option string := (1%Z, None).

Definition no_output (audio : string) : string := EmptyString.

Definition cut_ok (audio : string) (start duration : Q) (path : string)
    : bool * option string :=
  (true, Some "RIFF").

Definition render_nothing (title chamber hearing_id : string) (now d : Q)
    (chunks : nat) (m : Merge.merged) : string :=
  EmptyString.

(** The run of [transcribe_video] on the sample job with these tools. *)
Definition failing_run : option (outcome unit * world) :=
  transcribe_video "videos" "tmp" "transcriptions" 30 "small" "quality" true
    8 PyStr.decimal_float verify_passes extract_fails no_output no_output
    cut_ok sample_whisper 0 render_nothing render_nothing render_nothing
    DownloadSpec.sample_hearing downloaded_world.

(** What the extraction failure says: [str(e)]. *)
Definition failing_message : string :=
  called_process_error (extract_cmd "videos/7.mp4" "tmp/7_full.wav") 1.

End TranscriptionSpec.

(** ** Further specification vocabulary for the planner *)

Module PlanSpec.
Import Planner PlannerSpec.
Local Open Scope Q_scope.

(** The spans of [chunks] follow one another from [a] on without overlap:
    each starts at or after the end of the one before. *)
Fixpoint apart (a : Q) (chunks : list chunk) : Prop :=
  match chunks with
  | [] => True
  | c :: rest => a <= c_start c /\ apart (c_start c + c_duration c) rest
  end.

(** A descriptor the loop can emit for a recording of length [duration]:
    longer than the 0.5 s threshold, at most a chunk length plus the 5 s
    lookahead long, starting inside the recording and ending at most 5 s
    after its end, with the path of its index. *)
Definition chunk_ok (temp_dir : string) (chunk_duration duration : Q)
    (hearing_id : string) (c : chunk) : Prop :=
  1 # 2 < c_duration c /\ c_duration c <= chunk_duration + 5 /\
  0 <= c_start c /\ c_start c < duration /\
  c_start c + c_duration c <= duration + 5 /\
  c_path c = chunk_file temp_dir hearing_id (c_index c).

(** The value a start-marker line carries, if it can be read. *)
Definition start_value (py_float : string -> option Q) (line : string)
    : option Q :=
  if is_start_line line
  then value_of (marker_value py_float "silence_start: " line)
  else None.

(** Every marker on the line carries a number that [float] accepts. *)
Definition readable (py_float : string -> option Q) (line : string) : Prop :=
  (is_start_line line = true ->
   exists v, marker_value py_float "silence_start: " line = Ok v) /\
  (is_end_line line = true ->
   exists v, marker_value py_float "silence_end: " line = Ok v).

(** The files before planning: the extracted audio. *)
Definition audio_only : filesystem := {[ "tmp/h_full.wav" := "RIFF" ]}.

End PlanSpec.

(** ** Specification vocabulary for the chunk pipeline *)

Module PipelineSpec.
Import Planner Transcriber Merge MergeSpec.
Local Open Scope Q_scope.

(** The text has no leading or trailing whitespace. *)
Definition trimmed (s : string) : Prop := PyStr.strip s = s.

(** [worker_args]: the tasks [transcribe_video] hands to the pool. *)
Definition worker_args_of (whisper_model transcription_mode : string)
    (chunks : list chunk) : list (chunk * string * string) :=
  map (fun chunk => (chunk, whisper_model, transcription_mode)) chunks.

(** Two planned chunks and the files they are cut into. *)
Definition two_chunks : list chunk :=
  [ mk_chunk "tmp/h_chunk_000.wav" 0 31 0;
    mk_chunk "tmp/h_chunk_001.wav" 31 30 1 ].

Definition two_chunk_files : filesystem :=
  {[ "tmp/h_chunk_000.wav" := "RIFF"; "tmp/h_chunk_001.wav" := "RIFF";
     "tmp/h_full.wav" := "RIFF" ]}.

End PipelineSpec.

(** ** Specification vocabulary for the effects of a download *)

Module DownloadFrame.
Import Store Job Download.
Local Open Scope Q_scope.

(** [str(video_path) + '.downloading'] *)
Definition temp_file (video_path : string) : string :=
  (video_path ++ ".downloading")%string.

(** [w'] differs from [w] at most in the job's video file and temporary
    file, in the job's row and in the job's progress entry. *)
Definition only_job_changed (video_path video_id : string) (w w' : world)
    : Prop :=
  (forall path, path <> video_path -> path <> temp_file video_path ->
                w_fs w' !! path = w_fs w !! path) /\
  (forall id', id' <> video_id -> w_db w' !! id' = w_db w !! id') /\
  (forall id', id' <> video_id ->
               w_download_progress w' !! id' = w_download_progress w !! id').

(** The statistics [s'] count no failed download and no transcription
    beyond those of [s], and at most one more successful download. *)
Definition no_failure_counted (s s' : stats) : Prop :=
  dl_failed s' = dl_failed s /\
  tr_successful s' = tr_successful s /\
  tr_failed s' = tr_failed s /\
  tr_total_audio_duration s' = tr_total_audio_duration s /\
  tr_total_time s' = tr_total_time s /\
  (s' = s \/ dl_successful s' = (dl_successful s + 1)%Z).

(** The bytes of a body read in [chunks]. *)
Definition body (chunks : list string) : string :=
  fold_right String.append EmptyString chunks.

(** A connection that breaks after two of four bytes. *)
Definition broken_body (url : string) (attempt : nat) : http_run :=
  HttpResponse 4 ["ab"] (Some "connection lost") 1.

(** A server that delivers four bytes in two chunks, and a stream that
    ffmpeg copies into five bytes. *)
Definition whole_body (url : string) (attempt : nat) : http_run :=
  HttpResponse 4 ["ab"; "cd"] None 2.

Definition stream_hearing : hearing :=
  mk_hearing "7" "Budget hearing" "https://example.org/live.m3u8" None None.

Definition copied_stream (url : string) (attempt : nat) : stream_run :=
  mk_stream_run 0 "" (Some "VIDEO") 3.

End DownloadFrame.

(** ** Sample runs of the transcription phase *)

Module TranscriptionRunSpec.
Import Store Job Transcription TranscriberSpec TranscriptionSpec PlannerSpec.
Local Open Scope Q_scope.

(** Tools: an integrity probe that rejects the video, an extraction that
    succeeds, a recording of 90 seconds and the sample silences. *)
Definition verify_fails (path : string) : verify_run :=
  VerifyExit 1 "moov atom not found".

Definition extract_ok (video : string) : Z * option string :=
  (0%Z, Some "RIFF").

Definition ninety_seconds (audio : string) : string := "90".

Definition sample_silence (audio : string) : string := sample_stderr.

(** [self.transcriptions_dir / f"{safe_title}.txt"] *)
Definition text_path_of (transcriptions_dir : string) (hearing : hearing)
    : string :=
  (transcriptions_dir ++ "/" ++ safe_title_of (h_title hearing) ++ ".txt")
  %string.

(** [transcribe_video] on the sample job with these tools. *)
Definition sample_run (delete_after : bool) (total_cores : Z)
    (ffprobe_verify : string -> verify_run)
    : option (outcome unit * world) :=
  transcribe_video "videos" "tmp" "transcriptions" 30 "small" "quality"
    delete_after total_cores PyStr.decimal_float ffprobe_verify extract_ok
    ninety_seconds sample_silence cut_ok sample_whisper 12 render_nothing
    render_nothing render_nothing DownloadSpec.sample_hearing
    downloaded_world.

(** A renderer that puts a title line before the merged text, and the
    sample run with it. *)
Definition render_titled (title chamber hearing_id : string) (now d : Q)
    (chunks : nat) (m : Merge.merged) : string :=
  ("# " ++ title ++ PyStr.nl ++ Merge.m_text m)%string.

Definition titled_run : option (outcome unit * world) :=
  transcribe_video "videos" "tmp" "transcriptions" 30 "small" "quality"
    true 8 PyStr.decimal_float verify_passes extract_ok ninety_seconds
    sample_silence cut_ok sample_whisper 12 render_titled render_nothing
    render_nothing DownloadSpec.sample_hearing downloaded_world.

End TranscriptionRunSpec.

(** ** Job scheduler: the queries of [process_hearings] *)

Module Selection.
Import Store.
Local Open Scope Q_scope.

(** SQL's three-valued logic; [None] is unknown. *)
Definition sql_and (a b : option bool) : option bool :=
  match a, b with
  | Some false, _ => Some false
  | _, Some false => Some false
  | Some true, Some true => Some true
  | _, _ => None
  end.

Definition sql_or (a b : option bool) : option bool :=
  match a, b with
  | Some true, _ => Some true
  | _, Some true => Some true
  | Some false, Some false => Some false
  | _, _ => None
  end.

Definition sql_not (a : option bool) : option bool := option_map negb a.

(** [col = 'value'], [col < bound] and [col < t]: a comparison with [NULL]
    is unknown, and so is one with a column the row does not have or whose
    value has another type. *)
Definition text_is (r : row) (col value : string) : option bool :=
  match r !! col with
  | Some (SqlText s) => Some (String.eqb s value)
  | _ => None
  end.

Definition int_below (r : row) (col : string) (bound : Z) : option bool :=
  match r !! col with
  | Some (SqlInt n) => Some (n <? bound)%Z
  | _ => None
  end.

Definition time_before (r : row) (col : string) (t : Q) : option bool :=
  match r !! col with
  | Some (SqlTime u) => Some (Qltb u t)
  | _ => None
  end.

(** [WHERE] keeps the rows for which the condition is true. *)
Definition holds (condition : option bool) : bool :=
  match condition with Some true => true | _ => false end.

(** The [WHERE] clause of the query for the videos to download, at time
    [now] in seconds:
    [download_status = 'pending'
     OR (download_status = 'failed'
         AND (retry_count < 3 OR transcription_status != 'completed'))
     OR (download_status = 'downloading'
         AND updated_at < NOW() - INTERVAL '30 minutes')]. *)
Definition needs_download (now : Q) (r : row) : bool :=
  holds
    (sql_or
       (sql_or
          (text_is r "download_status" "pending")
          (sql_and
             (text_is r "download_status" "failed")
             (sql_or
                (int_below r "retry_count" 3)
                (sql_not (text_is r "transcription_status" "completed")))))
       (sql_and
          (text_is r "download_status" "downloading")
          (time_before r "updated_at" (now - 1800)))).

(** The [WHERE] clause of the query for the videos to transcribe:
    [download_status = 'completed' AND transcription_status = 'pending']. *)
Definition needs_transcription (r : row) : bool :=
  holds
    (sql_and
       (text_is r "download_status" "completed")
       (text_is r "transcription_status" "pending")).

(** The columns [transcribe_video] writes. *)
Definition transcription_columns : list string :=
  ["transcription_status"; "transcription_started_at"; "transcription_text";
   "transcription_json"; "transcription_completed_at"].

End Selection.

(** * Properties *)

(** ** Boolean comparisons reflect the order on rationals *)

Lemma Qltb_lt x y : Qltb x y = true <-> (x < y)%Q.
Proof.
  unfold Qltb. destruct (Qcompare_spec x y); split; intros; try congruence; lra.
Qed.

Lemma Qltb_ge x y : Qltb x y = false <-> (y <= x)%Q.
Proof.
  unfold Qltb. destruct (Qcompare_spec x y); split; intros; try congruence; lra.
Qed.

Lemma Qleb_le x y : Qleb x y = true <-> (x <= y)%Q.
Proof.
  unfold Qleb. destruct (Qcompare_spec x y); split; intros; try congruence; lra.
Qed.

Lemma Qleb_gt x y : Qleb x y = false <-> (y < x)%Q.
Proof.
  unfold Qleb. destruct (Qcompare_spec x y); split; intros; try congruence; lra.
Qed.

(** ** The split point of one planning step *)

Module PlannerFacts.
Import Planner PlannerSpec.
Local Open Scope Q_scope.

Lemma in_window_test s t e :
  Qltb s e && Qleb e (t + 5) = true <-> in_window s t e.
Proof.
  unfold in_window. rewrite andb_true_iff, Qltb_lt, Qleb_le. tauto.
Qed.

Lemma recorded_ends_snoc l p :
  recorded_ends (l ++ [p]) =
  recorded_ends l ++ match sil_end p with Some e => [e] | None => [] end.
Proof.
  unfold recorded_ends. rewrite omap_app. simpl.
  destruct (sil_end p); reflexivity.
Qed.

Lemma scan_silence_scanned s t seen st p :
  scanned s t (recorded_ends seen) st ->
  scanned s t (recorded_ends (seen ++ [p])) (scan_silence s t st p).
Proof.
  intros Hst. rewrite recorded_ends_snoc. unfold scan_silence.
  destruct (sil_end p) as [e|]; [|rewrite app_nil_r; exact Hst].
  destruct (Qltb s e && Qleb e (t + 5)) eqn:Hwin.
  - apply in_window_test in Hwin.
    destruct st as [[d|] b]; unfold scanned in *; cbn [fst snd below] in *.
    + destruct Hst as (Hin & Hb & Hd & Hmin).
      destruct (Qltb (Qabs (e - t)) d) eqn:Hlt; cbn [fst snd].
      * apply Qltb_lt in Hlt. subst d.
        refine (conj _ (conj Hwin (conj eq_refl _))).
        { apply in_or_app; right; left; reflexivity. }
        intros e' [He'|[<-|[]]]%in_app_or Hw'; [|lra].
        specialize (Hmin e' He' Hw'). lra.
      * apply Qltb_ge in Hlt. subst d.
        refine (conj _ (conj Hb (conj eq_refl _))).
        { apply in_or_app; left; exact Hin. }
        intros e' [He'|[<-|[]]]%in_app_or Hw'; [auto|lra].
    + destruct Hst as [-> Hnone].
      refine (conj _ (conj Hwin (conj eq_refl _))).
      { apply in_or_app; right; left; reflexivity. }
      intros e' [He'|[<-|[]]]%in_app_or Hw'; [|lra].
      destruct (Hnone e' He' Hw').
  - assert (~ in_window s t e) as Hout
        by (rewrite <- in_window_test, Hwin; discriminate).
    destruct st as [[d|] b]; unfold scanned in *; cbn [fst snd] in *.
    + destruct Hst as (Hin & Hb & Hd & Hmin).
      refine (conj _ (conj Hb (conj Hd _))).
      { apply in_or_app; left; exact Hin. }
      intros e' [He'|[<-|[]]]%in_app_or Hw'; [auto|contradiction].
    + destruct Hst as [-> Hnone]. split; [reflexivity|].
      intros e' [He'|[<-|[]]]%in_app_or; [auto|exact Hout].
Qed.

Lemma fold_scanned s t rest : forall seen st,
  scanned s t (recorded_ends seen) st ->
  scanned s t (recorded_ends (seen ++ rest))
    (fold_left (scan_silence s t) rest st).
Proof.
  induction rest as [|p rest IH]; intros seen st Hst; simpl.
  - rewrite app_nil_r. exact Hst.
  - replace (seen ++ p :: rest) with ((seen ++ [p]) ++ rest)
      by (rewrite <- app_assoc; reflexivity).
    apply IH, scan_silence_scanned, Hst.
Qed.

Lemma find_best_split_scanned sils s t :
  scanned s t (recorded_ends sils)
    (fold_left (scan_silence s t) sils (None, t)).
Proof.
  apply (fold_scanned s t sils [] (None, t)).
  split; [reflexivity|]. intros e [].
Qed.

(** Either the raw target (no eligible end) or an eligible recorded end
    nearest to the target. *)
Lemma find_best_split_cases sils s t :
  (find_best_split sils s t = t /\
   forall e, In e (recorded_ends sils) -> ~ in_window s t e) \/
  (In (find_best_split sils s t) (recorded_ends sils) /\
   in_window s t (find_best_split sils s t) /\
   forall e, In e (recorded_ends sils) -> in_window s t e ->
             Qabs (find_best_split sils s t - t) <= Qabs (e - t)).
Proof.
  unfold find_best_split.
  pose proof (find_best_split_scanned sils s t) as H.
  unfold scanned in H.
  destruct (fold_left (scan_silence s t) sils (None, t)) as [[d|] b];
    simpl in *.
  - right. tauto.
  - left. tauto.
Qed.

(** ** Progress and termination of the planning loop *)

Section termination.
Variable temp_dir : string.
Variable chunk_duration : Q.
Variable ffmpeg_cut : Q -> Q -> string -> bool * option string.
Hypothesis chunk_duration_pos : 0 < chunk_duration.

Variable duration : Q.
Variable silence_periods : list silence_period.
Variable hearing_id : string.

Local Abbreviation next_split :=
  (next_split chunk_duration duration silence_periods).
Local Abbreviation pending := (pending silence_periods).
Local Abbreviation hard_steps := (hard_steps chunk_duration duration).

Lemma target_end_cases cs :
  (cs + chunk_duration < duration /\
   target_end_of chunk_duration duration cs == cs + chunk_duration) \/
  (duration <= cs + chunk_duration /\
   target_end_of chunk_duration duration cs == duration).
Proof. unfold target_end_of. apply Q.min_spec. Qed.

Lemma split_progress cs : cs < duration -> cs < next_split cs.
Proof.
  intros Hlt. unfold next_split.
  destruct (find_best_split_cases silence_periods cs
              (target_end_of chunk_duration duration cs))
    as [[-> _]|(_ & [Hw _] & _)]; [|exact Hw].
  destruct (target_end_cases cs) as [[_ ->]|[_ ->]]; lra.
Qed.

Lemma filter_length_le {A} (f g : A -> bool) (l : list A) :
  (forall x, f x = true -> g x = true) ->
  (length (List.filter f l) <= length (List.filter g l))%nat.
Proof.
  intros Hfg. induction l as [|x l IH]; simpl; [lia|].
  destruct (f x) eqn:Hf.
  - rewrite (Hfg x Hf). simpl. lia.
  - destruct (g x); simpl; lia.
Qed.

Lemma filter_length_lt {A} (f g : A -> bool) (l : list A) x :
  (forall y, f y = true -> g y = true) ->
  In x l -> f x = false -> g x = true ->
  (length (List.filter f l) < length (List.filter g l))%nat.
Proof.
  intros Hfg. induction l as [|y l IH]; simpl; [tauto|].
  intros [->|Hin] Hf Hg.
  - rewrite Hf, Hg. simpl.
    pose proof (filter_length_le f g l Hfg). lia.
  - specialize (IH Hin Hf Hg). destruct (f y) eqn:Hfy.
    + rewrite (Hfg y Hfy). simpl. lia.
    + destruct (g y); simpl; lia.
Qed.

Lemma ahead_mono cs cs' p : cs <= cs' -> ahead cs' p = true -> ahead cs p = true.
Proof.
  unfold ahead. destruct (sil_end p); [|discriminate].
  rewrite !Qltb_lt. lra.
Qed.

Lemma pending_mono cs cs' : cs <= cs' -> (pending cs' <= pending cs)%nat.
Proof. intros H. apply filter_length_le. intros p. apply ahead_mono, H. Qed.

Lemma pending_consumed cs e :
  cs < e -> In e (recorded_ends silence_periods) ->
  (pending e < pending cs)%nat.
Proof.
  intros Hlt Hin. unfold recorded_ends in Hin.
  apply list_elem_of_In, list_elem_of_omap in Hin as (p & Hp & Hend).
  apply list_elem_of_In in Hp.
  apply (filter_length_lt (ahead e) (ahead cs) silence_periods p).
  - intros q. apply ahead_mono. lra.
  - exact Hp.
  - unfold ahead. rewrite Hend. apply Qltb_ge. lra.
  - unfold ahead. rewrite Hend. apply Qltb_lt, Hlt.
Qed.

Lemma Qdiv_le_compat a b : a <= b -> a / chunk_duration <= b / chunk_duration.
Proof.
  intros Hab. unfold Qdiv. apply Qmult_le_compat_r; [exact Hab|].
  apply Qlt_le_weak, Qinv_lt_0_compat, chunk_duration_pos.
Qed.

Lemma Qdiv_pos a : 0 < a -> 0 < a / chunk_duration.
Proof.
  intros Ha. unfold Qdiv. apply Qmult_lt_0_compat; [exact Ha|].
  apply Qinv_lt_0_compat, chunk_duration_pos.
Qed.

Lemma Qceiling_pos y : 0 < y -> (0 < Qceiling y)%Z.
Proof.
  intros Hy. pose proof (Qle_ceiling y) as H.
  rewrite Zlt_Qlt. change (inject_Z 0) with 0. lra.
Qed.

Lemma Qceiling_shift x y :
  x == y + 1 -> 0 < y ->
  (Z.to_nat (Qceiling y) + 1 <= Z.to_nat (Qceiling x))%nat.
Proof.
  intros Hx Hy.
  pose proof (Qceiling_lt y) as H1.
  pose proof (Qle_ceiling x) as H2.
  pose proof (Qceiling_pos y Hy) as H3.
  assert (forall z, inject_Z (z - 1) == inject_Z z - 1) as E.
  { intros z. unfold Z.sub. rewrite inject_Z_plus. reflexivity. }
  assert (inject_Z (Qceiling y - 1) < inject_Z (Qceiling x - 1)) as H4.
  { rewrite E in H1. rewrite !E. lra. }
  rewrite <- Zlt_Qlt in H4. lia.
Qed.

Lemma hard_steps_mono cs cs' :
  cs <= cs' -> (hard_steps cs' <= hard_steps cs)%nat.
Proof.
  intros H. unfold hard_steps.
  assert (Qceiling ((duration - cs') / chunk_duration)
          <= Qceiling ((duration - cs) / chunk_duration))%Z
    by (apply Qceiling_resp_le, Qdiv_le_compat; lra).
  lia.
Qed.

Lemma hard_steps_pos cs : cs < duration -> (0 < hard_steps cs)%nat.
Proof.
  intros H. unfold hard_steps.
  assert (0 < Qceiling ((duration - cs) / chunk_duration))%Z
    by (apply Qceiling_pos, Qdiv_pos; lra).
  lia.
Qed.

Lemma hard_steps_full_step cs cs' :
  cs' == cs + chunk_duration -> cs' < duration ->
  (hard_steps cs' + 1 <= hard_steps cs)%nat.
Proof.
  intros Hstep Hlt. unfold hard_steps. apply Qceiling_shift.
  - rewrite Hstep. field. lra.
  - apply Qdiv_pos. lra.
Qed.

(** The measure strictly decreases along an iteration that does not
    reach [duration]. *)
Lemma measure_decreases cs :
  cs < duration -> next_split cs < duration ->
  (pending (next_split cs) + hard_steps (next_split cs)
   < pending cs + hard_steps cs)%nat.
Proof.
  intros Hcs Hnext. pose proof (split_progress cs Hcs) as Hprog.
  unfold next_split in *.
  destruct (find_best_split_cases silence_periods cs
              (target_end_of chunk_duration duration cs))
    as [[Heq _]|(Hin & [Hw _] & _)].
  - rewrite Heq in *.
    destruct (target_end_cases cs) as [[_ Ht]|[_ Ht]]; [|lra].
    pose proof (hard_steps_full_step cs _ Ht Hnext).
    pose proof (pending_mono cs
                  (target_end_of chunk_duration duration cs)
                  ltac:(lra)).
    lia.
  - pose proof (pending_consumed cs _ Hw Hin).
    pose proof (hard_steps_mono cs
                  (find_best_split silence_periods cs
                     (target_end_of chunk_duration duration cs))
                  ltac:(lra)).
    lia.
Qed.

Local Abbreviation loop := (plan_loop temp_dir chunk_duration ffmpeg_cut).

Lemma plan_loop_fuel_enough fuel : forall cs n chunks fs,
  (0 < fuel)%nat ->
  (cs < duration -> (pending cs + hard_steps cs < fuel)%nat) ->
  is_Some (loop fuel duration silence_periods hearing_id cs n chunks fs).
Proof.
  induction fuel as [|fuel IH]; intros cs n chunks fs Hpos Hfuel; [lia|].
  cbn [plan_loop].
  destruct (Qltb cs duration) eqn:Hcs; [|eexists; reflexivity].
  apply Qltb_lt in Hcs. specialize (Hfuel Hcs).
  pose proof (hard_steps_pos cs Hcs) as Hhard.
  pose proof (measure_decreases cs Hcs) as Hdec. unfold next_split in Hdec.
  destruct (Qltb (1 # 2) _); [destruct (fst (ffmpeg_cut _ _ _))|];
    try (eexists; reflexivity);
    (apply IH; [lia|intros Hlt; specialize (Hdec Hlt); lia]).
Qed.

Lemma plan_loop_fuel_mono fuel : forall fuel' cs n chunks fs r,
  loop fuel duration silence_periods hearing_id cs n chunks fs = Some r ->
  (fuel <= fuel')%nat ->
  loop fuel' duration silence_periods hearing_id cs n chunks fs = Some r.
Proof.
  induction fuel as [|fuel IH]; intros fuel' cs n chunks fs r Hrun Hle;
    [discriminate|].
  destruct fuel' as [|fuel']; [lia|].
  cbn [plan_loop] in *.
  destruct (Qltb cs duration); [|exact Hrun].
  destruct (Qltb (1 # 2) _); [destruct (fst (ffmpeg_cut _ _ _))|];
    try exact Hrun; (apply IH; [exact Hrun|lia]).
Qed.

Lemma plan_fuel_enough :
  (pending 0 + hard_steps 0
   < plan_fuel chunk_duration duration silence_periods)%nat.
Proof.
  unfold plan_fuel, pending, hard_steps.
  pose proof (List.filter_length_le (ahead 0) silence_periods) as Hle.
  assert ((duration - 0) / chunk_duration == duration / chunk_duration)
    as -> by (field; lra).
  lia.
Qed.

Lemma plan_chunks_returns fs :
  is_Some (plan_chunks temp_dir chunk_duration ffmpeg_cut duration
             silence_periods hearing_id fs).
Proof.
  apply plan_loop_fuel_enough; [unfold plan_fuel; lia|].
  intros _. apply plan_fuel_enough.
Qed.
End termination.

(** ** Planning without silence data *)

Lemma tiles_from_eq a a' chunks b : a == a' -> tiles a chunks b -> tiles a' chunks b.
Proof.
  intros Ha. destruct chunks as [|c rest]; simpl.
  - intros H. rewrite <- Ha. exact H.
  - intros (H1 & H2 & H3). rewrite <- Ha. auto.
Qed.

Section no_silence.
Variable temp_dir : string.
Variable chunk_duration : Q.
Variable ffmpeg_cut : Q -> Q -> string -> bool * option string.
Hypothesis chunk_duration_big : 1 # 2 < chunk_duration.
Hypothesis ffmpeg_cut_ok : forall s d p, fst (ffmpeg_cut s d p) = true.

Variable duration : Q.
Variable hearing_id : string.

Local Abbreviation loop := (plan_loop temp_dir chunk_duration ffmpeg_cut).
Local Abbreviation emitted_ok := (emitted_ok temp_dir chunk_duration hearing_id).

Lemma no_silence_run fuel : forall cs n chunks fs r,
  loop fuel duration [] hearing_id cs n chunks fs = Some r ->
  exists new E,
    fst r = Ok (chunks ++ new) /\ tiles cs new E /\
    Forall emitted_ok new /\
    (forall (i : nat) c, new !! i = Some c -> c_index c = (n + Z.of_nat i)%Z) /\
    (cs < duration -> E <= duration /\ duration - E <= 1 # 2) /\
    (duration <= cs -> new = [] /\ E == cs).
Proof.
  induction fuel as [|fuel IH]; intros cs n chunks fs r Hrun; [discriminate|].
  cbn [plan_loop] in Hrun.
  change (find_best_split [] cs (target_end_of chunk_duration duration cs))
    with (target_end_of chunk_duration duration cs) in Hrun.
  destruct (Qltb cs duration) eqn:Hcs.
  - apply Qltb_lt in Hcs.
    assert (0 < chunk_duration) as Hpos by lra.
    pose proof (target_end_cases chunk_duration duration cs) as Hte.
    set (b := target_end_of chunk_duration duration cs) in *.
    assert (b <= duration /\ b <= cs + chunk_duration /\
            (b == duration \/ b == cs + chunk_duration)) as (Hb1 & Hb2 & Hb3)
      by (destruct Hte as [[? ?]|[? ?]]; repeat split; auto; lra).
    clear Hte.
    destruct (Qltb (1 # 2) (b - cs)) eqn:Hdur.
    + apply Qltb_lt in Hdur. rewrite ffmpeg_cut_ok in Hrun.
      apply IH in Hrun as (new & E & Hr & Htiles & Hok & Hidx & HE1 & HE2).
      exists (mk_chunk (chunk_file temp_dir hearing_id n) cs (b - cs) n :: new), E.
      split; [rewrite Hr, <- app_assoc; reflexivity|].
      split; [|split; [|split; [|split]]].
      * cbn [tiles c_start c_duration]. split; [reflexivity|].
        split; [lra|]. apply (tiles_from_eq b); [ring|exact Htiles].
      * constructor; [|exact Hok]. unfold PlannerSpec.emitted_ok; cbn.
        split; [lra|]. split; [lra|reflexivity].
      * intros [|i] c; cbn.
        -- intros [= <-]. cbn. lia.
        -- intros Hc. rewrite (Hidx i c Hc). lia.
      * intros _. destruct (Qlt_le_dec b duration) as [Hlt|Hge].
        -- apply HE1, Hlt.
        -- destruct (HE2 Hge) as [_ HE]. lra.
      * lra.
    + apply Qltb_ge in Hdur.
      apply IH in Hrun as (new & E & Hr & Htiles & Hok & Hidx & HE1 & HE2).
      assert (b == duration) as Hb by (destruct Hb3; lra).
      destruct HE2 as [-> HE]; [lra|].
      exists [], cs. split; [exact Hr|].
      split; [cbn; reflexivity|]. split; [constructor|].
      split; [intros i c; rewrite lookup_nil; discriminate|].
      split; [intros _; lra|lra].
  - apply Qltb_ge in Hcs. injection Hrun as <-.
    exists [], cs. split; [rewrite app_nil_r; reflexivity|].
    split; [cbn; reflexivity|]. split; [constructor|].
    split; [intros i c; rewrite lookup_nil; discriminate|].
    split; [lra|]. intros _. split; reflexivity.
Qed.
End no_silence.

(** ** The planner's contract *)

(** One iteration of the loop from [s < duration]: the next iteration starts
    at the split point [next_split]. *)
Lemma plan_loop_step temp_dir chunk_duration ffmpeg_cut fuel duration sils hid
    s n chunks fs :
  s < duration ->
  let b := next_split chunk_duration duration sils s in
  let cut := ffmpeg_cut s (b - s) (chunk_file temp_dir hid n) in
  let fs' := write_output fs (chunk_file temp_dir hid n) (snd cut) in
  plan_loop temp_dir chunk_duration ffmpeg_cut (S fuel) duration sils hid
    s n chunks fs =
  if Qltb (1 # 2) (b - s) then
    if fst cut then
      plan_loop temp_dir chunk_duration ffmpeg_cut fuel duration sils hid b
        (n + 1)%Z (chunks ++ [mk_chunk (chunk_file temp_dir hid n) s (b - s) n])
        fs'
    else Some (Raised "CalledProcessError", fs')
  else
    plan_loop temp_dir chunk_duration ffmpeg_cut fuel duration sils hid b
      n chunks fs.
Proof.
  intros Hs b cut fs'. cbn [plan_loop].
  apply Qltb_lt in Hs. rewrite Hs. reflexivity.
Qed.







End PlannerFacts.

(** ** The silence parser against its specification *)

Module ParserFacts.
Import Planner PlannerSpec PlannerFacts.
Local Open Scope Q_scope.

Lemma usable_snoc l p :
  usable (l ++ [p]) =
  usable l ++ match sil_end p with
              | Some e => [(sil_start p, e)]
              | None => []
              end.
Proof.
  unfold usable. rewrite omap_app. cbn. destruct (sil_end p); reflexivity.
Qed.

Lemma open_start_snoc l p :
  open_start (l ++ [p]) =
  match sil_end p with None => Some (sil_start p) | Some _ => None end.
Proof. unfold open_start. rewrite last_snoc. reflexivity. Qed.

Lemma last_is_open_spec l :
  last_is_open l = true <->
  exists l' s, l = l' ++ [mk_silence s None].
Proof.
  unfold last_is_open. split.
  - destruct (last l) as [p|] eqn:Hlast; [|discriminate].
    apply last_Some in Hlast as [l' ->].
    destruct p as [s [e|]]; cbn; [discriminate|]. eauto.
  - intros (l' & s & ->). rewrite last_snoc. reflexivity.
Qed.

Lemma last_is_open_false l : last_is_open l = false -> open_start l = None.
Proof.
  unfold last_is_open, open_start. destruct (last l) as [p|]; [|reflexivity].
  destruct (sil_end p); [reflexivity|discriminate].
Qed.

Lemma set_last_end_snoc l p e :
  set_last_end (l ++ [p]) e = l ++ [mk_silence (sil_start p) (Some e)].
Proof.
  induction l as [|q l IH]; [reflexivity|].
  cbn [app set_last_end]. rewrite IH.
  destruct (l ++ [p]) eqn:Hl; [destruct l; discriminate|reflexivity].
Qed.

Section refinement.
Variable py_float : string -> option Q.

(** The parser's list-with-update representation carries exactly the
    intervals of the specification, with the open start as its state. *)
Lemma parse_lines_matched lines : forall sils sils',
  parse_lines py_float sils lines = Ok sils' ->
  usable sils' = usable sils ++ matched py_float (open_start sils) lines.
Proof.
  induction lines as [|line rest IH]; intros sils sils' Hparse.
  - injection Hparse as <-. cbn. rewrite app_nil_r. reflexivity.
  - cbn [parse_lines matched] in *. unfold parse_line in Hparse.
    unfold is_start_line, is_end_line.
    destruct (PyStr.contains "silence_start:" line).
    + destruct (marker_value py_float "silence_start: " line) as [start|];
        [|discriminate].
      rewrite (IH _ _ Hparse), usable_snoc, open_start_snoc. cbn.
      rewrite app_nil_r. reflexivity.
    + cbn [negb andb].
      destruct (PyStr.contains "silence_end:" line); cbn [andb] in *;
        [|apply IH, Hparse].
      destruct (last_is_open sils) eqn:Hopen.
      * destruct (marker_value py_float "silence_end: " line) as [e|];
          [|discriminate].
        apply last_is_open_spec in Hopen as (l' & s & ->).
        rewrite (IH _ _ Hparse), set_last_end_snoc, !usable_snoc,
          !open_start_snoc.
        cbn. rewrite app_nil_r, <- app_assoc. reflexivity.
      * rewrite (IH _ _ Hparse), (last_is_open_false _ Hopen).
        destruct (value_of (marker_value py_float "silence_end: " line));
          reflexivity.
Qed.

(** Lines without an end marker produce no interval, whatever is open. *)
Lemma matched_no_end lines : forall open,
  Forall (fun l => is_end_line l = false) lines ->
  matched py_float open lines = [].
Proof.
  induction lines as [|line rest IH]; intros open Hno; [reflexivity|].
  inversion Hno as [|? ? Hline Hrest]; subst. cbn [matched].
  rewrite Hline. destruct (is_start_line line); apply IH, Hrest.
Qed.

Lemma matched_app_no_end pre post : forall open,
  Forall (fun l => is_end_line l = false) post ->
  matched py_float open (pre ++ post) = matched py_float open pre.
Proof.
  induction pre as [|line pre IH]; intros open Hno.
  - cbn [app]. rewrite matched_no_end by exact Hno.
    reflexivity.
  - cbn [app matched].
    destruct (is_start_line line); [apply IH, Hno|].
    destruct (is_end_line line); [|apply IH, Hno].
    destruct open,
      (value_of (marker_value py_float "silence_end: " line));
      rewrite IH by exact Hno; reflexivity.
Qed.
End refinement.

(** The planner reads only the recorded ends. *)
Lemma scan_only_usable s t sils : forall st,
  fold_left (scan_silence s t) sils st =
  fold_left (scan_silence s t) (closed (usable sils)) st.
Proof.
  induction sils as [|[s0 [e|]] sils IH]; intros st; [reflexivity| |].
  - change (closed (usable (mk_silence s0 (Some e) :: sils)))
      with (mk_silence s0 (Some e) :: closed (usable sils)).
    cbn [fold_left]. apply IH.
  - change (closed (usable (mk_silence s0 None :: sils)))
      with (closed (usable sils)).
    cbn [fold_left]. apply IH.
Qed.

Lemma find_best_split_only_usable sils s t :
  find_best_split sils s t = find_best_split (closed (usable sils)) s t.
Proof. unfold find_best_split. rewrite scan_only_usable. reflexivity. Qed.

Lemma plan_loop_same_splits temp_dir L cut D sils sils' hid :
  (forall s t, find_best_split sils s t = find_best_split sils' s t) ->
  forall fuel cs n chunks fs,
    plan_loop temp_dir L cut fuel D sils hid cs n chunks fs =
    plan_loop temp_dir L cut fuel D sils' hid cs n chunks fs.
Proof.
  intros Hsame. induction fuel as [|fuel IH]; intros cs n chunks fs;
    [reflexivity|].
  cbn [plan_loop]. rewrite <- Hsame.
  destruct (Qltb cs D); [|reflexivity].
  destruct (Qltb (1 # 2) _); [destruct (fst (cut _ _ _))|];
    try reflexivity; apply IH.
Qed.

Lemma plan_chunks_same_splits temp_dir L cut D sils sils' hid fs :
  0 < L ->
  (forall s t, find_best_split sils s t = find_best_split sils' s t) ->
  plan_chunks temp_dir L cut D sils hid fs =
  plan_chunks temp_dir L cut D sils' hid fs.
Proof.
  intros HL Hsame.
  destruct (plan_chunks_returns temp_dir L cut HL D sils hid fs) as [r Hr].
  destruct (plan_chunks_returns temp_dir L cut HL D sils' hid fs)
    as [r' Hr'].
  rewrite Hr, Hr'. unfold plan_chunks in *.
  set (f := plan_fuel L D sils) in *. set (f' := plan_fuel L D sils') in *.
  apply (plan_loop_fuel_mono temp_dir L cut D sils hid f (Nat.max f f'))
    in Hr; [|lia].
  apply (plan_loop_fuel_mono temp_dir L cut D sils' hid f' (Nat.max f f'))
    in Hr'; [|lia].
  rewrite (plan_loop_same_splits temp_dir L cut D sils sils' hid Hsame) in Hr.
  congruence.
Qed.

Lemma recorded_ends_usable sils : recorded_ends sils = map snd (usable sils).
Proof.
  induction sils as [|[s0 [e|]] sils IH]; [reflexivity| |].
  - change (recorded_ends (mk_silence s0 (Some e) :: sils))
      with (e :: recorded_ends sils).
    change (usable (mk_silence s0 (Some e) :: sils))
      with ((s0, e) :: usable sils).
    cbn [map snd]. rewrite IH. reflexivity.
  - exact IH.
Qed.

(** C8. Whenever the parse of the detector's output succeeds, the entries
    usable for planning (those with an end) are exactly the intervals for
    which a start marker and then an end marker were observed; a start
    marker after which no end marker follows contributes nothing; and the
    planner's split points and chunks are those computed from the usable
    intervals alone. *)
Theorem silence_needs_both_markers py_float stderr sils :
  parse_silence py_float stderr = Ok sils ->
  usable sils = matched py_float None (PyStr.split PyStr.nl stderr) /\
  (forall pre line post,
     PyStr.split PyStr.nl stderr = pre ++ line :: post ->
     is_start_line line = true ->
     Forall (fun l => is_end_line l = false) post ->
     usable sils = matched py_float None pre) /\
  recorded_ends sils = map snd (usable sils) /\
  (forall s t,
     find_best_split sils s t = find_best_split (closed (usable sils)) s t) /\
  (forall temp_dir L cut D hid fs, 0 < L ->
     plan_chunks temp_dir L cut D sils hid fs =
     plan_chunks temp_dir L cut D (closed (usable sils)) hid fs).
Proof.
  intros Hparse. unfold parse_silence in Hparse.
  pose proof (parse_lines_matched py_float _ _ _ Hparse) as Husable.
  cbn [usable omap app] in Husable.
  change (open_start []) with (@None Q) in Husable.
  split; [exact Husable|]. split; [|split; [|split]].
  - intros pre line post Hsplit Hstart Hpost.
    rewrite Husable, Hsplit. apply matched_app_no_end.
    constructor; [|exact Hpost].
    unfold is_end_line. unfold is_start_line in Hstart. rewrite Hstart.
    reflexivity.
  - apply recorded_ends_usable.
  - apply find_best_split_only_usable.
  - intros temp_dir L cut D hid fs HL.
    apply plan_chunks_same_splits; [exact HL|].
    apply find_best_split_only_usable.
Qed.

Lemma silence_needs_both_markers_witness :
  exists sils,
    parse_silence PyStr.decimal_float sample_stderr = Ok sils /\
    usable sils = [(295 # 10, 31)] /\
    usable sils =
    matched PyStr.decimal_float None (PyStr.split PyStr.nl sample_stderr).
Proof.
  eexists. split; [vm_compute; reflexivity|].
  split; [vm_compute; reflexivity|].
  apply (silence_needs_both_markers PyStr.decimal_float sample_stderr).
  vm_compute. reflexivity.
Defined.

End ParserFacts.

(** ** Stable sorting by a key *)

Module SortFacts.
Import Merge MergeSpec.

Section sort_facts.
Context {A K : Type}.
Variable key : A -> K.
Variable ltb : K -> K -> bool.
Hypothesis ltb_asym : forall x y, ltb x y = true -> ltb y x = false.
Hypothesis ltb_ntrans :
  forall x y z, ltb x y = false -> ltb y z = false -> ltb x z = false.

Local Abbreviation le := (key_le key ltb).
Local Abbreviation is_key := (key_is key ltb).

Lemma insert_by_perm x l : Permutation (insert_by key ltb x l) (x :: l).
Proof.
  induction l as [|y l IH]; cbn [insert_by]; [reflexivity|].
  destruct (ltb (key y) (key x)); [|reflexivity].
  rewrite IH. apply perm_swap.
Qed.

Lemma sort_by_perm l : Permutation (sort_by key ltb l) l.
Proof.
  induction l as [|x l IH]; cbn [sort_by]; [reflexivity|].
  rewrite insert_by_perm, IH. reflexivity.
Qed.

Lemma insert_by_sorted x l :
  StronglySorted le l -> StronglySorted le (insert_by key ltb x l).
Proof.
  induction 1 as [|y l Hsorted IH Hall]; cbn [insert_by].
  - repeat constructor.
  - destruct (ltb (key y) (key x)) eqn:Hyx.
    + constructor; [exact IH|].
      rewrite insert_by_perm. constructor; [|exact Hall].
      apply ltb_asym, Hyx.
    + constructor; [constructor; assumption|].
      constructor; [exact Hyx|].
      eapply Forall_impl; [exact Hall|]. intros z Hz.
      unfold key_le in *. eapply ltb_ntrans; eassumption.
Qed.

Lemma sort_by_sorted l : StronglySorted le (sort_by key ltb l).
Proof.
  induction l as [|x l IH]; cbn [sort_by]; [constructor|].
  apply insert_by_sorted, IH.
Qed.

(** Stability: among the elements of one key, insertion puts the new
    element first and sorting keeps the input order. *)
Lemma insert_by_stable k x l :
  List.filter (is_key k) (insert_by key ltb x l) =
  List.filter (is_key k) (x :: l).
Proof.
  induction l as [|y l IH]; cbn [insert_by]; [reflexivity|].
  destruct (ltb (key y) (key x)) eqn:Hyx; [|reflexivity].
  cbn [List.filter] in *. rewrite IH.
  destruct (is_key k y) eqn:Hy; [|reflexivity].
  destruct (is_key k x) eqn:Hx; [|reflexivity].
  unfold key_is in *.
  apply andb_true_iff in Hy as [Hy1 Hy2], Hx as [Hx1 Hx2].
  apply negb_true_iff in Hy1, Hy2, Hx1, Hx2.
  rewrite (ltb_ntrans _ _ _ Hy1 Hx2) in Hyx. discriminate.
Qed.

Lemma sort_by_stable k l :
  List.filter (is_key k) (sort_by key ltb l) = List.filter (is_key k) l.
Proof.
  induction l as [|x l IH]; cbn [sort_by]; [reflexivity|].
  rewrite insert_by_stable. cbn [List.filter]. rewrite IH. reflexivity.
Qed.
End sort_facts.

(** Two sorted arrangements of the same elements coincide when the order
    is antisymmetric on them. *)
Lemma sorted_unique {A} (R : A -> A -> Prop) (l1 : list A) : forall l2,
  (forall a b, In a l1 -> In b l1 -> R a b -> R b a -> a = b) ->
  StronglySorted R l1 -> StronglySorted R l2 -> Permutation l1 l2 ->
  l1 = l2.
Proof.
  induction l1 as [|a l1 IH]; intros l2 Hanti H1 H2 Hperm.
  - apply Permutation_nil in Hperm. congruence.
  - destruct l2 as [|b l2];
      [apply Permutation_sym, Permutation_nil in Hperm; discriminate|].
    apply StronglySorted_inv in H1 as [H1 Ha], H2 as [H2 Hb].
    assert (a = b) as <-.
    { assert (In a (b :: l2)) as [Heq|Hin]
        by (apply (Permutation_in _ Hperm); left; reflexivity);
        [congruence|].
      assert (In b (a :: l1)) as [Heq|Hin']
        by (apply (Permutation_in _ (Permutation_sym Hperm)); left;
            reflexivity); [congruence|].
      rewrite List.Forall_forall in Ha, Hb.
      apply Hanti; [left; reflexivity|right; exact Hin'|auto|auto]. }
    f_equal. apply IH; [|assumption|assumption|].
    + intros x y Hx Hy. apply Hanti; right; assumption.
    + eapply Permutation_cons_inv, Hperm.
Qed.

Lemma StronglySorted_impl {A} (R R' : A -> A -> Prop) (l : list A) :
  (forall a b, R a b -> R' a b) -> StronglySorted R l -> StronglySorted R' l.
Proof.
  intros Himpl. induction 1 as [|a l Hs IH Hall]; constructor; [exact IH|].
  eapply List.Forall_impl; [|exact Hall]. intros b. apply Himpl.
Qed.

Lemma NoDup_map_inj {A B} (f : A -> B) (l : list A) a b :
  List.NoDup (map f l) -> In a l -> In b l -> f a = f b -> a = b.
Proof.
  induction l as [|x l IH]; cbn [map]; [intros _ []|].
  intros Hnd Ha Hb Hab. apply List.NoDup_cons_iff in Hnd as [Hx Hnd].
  destruct Ha as [->|Ha], Hb as [->|Hb]; auto.
  - destruct Hx. rewrite Hab. apply in_map, Hb.
  - destruct Hx. rewrite <- Hab. apply in_map, Ha.
Qed.

End SortFacts.

(** ** Stripping a join of stripped texts *)

Module PyStrFacts.
Import PyStr.

Lemma append_assoc (a b c : string) : ((a ++ b) ++ c = a ++ (b ++ c))%string.
Proof.
  induction a as [|x a IH]; [reflexivity|].
  change ((String x ((a ++ b) ++ c)) = String x (a ++ (b ++ c)))%string.
  rewrite IH. reflexivity.
Qed.

Lemma append_empty_r (a : string) : (a ++ EmptyString)%string = a.
Proof.
  induction a as [|x a IH]; [reflexivity|].
  change (String x (a ++ EmptyString)%string = String x a).
  rewrite IH. reflexivity.
Qed.

Lemma rstrip_length s : (String.length (rstrip s) <= String.length s)%nat.
Proof.
  induction s as [|c s IH]; cbn [rstrip String.length]; [lia|].
  destruct (rstrip s); [destruct (is_space c)|]; cbn [String.length] in *; lia.
Qed.

Lemma lstrip_length s : (String.length (lstrip s) <= String.length s)%nat.
Proof.
  induction s as [|c s IH]; cbn [lstrip String.length]; [lia|].
  destruct (is_space c); cbn [String.length]; lia.
Qed.

Lemma strip_fixed_head c s : strip (String c s) = String c s -> is_space c = false.
Proof.
  intros Hfix. destruct (is_space c) eqn:Hc; [|reflexivity].
  apply (f_equal String.length) in Hfix.
  unfold strip in Hfix. cbn [lstrip] in Hfix. rewrite Hc in Hfix.
  pose proof (rstrip_length (lstrip s)). pose proof (lstrip_length s).
  cbn [String.length] in Hfix. lia.
Qed.

Lemma strip_fixed_rstrip s : strip s = s -> rstrip s = s.
Proof.
  destruct s as [|c s]; [reflexivity|]. intros Hfix.
  pose proof (strip_fixed_head c s Hfix) as Hc.
  unfold strip in Hfix. cbn [lstrip] in Hfix. rewrite Hc in Hfix. exact Hfix.
Qed.

Lemma rstrip_app_fixed x q :
  rstrip q = q -> q <> EmptyString -> rstrip (x ++ q) = (x ++ q)%string.
Proof.
  intros Hq Hne. induction x as [|c x IH]; [exact Hq|].
  change (String c x ++ q)%string with (String c (x ++ q)).
  cbn [rstrip]. rewrite IH.
  destruct (x ++ q)%string eqn:Hxq; [|reflexivity].
  destruct x; [cbv in Hxq; congruence|discriminate].
Qed.

Lemma join_last sep parts p :
  exists x, join sep (parts ++ [p]) = (x ++ p)%string.
Proof.
  induction parts as [|q parts [x IH]].
  - exists EmptyString. reflexivity.
  - exists (q ++ sep ++ x)%string. cbn [app join].
    destruct (parts ++ [p]) eqn:Hparts; [destruct parts; discriminate|].
    rewrite IH, !append_assoc. reflexivity.
Qed.

Lemma join_first sep p parts :
  exists y, join sep (p :: parts) = (p ++ y)%string.
Proof.
  destruct parts as [|q parts].
  - exists EmptyString. cbn [join]. rewrite append_empty_r. reflexivity.
  - eexists. reflexivity.
Qed.

(** A join of non-empty texts without leading or trailing whitespace has
    none either. *)
Lemma strip_join sep parts :
  Forall (fun p => truthy p = true /\ strip p = p) parts ->
  strip (join sep parts) = join sep parts.
Proof.
  intros Hparts. destruct parts as [|p parts]; [reflexivity|].
  assert (lstrip (join sep (p :: parts)) = join sep (p :: parts)) as Hl.
  { destruct (join_first sep p parts) as [y ->].
    apply Forall_inv in Hparts as [Hp Hfix].
    destruct p as [|c p]; [discriminate|].
    change (String c p ++ y)%string with (String c (p ++ y)).
    cbn [lstrip]. rewrite (strip_fixed_head c p Hfix).
    reflexivity. }
  unfold strip. rewrite Hl.
  destruct (exists_last (l := p :: parts) ltac:(discriminate))
    as (init & q & Heq).
  rewrite Heq in *. destruct (join_last sep init q) as [x ->].
  apply Forall_app in Hparts as [_ Hq].
  apply Forall_inv in Hq as [Hq Hfix].
  apply rstrip_app_fixed; [apply strip_fixed_rstrip, Hfix|].
  intros ->. discriminate.
Qed.

End PyStrFacts.

(** ** The merge engine *)

Module MergeFacts.
Import Merge MergeSpec SortFacts.
Local Open Scope Q_scope.

Lemma Zltb_asym x y : Z.ltb x y = true -> Z.ltb y x = false.
Proof. lia. Qed.

Lemma Zltb_ntrans x y z :
  Z.ltb x y = false -> Z.ltb y z = false -> Z.ltb x z = false.
Proof. lia. Qed.

Lemma Qltb_asym x y : Qltb x y = true -> Qltb y x = false.
Proof. rewrite Qltb_lt, Qltb_ge. lra. Qed.

Lemma Qltb_ntrans x y z :
  Qltb x y = false -> Qltb y z = false -> Qltb x z = false.
Proof. rewrite !Qltb_ge. lra. Qed.

Lemma key_is_starts_at t a : key_is seg_start Qltb t a = starts_at t a.
Proof.
  unfold key_is, starts_at.
  destruct (Qeq_bool (seg_start a) t) eqn:Heq.
  - apply Qeq_bool_iff in Heq.
    assert (Qltb (seg_start a) t = false) as -> by (apply Qltb_ge; lra).
    assert (Qltb t (seg_start a) = false) as -> by (apply Qltb_ge; lra).
    reflexivity.
  - apply Qeq_bool_neq in Heq.
    destruct (Qltb (seg_start a) t) eqn:H1; [reflexivity|].
    destruct (Qltb t (seg_start a)) eqn:H2; [reflexivity|].
    apply Qltb_ge in H1, H2. destruct Heq. lra.
Qed.

Lemma fold_left_flatten l : forall acc,
  fold_left (fun acc chunk => acc ++ get_segments chunk) l acc =
  acc ++ flatten l.
Proof.
  induction l as [|c l IH]; intros acc; cbn [fold_left].
  - unfold flatten. cbn. rewrite app_nil_r. reflexivity.
  - rewrite IH. unfold flatten. cbn [map concat].
    rewrite <- app_assoc. reflexivity.
Qed.

Lemma flatten_perm l l' : Permutation l l' -> Permutation (flatten l) (flatten l').
Proof.
  unfold flatten. induction 1; cbn [map concat].
  - reflexivity.
  - apply Permutation_app_head. assumption.
  - rewrite !app_assoc. apply Permutation_app_tail, Permutation_app_comm.
  - etransitivity; eassumption.
Qed.

(** What [merge_chunks] computes from the list behind its argument. *)
Lemma merge_chunks_run h r xs :
  h !! r = Some xs ->
  merge_chunks h r =
  Some (mk_merged
          (PyStr.strip (joined_text (sort_by cr_chunk_index Z.ltb xs)))
          (sort_by seg_start Qltb
             (flatten (sort_by cr_chunk_index Z.ltb xs))),
        <[r := sort_by cr_chunk_index Z.ltb xs]> h).
Proof.
  intros Hr. unfold merge_chunks, merge_list. rewrite Hr, fold_left_flatten.
  reflexivity.
Qed.

Lemma sort_index_sorted xs :
  StronglySorted index_le (sort_by cr_chunk_index Z.ltb xs).
Proof.
  eapply StronglySorted_impl;
    [|apply (sort_by_sorted cr_chunk_index Z.ltb Zltb_asym Zltb_ntrans)].
  intros a b. unfold key_le, index_le. lia.
Qed.

Lemma sort_start_sorted segs :
  StronglySorted start_le (sort_by seg_start Qltb segs).
Proof.
  eapply StronglySorted_impl;
    [|apply (sort_by_sorted seg_start Qltb Qltb_asym Qltb_ntrans)].
  intros a b. unfold key_le, start_le. apply Qltb_ge.
Qed.

(** With pairwise distinct indices the sorted list does not depend on the
    input order. *)
Lemma sort_index_perm xs xs' :
  List.NoDup (map cr_chunk_index xs) -> Permutation xs xs' ->
  sort_by cr_chunk_index Z.ltb xs = sort_by cr_chunk_index Z.ltb xs'.
Proof.
  intros Hnd Hperm.
  apply (sorted_unique index_le);
    [|apply sort_index_sorted|apply sort_index_sorted|].
  - intros a b Ha Hb Hab Hba.
    pose proof (sort_by_perm cr_chunk_index Z.ltb xs) as Hs.
    apply (NoDup_map_inj cr_chunk_index xs); [exact Hnd| | |].
    + apply (Permutation_in _ Hs), Ha.
    + apply (Permutation_in _ Hs), Hb.
    + unfold index_le in *. lia.
  - rewrite !sort_by_perm. exact Hperm.
Qed.

Lemma sort_index_strict xs :
  List.NoDup (map cr_chunk_index xs) ->
  StronglySorted index_lt (sort_by cr_chunk_index Z.ltb xs).
Proof.
  intros Hnd.
  assert (List.NoDup (map cr_chunk_index (sort_by cr_chunk_index Z.ltb xs)))
    as Hnd'.
  { eapply Permutation_NoDup; [|exact Hnd].
    apply Permutation_map, Permutation_sym, sort_by_perm. }
  pose proof (sort_index_sorted xs) as Hsorted.
  induction Hsorted as [|a l Hsorted IH Hall]; [constructor|].
  cbn [map] in Hnd'. apply List.NoDup_cons_iff in Hnd' as [Ha Hnd'].
  constructor; [apply IH, Hnd'|].
  rewrite List.Forall_forall in *. intros b Hb.
  specialize (Hall b Hb). unfold index_le, index_lt in *.
  assert (cr_chunk_index a <> cr_chunk_index b); [|lia].
  intros Heq. apply Ha. rewrite Heq. apply in_map, Hb.
Qed.

(** C10. [merge_chunks] sorts the caller's list in place: afterwards the
    list behind the argument is in ascending [chunk_index] order and holds
    the same chunk results as before (those with equal indices in their
    former relative order); no other object on the heap changes. *)
Theorem merge_chunks_sorts_in_place (h : gmap loc (list chunk_result)) r xs :
  h !! r = Some xs ->
  exists res h' xs',
    merge_chunks h r = Some (res, h') /\
    h' !! r = Some xs' /\
    StronglySorted index_le xs' /\
    Permutation xs xs' /\
    (forall k, List.filter (key_is cr_chunk_index Z.ltb k) xs' =
               List.filter (key_is cr_chunk_index Z.ltb k) xs) /\
    (forall r', r' <> r -> h' !! r' = h !! r').
Proof.
  intros Hr. eexists _, _, (sort_by cr_chunk_index Z.ltb xs).
  split; [apply merge_chunks_run, Hr|].
  split; [apply lookup_insert_eq|].
  split; [apply sort_index_sorted|].
  split; [apply Permutation_sym, sort_by_perm|].
  split; [intros k; apply sort_by_stable, Zltb_ntrans|].
  intros r' Hne. apply lookup_insert_ne. congruence.
Qed.

Lemma merge_chunks_sorts_in_place_witness :
  exists res h' xs',
    merge_chunks {[ 1%positive := sample_results ]} 1%positive
      = Some (res, h') /\
    h' !! 1%positive = Some xs' /\
    StronglySorted index_le xs' /\
    Permutation sample_results xs'.
Proof.
  destruct (merge_chunks_sorts_in_place
              {[ 1%positive := sample_results ]} 1%positive sample_results)
    as (res & h' & xs' & H1 & H2 & H3 & H4 & _); [reflexivity|].
  exists res, h', xs'. auto.
Defined.

(** C4. Whatever the order of the chunk results, the merged segment
    sequence is sorted by non-decreasing start time, holds exactly the
    segments of all the chunks, and is stable: segments that start at the
    same time keep the relative order they have in the flattened sequence
    (the chunks' segments, chunk after chunk in index order). *)
Theorem merged_segments_sorted_stable (h : gmap loc (list chunk_result))
    r xs xs' :
  Permutation xs xs' ->
  h !! r = Some xs' ->
  exists res h',
    merge_chunks h r = Some (res, h') /\
    StronglySorted start_le (m_segments res) /\
    Permutation (m_segments res) (flatten xs) /\
    (forall t,
       List.filter (starts_at t) (m_segments res) =
       List.filter (starts_at t)
         (flatten (sort_by cr_chunk_index Z.ltb xs'))).
Proof.
  intros Hperm Hr. eexists _, _.
  split; [apply merge_chunks_run, Hr|]. cbn [m_segments].
  split; [apply sort_start_sorted|]. split.
  - rewrite sort_by_perm. apply flatten_perm.
    rewrite sort_by_perm. symmetry. exact Hperm.
  - intros t.
    rewrite <- !(List.filter_ext _ _ (key_is_starts_at t)).
    apply sort_by_stable, Qltb_ntrans.
Qed.

Lemma merged_segments_sorted_stable_witness :
  exists res h',
    merge_chunks {[ 1%positive := sample_results ]} 1%positive
      = Some (res, h') /\
    StronglySorted start_le (m_segments res) /\
    Permutation (m_segments res) (flatten (rev sample_results)) /\
    List.filter (starts_at 31) (m_segments res)
      = [mk_segment 31 32 "st"; mk_segment 31 40 "second"].
Proof.
  destruct (merged_segments_sorted_stable
              {[ 1%positive := sample_results ]} 1%positive
              (rev sample_results) sample_results)
    as (res & h' & H1 & H2 & H3 & H4);
    [apply Permutation_sym, Permutation_rev|reflexivity|].
  exists res, h'. rewrite H4. auto.
Defined.

(** C3 (amended). For chunk results with pairwise distinct indices, every
    permutation of the list yields the same full text: the
    whitespace-stripped paragraph-separated join of the non-empty texts in
    ascending index order; when no text carries leading or trailing
    whitespace, stripping changes nothing and the text is that join
    itself. *)
Theorem merged_text_order_invariant (h : gmap loc (list chunk_result))
    r xs xs' :
  h !! r = Some xs ->
  List.NoDup (map cr_chunk_index xs) ->
  Permutation xs xs' ->
  exists res h1 res' h1' ordered,
    merge_chunks h r = Some (res, h1) /\
    merge_chunks (<[r := xs']> h) r = Some (res', h1') /\
    m_text res' = m_text res /\
    Permutation ordered xs /\
    StronglySorted index_lt ordered /\
    m_text res = PyStr.strip (joined_text ordered) /\
    (Forall (fun c => PyStr.strip (cr_text c) = cr_text c) xs ->
     m_text res = joined_text ordered).
Proof.
  intros Hr Hnd Hperm.
  eexists _, _, _, _, (sort_by cr_chunk_index Z.ltb xs).
  split; [apply merge_chunks_run, Hr|].
  split; [apply merge_chunks_run, lookup_insert_eq|].
  cbn [m_text].
  split; [rewrite (sort_index_perm xs xs' Hnd Hperm); reflexivity|].
  split; [apply sort_by_perm|].
  split; [apply sort_index_strict, Hnd|].
  split; [reflexivity|].
  intros Hstripped. apply PyStrFacts.strip_join.
  apply List.Forall_forall. intros p Hp.
  apply filter_In in Hp as [Hp Htruthy]. split; [exact Htruthy|].
  apply in_map_iff in Hp as (c & <- & Hc).
  rewrite List.Forall_forall in Hstripped. apply Hstripped.
  apply (Permutation_in _ (sort_by_perm cr_chunk_index Z.ltb xs)), Hc.
Qed.

Lemma merged_text_order_invariant_witness :
  exists res h1 res' h1',
    merge_chunks {[ 1%positive := sample_results ]} 1%positive
      = Some (res, h1) /\
    merge_chunks {[ 1%positive := rev sample_results ]} 1%positive
      = Some (res', h1') /\
    m_text res' = m_text res /\
    m_text res =
    ("first" ++ PyStr.nlnl ++ "second" ++ PyStr.nlnl ++ "third")%string.
Proof.
  destruct (merged_text_order_invariant
              {[ 1%positive := sample_results ]} 1%positive
              sample_results (rev sample_results))
    as (res & h1 & res' & h1' & ordered & H1 & H2 & H3 & _);
    [reflexivity
    |repeat constructor; cbn; intuition discriminate
    |apply Permutation_rev|].
  rewrite insert_singleton_eq in H2.
  exists res, h1, res', h1'.
  split; [exact H1|]. split; [exact H2|]. split; [exact H3|].
  rewrite merge_chunks_run with (xs := sample_results) in H1
    by reflexivity.
  injection H1 as <- _. vm_compute. reflexivity.
Defined.

(** C3, as stated, fails on two counts: chunk results that share an index
    are joined in input order, so a permutation changes the text; and the
    result is stripped, so it is not the plain join when a text starts with
    whitespace. *)
Lemma merged_text_not_invariant :
  Permutation [dup_a; dup_b] [dup_b; dup_a] /\
  (fst <$> merge_chunks {[ 1%positive := [dup_a; dup_b] ]} 1%positive)
    = Some (mk_merged ("a" ++ PyStr.nlnl ++ "b") []) /\
  (fst <$> merge_chunks {[ 1%positive := [dup_b; dup_a] ]} 1%positive)
    = Some (mk_merged ("b" ++ PyStr.nlnl ++ "a") []) /\
  (fst <$> merge_chunks {[ 1%positive := [blank_head] ]} 1%positive)
    = Some (mk_merged "a" []) /\
  joined_text [blank_head] = " a".
Proof.
  split; [apply perm_swap|].
  repeat split; vm_compute; reflexivity.
Qed.

End MergeFacts.

(** ** The chunk transcriber *)

Module TranscriberFacts.
Import Planner Transcriber TranscriberSpec.
Local Open Scope Q_scope.

Lemma adjust_segments_fold chunk_info segs : forall segment_list text_parts,
  fold_left (adjust_segment chunk_info) segs (segment_list, text_parts) =
  (segment_list
     ++ map (rebase (c_start chunk_info)) (List.filter keeps segs),
   text_parts
     ++ map seg_text
          (map (rebase (c_start chunk_info)) (List.filter keeps segs))).
Proof.
  induction segs as [|m segs IH]; intros segment_list text_parts.
  - cbn. rewrite !app_nil_r. reflexivity.
  - cbn [fold_left List.filter]. unfold adjust_segment at 2.
    cbn [seg_text fst snd]. fold (keeps m).
    destruct (keeps m); rewrite IH; [|reflexivity].
    cbn [map]. rewrite <- !app_assoc. reflexivity.
Qed.

(** C7. When the model returns its segments for the chunk and the chunk
    file is there to delete, the worker returns the chunk's index, the
    model's segments in order with the chunk's start offset added to both
    timestamps and the text trimmed, without those whose trimmed text is
    empty, and as text the newline-joined texts of the retained
    segments. *)
Theorem worker_rebases_and_filters whisper (fs : filesystem) chunk_info
    whisper_model transcription_mode segs content :
  (let '(beam_size, best_of, condition) :=
     decoding_parameters transcription_mode in
   whisper whisper_model (c_path chunk_info) beam_size best_of condition
   = Ok segs) ->
  fs !! c_path chunk_info = Some content ->
  exists res,
    transcribe_chunk_worker whisper fs
      (chunk_info, whisper_model, transcription_mode)
    = (Ok res, delete (c_path chunk_info) fs) /\
    cr_chunk_index res = c_index chunk_info /\
    cr_segments res =
      Some (map (rebase (c_start chunk_info)) (List.filter keeps segs)) /\
    cr_text res =
      PyStr.join PyStr.nl
        (map seg_text
           (map (rebase (c_start chunk_info)) (List.filter keeps segs))) /\
    Forall (fun sg => seg_text sg <> EmptyString)
      (map (rebase (c_start chunk_info)) (List.filter keeps segs)).
Proof.
  intros Hmodel Hfile. unfold transcribe_chunk_worker.
  destruct (decoding_parameters transcription_mode) as [[beam best] cond].
  rewrite Hmodel, adjust_segments_fold, Hfile. cbn [app].
  eexists. split; [reflexivity|]. cbn.
  repeat split.
  apply List.Forall_forall. intros sg Hsg.
  apply in_map_iff in Hsg as (m & <- & Hm).
  apply filter_In in Hm as [_ Hkeeps]. unfold keeps in Hkeeps.
  cbn [rebase seg_text]. destruct (PyStr.strip (ms_text m)); discriminate.
Qed.

Lemma worker_rebases_and_filters_witness :
  exists res,
    transcribe_chunk_worker sample_whisper sample_files
      (sample_chunk, "small", "quality")
    = (Ok res, delete "tmp/h_chunk_001.wav" sample_files) /\
    cr_chunk_index res = 1%Z /\
    cr_segments res =
      Some [ mk_segment (0 + 31) ((5 # 2) + 31) "Good morning.";
             mk_segment (3 + 31) (7 + 31)
               "The committee will come to order." ].
Proof.
  destruct (worker_rebases_and_filters sample_whisper sample_files
              sample_chunk "small" "quality"
              [ mk_model_segment 0 (5 # 2) " Good morning. ";
                mk_model_segment (5 # 2) 3 "   ";
                mk_model_segment 3 7 "The committee will come to order." ]
              "RIFF")
    as (res & H1 & H2 & H3 & _); [reflexivity|reflexivity|].
  exists res. split; [exact H1|]. split; [exact H2|].
  rewrite H3. reflexivity.
Defined.

End TranscriberFacts.

(** ** Download retries *)

Module DownloadFacts.
Import Store Job Download DownloadSpec.
Local Open Scope Q_scope.

(** Both sides are the initial log followed by the same events. *)
Ltac solve_logged :=
  unfold logged; cbn [w_log emit elapse set_fs set_db set_progress set_stats
                      update_status];
  rewrite <- ?app_assoc, ?app_nil_r; reflexivity.

Lemma logged_refl w : logged w w [].
Proof. unfold logged. rewrite app_nil_r. reflexivity. Qed.

Lemma logged_trans w1 w2 w3 evs evs' :
  logged w1 w2 evs -> logged w2 w3 evs' -> logged w1 w3 (evs ++ evs').
Proof. unfold logged. intros H1 H2. rewrite H2, H1, app_assoc. reflexivity. Qed.

Lemma logged_emit w e : logged w (emit e w) [e].
Proof. reflexivity. Qed.

Lemma attempt_results_app evs evs' :
  attempt_results (evs ++ evs') = attempt_results evs ++ attempt_results evs'.
Proof. apply omap_app. Qed.

Lemma attempt_results_cons e evs :
  attempt_results (e :: evs) =
  match attempt_result e with
  | Some b => b :: attempt_results evs
  | None => attempt_results evs
  end.
Proof. reflexivity. Qed.

Lemma sleeps_cons e evs :
  sleeps (e :: evs) =
  match sleep_of e with
  | Some t => t :: sleeps evs
  | None => sleeps evs
  end.
Proof. reflexivity. Qed.

Lemma sleeps_app evs evs' : sleeps (evs ++ evs') = sleeps evs ++ sleeps evs'.
Proof. apply omap_app. Qed.

(** Read the attempt outcomes and pauses off an explicit list of events. *)
Ltac read_log :=
  repeat (rewrite ?attempt_results_cons, ?sleeps_cons, ?attempt_results_app,
            ?sleeps_app;
          cbn [attempt_result sleep_of app]).

Lemma alter_row_existence (db : table) hearing_id id' (f : row -> row) :
  is_Some (alter f hearing_id db !! id') <-> is_Some (db !! id').
Proof.
  destruct (decide (hearing_id = id')) as [->|Hid].
  - rewrite lookup_alter_eq, fmap_is_Some. reflexivity.
  - rewrite lookup_alter_ne by exact Hid. reflexivity.
Qed.

(** The status update writes the status column and, for the two "started"
    transitions, one timestamp column; it never looks at [error_msg]. *)
Lemma update_status_sync_other now (db : table) hearing_id field value msg
    id' col :
  col <> field -> col <> "download_started_at" ->
  col <> "transcription_started_at" ->
  _update_status_sync now db hearing_id field value msg !! id'
    ≫= (fun r : row => r !! col)
  = db !! id' ≫= (fun r : row => r !! col).
Proof.
  intros H1 H2 H3. unfold _update_status_sync.
  destruct (decide (hearing_id = id')) as [->|Hid].
  - repeat match goal with |- context [if ?b then _ else _] => destruct b end;
      rewrite lookup_alter_eq; destruct (db !! id') as [r|];
      try reflexivity; cbn; rewrite ?lookup_insert_ne by congruence;
      reflexivity.
  - repeat match goal with |- context [if ?b then _ else _] => destruct b end;
      rewrite lookup_alter_ne by exact Hid; reflexivity.
Qed.

Lemma update_status_sync_field now (db : table) hearing_id field value msg :
  is_Some (db !! hearing_id) ->
  _update_status_sync now db hearing_id field value msg !! hearing_id
    ≫= (fun r : row => r !! field)
  = Some (SqlText value).
Proof.
  intros [r Hr]. unfold _update_status_sync.
  destruct (String.eqb field "download_status"
            && String.eqb value "downloading") eqn:H1;
    [|destruct (String.eqb field "transcription_status"
                && String.eqb value "processing") eqn:H2];
    rewrite lookup_alter_eq, Hr; cbn.
  - apply andb_true_iff in H1 as [->%String.eqb_eq _].
    rewrite lookup_insert_ne by discriminate. apply lookup_insert_eq.
  - apply andb_true_iff in H2 as [->%String.eqb_eq _].
    rewrite lookup_insert_ne by discriminate. apply lookup_insert_eq.
  - apply lookup_insert_eq.
Qed.

Lemma update_status_sync_ignores_message now db hearing_id field value msg :
  _update_status_sync now db hearing_id field value msg
  = _update_status_sync now db hearing_id field value None.
Proof. reflexivity. Qed.

Lemma update_status_sync_existence now (db : table) hearing_id field value
    msg id' :
  is_Some (_update_status_sync now db hearing_id field value msg !! id')
  <-> is_Some (db !! id').
Proof.
  unfold _update_status_sync.
  repeat match goal with |- context [if ?b then _ else _] => destruct b end;
    apply alter_row_existence.
Qed.

Lemma download_complete_sync_other now (db : table) hearing_id filename size
    id' col :
  col <> "download_status" -> col <> "video_file_path" ->
  col <> "video_size_bytes" -> col <> "download_completed_at" ->
  _update_download_complete_sync now db hearing_id filename size !! id'
    ≫= (fun r : row => r !! col)
  = db !! id' ≫= (fun r : row => r !! col).
Proof.
  intros H1 H2 H3 H4. unfold _update_download_complete_sync.
  destruct (decide (hearing_id = id')) as [->|Hid].
  - rewrite lookup_alter_eq. destruct (db !! id') as [r|]; [|reflexivity].
    cbn. rewrite !lookup_insert_ne by congruence. reflexivity.
  - rewrite lookup_alter_ne by exact Hid. reflexivity.
Qed.

Lemma download_complete_sync_status now (db : table) hearing_id filename
    size :
  is_Some (db !! hearing_id) ->
  _update_download_complete_sync now db hearing_id filename size
    !! hearing_id ≫= (fun r : row => r !! "download_status")
  = Some (SqlText "completed").
Proof.
  intros [r Hr]. unfold _update_download_complete_sync.
  rewrite lookup_alter_eq, Hr. cbn.
  rewrite !lookup_insert_ne by discriminate. apply lookup_insert_eq.
Qed.

Section effects.
Variable videos_dir : string.
Variable stream : string -> nat -> stream_run.
Variable http : string -> nat -> http_run.
Variable jitter : nat -> Q.

Lemma fetch_stream_effect hearing retry_count path w r w1 :
  fetch_stream stream hearing retry_count path w = (r, w1) ->
  w_db w1 = w_db w /\ exists evs, logged w w1 evs /\ quiet evs.
Proof.
  unfold fetch_stream. intros Hrun.
  destruct (negb (sr_returncode _ =? 0)%Z).
  - injection Hrun as <- <-. split; [reflexivity|].
    eexists [_; _]. split; [solve_logged|split; reflexivity].
  - destruct (_ !! _) as [content|]; injection Hrun as <- <-;
      (split; [reflexivity|]).
    + eexists [_; _; _]. split; [solve_logged|split; reflexivity].
    + eexists [_; _]. split; [solve_logged|split; reflexivity].
Qed.

Lemma write_chunks_effect video_id path total chunks : forall downloaded w,
  let st := fold_left (write_chunk video_id path total) chunks
              (downloaded, w) in
  w_db (snd st) = w_db w /\ w_log (snd st) = w_log w /\
  w_now (snd st) = w_now w.
Proof.
  induction chunks as [|chunk chunks IH]; intros downloaded w;
    [repeat split|].
  cbn [fold_left]. unfold write_chunk at 2 4 6.
  destruct (IH (downloaded + st_size chunk)%Z
              (set_progress video_id
                 (Transfer total (downloaded + st_size chunk)
                    (if (0 <? total)%Z
                     then inject_Z (downloaded + st_size chunk)
                          / inject_Z total * 100
                     else 0))
                 (set_fs (fun fs =>
                            match fs !! path with
                            | Some content =>
                                <[path := (content ++ chunk)%string]> fs
                            | None => <[path := chunk]> fs
                            end) w)))
    as (H1 & H2 & H3).
  cbn zeta in *. rewrite H1, H2, H3. repeat split.
Qed.

Lemma fetch_http_effect hearing retry_count path w r w1 :
  fetch_http http hearing retry_count path w = (r, w1) ->
  w_db w1 = w_db w /\ exists evs, logged w w1 evs /\ quiet evs.
Proof.
  unfold fetch_http. intros Hrun.
  destruct (http _ _) as [err secs|total chunks failure secs].
  - injection Hrun as <- <-. split; [reflexivity|].
    exists []. split; [solve_logged|split; reflexivity].
  - pose proof (write_chunks_effect (h_id hearing) path total chunks 0%Z
                  (set_fs (fun fs => <[path := EmptyString]> fs) w))
      as (H1 & H2 & _).
    cbn zeta in *.
    destruct (fold_left _ chunks _) as [d w2]. cbn [snd] in *.
    assert (w1 = elapse secs w2) as ->
      by (destruct failure; injection Hrun as <- <-; reflexivity).
    split; [exact H1|].
    exists []. split; [|split; reflexivity].
    unfold logged. cbn. rewrite H2, app_nil_r. reflexivity.
Qed.
Lemma attempt_download_effect hearing retry_count path w r w1 :
  attempt_download stream http hearing retry_count path w = (r, w1) ->
  exists evs, logged w w1 evs /\ sleeps evs = [] /\
    match r with
    | Ok _ =>
        attempt_results evs = [true] /\
        exists now name size,
          w_db w1 =
          _update_download_complete_sync now (w_db w) (h_id hearing) name size
    | Raised _ => attempt_results evs = [] /\ w_db w1 = w_db w
    end.
Proof.
  unfold attempt_download. intros Hrun.
  match type of Hrun with
  | context [if ?b then ?s else ?h] =>
      assert (exists r2 w2, (if b then s else h) = (r2, w2) /\
                w_db w2 = w_db w /\ exists evs, logged w w2 evs /\ quiet evs)
        as (r2 & w2 & Hf & Hdb & evs & Hlog & Hat & Hsl)
  end.
  { destruct (_ || _).
    - destruct (fetch_stream _ _ _ _ _) as [r2 w2] eqn:Hf.
      exists r2, w2. split; [reflexivity|].
      eapply fetch_stream_effect, Hf.
    - destruct (fetch_http _ _ _ _ _) as [r2 w2] eqn:Hf.
      exists r2, w2. split; [reflexivity|].
      eapply fetch_http_effect, Hf. }
  rewrite Hf in Hrun. destruct r2 as [u|e].
  - destruct (w_fs w2 !! path) as [content|]; injection Hrun as <- <-.
    + exists (evs ++ [DownloadComplete (h_title hearing) (st_size content)]).
      split; [|split].
      * unfold logged in *. cbn. rewrite Hlog, app_assoc. reflexivity.
      * rewrite sleeps_app, Hsl. reflexivity.
      * rewrite attempt_results_app, Hat. split; [reflexivity|].
        eexists _, _, _. cbn. rewrite Hdb. reflexivity.
    + exists evs. repeat split; assumption.
  - injection Hrun as <- <-. exists evs. repeat split; assumption.
Qed.

(** The state in which an attempt starts. *)
Local Abbreviation started hearing retry_count w :=
  (update_status (h_id hearing) "download_status" "downloading" None
     (set_progress (h_id hearing) (StartTime (w_now w))
        (emit (StartingDownload (h_title hearing) (retry_count + 1)
                 (max_retries + 1)) w))).

Lemma started_existence hearing retry_count w id' :
  is_Some (w_db (started hearing retry_count w) !! id')
  <-> is_Some (w_db w !! id').
Proof. apply update_status_sync_existence. Qed.

Lemma started_column hearing retry_count w id' col :
  ~ In col download_columns ->
  column (started hearing retry_count w) id' col = column w id' col.
Proof.
  intros Hcol. unfold column. cbn [w_db update_status set_db].
  apply update_status_sync_other; intros ->; apply Hcol; cbn; tauto.
Qed.

Lemma download_video_outcome hearing retry_count w :
  retry_outcome videos_dir jitter hearing retry_count w
    (download_video videos_dir stream http jitter hearing retry_count w).
Proof.
  funelim (download_video videos_dir stream http jitter hearing retry_count w);
    unfold retry_outcome; cbn [fst snd]; clear Heqcall.
  - (* the file is already there *)
    exists [AlreadyDownloaded (h_title hearing0)].
    split; [solve_logged|]. split; [reflexivity|]. split; [reflexivity|].
    right; left. exists 0%nat. repeat split. lia.
  - (* the attempt succeeds *)
    apply attempt_download_effect in Heq
      as (evs & Hlog & Hsl & Hat & now & name & size & Hdb).
    exists (StartingDownload (h_title hearing0) (retry_count + 1)
              (max_retries + 1) :: evs).
    split; [|split; [|split]].
    + unfold logged in *. rewrite Hlog. cbn. rewrite <- app_assoc.
      reflexivity.
    + intros id'. rewrite Hdb.
      unfold _update_download_complete_sync.
      rewrite alter_row_existence. apply started_existence.
    + intros id' col Hcol. unfold column at 1. rewrite Hdb.
      rewrite download_complete_sync_other
        by (intros ->; apply Hcol; cbn; tauto).
      apply (started_column hearing0 retry_count w id' col Hcol).
    + left. exists 0%nat. split; [lia|].
      split; [read_log; rewrite Hat; reflexivity|].
      split; [read_log; rewrite Hsl; reflexivity|].
      split; [reflexivity|].
      intros Hrow. unfold column. rewrite Hdb.
      apply download_complete_sync_status, started_existence, Hrow.
  - (* the attempt fails and is retried *)
    apply attempt_download_effect in Heq0
      as (evs & Hlog & Hsl & Hat & Hdb).
    set (w2 := emit (Slept _) _) in *.
    destruct (download_video videos_dir stream http jitter hearing0
                (S retry_count) w2) as [res w'].
    unfold retry_outcome in H. cbn [fst snd] in *.
    destruct H as (evs' & Hlog' & Hrows & Hcols & Hcases).
    assert (w_db w2 = w_db (started hearing0 retry_count w)) as Hdb2
      by exact Hdb.
    exists (StartingDownload (h_title hearing0) (retry_count + 1)
              (max_retries + 1)
            :: evs ++ [DownloadFailed (h_title hearing0) e;
                       Retrying (wait_time_of jitter retry_count);
                       Slept (wait_time_of jitter retry_count)] ++ evs').
    assert (attempt_results
              (StartingDownload (h_title hearing0) (retry_count + 1)
                 (max_retries + 1)
               :: evs ++ [DownloadFailed (h_title hearing0) e;
                          Retrying (wait_time_of jitter retry_count);
                          Slept (wait_time_of jitter retry_count)] ++ evs')
            = false :: attempt_results evs') as Hresults
      by (read_log; rewrite Hat; reflexivity).
    assert (sleeps
              (StartingDownload (h_title hearing0) (retry_count + 1)
                 (max_retries + 1)
               :: evs ++ [DownloadFailed (h_title hearing0) e;
                          Retrying (wait_time_of jitter retry_count);
                          Slept (wait_time_of jitter retry_count)] ++ evs')
            = wait_time_of jitter retry_count :: sleeps evs') as Hsleeps
      by (read_log; rewrite Hsl; reflexivity).
    rewrite Hresults, Hsleeps.
    assert (forall id', is_Some (w_db w2 !! id') <-> is_Some (w_db w !! id'))
      as Hrows2
      by (intros id'; rewrite Hdb2; apply started_existence).
    split; [|split; [|split]].
    + unfold logged in *. rewrite Hlog'. subst w2. cbn. rewrite Hlog. cbn.
      rewrite <- !app_assoc. reflexivity.
    + intros id'. rewrite Hrows. apply Hrows2.
    + intros id' col Hcol. rewrite (Hcols id' col Hcol).
      unfold column at 1. rewrite Hdb2.
      apply (started_column hearing0 retry_count w id' col Hcol).
    + unfold max_retries in *.
      destruct Hcases as [(k & Hk & Hr & Hs & Hres & Hst)
                         |[(k & Hk & Hr & Hs & Hres)
                          |(Hr & Hs & Hres & Hst)]].
      * left. exists (S k). split; [lia|].
        split; [rewrite Hr; reflexivity|].
        split; [rewrite Hs; reflexivity|].
        split; [exact Hres|].
        intros Hrow. apply Hst, Hrows2, Hrow.
      * right; left. exists (S k). split; [lia|].
        split; [rewrite Hr; reflexivity|].
        split; [rewrite Hs; reflexivity|exact Hres].
      * right; right.
        replace (3 - retry_count)%nat with (S (3 - S retry_count)) by lia.
        split; [rewrite Hr; reflexivity|].
        split; [rewrite Hs; reflexivity|].
        split; [exact Hres|].
        intros Hrow. apply Hst, Hrows2, Hrow.
  - (* the attempt fails and the retries are exhausted *)
    apply attempt_download_effect in Heq0
      as (evs & Hlog & Hsl & Hat & Hdb).
    exists (StartingDownload (h_title hearing0) (retry_count + 1)
              (max_retries + 1)
            :: evs ++ [DownloadFailed (h_title hearing0) e;
                       MaxRetries (h_title hearing0)]).
    split; [|split; [|split]].
    + unfold logged in *. cbn. rewrite Hlog. cbn.
      rewrite <- !app_assoc. reflexivity.
    + intros id'. cbn [w_db update_status set_db emit].
      rewrite update_status_sync_existence, Hdb.
      apply started_existence.
    + intros id' col Hcol. unfold column at 1.
      cbn [w_db update_status set_db emit].
      rewrite update_status_sync_other
        by (intros ->; apply Hcol; cbn; tauto).
      rewrite Hdb.
      apply (started_column hearing0 retry_count w id' col Hcol).
    + right; right. unfold max_retries in *.
      replace (3 - retry_count)%nat with 0%nat by lia.
      split; [read_log; rewrite Hat; reflexivity|].
      split; [read_log; rewrite Hsl; reflexivity|].
      split; [reflexivity|].
      intros Hrow. unfold column. cbn [w_db update_status set_db emit].
      apply update_status_sync_field. rewrite Hdb.
      apply started_existence, Hrow.
Qed.
End effects.

Lemma failures_then_success k :
  replicate k false ++ [true] = [false; false; false; true] -> k = 3%nat.
Proof.
  destruct k as [|[|[|[|k]]]]; cbn; intros H; try discriminate; reflexivity.
Qed.

Lemma failures_only k l :
  replicate k false = l ++ [true] -> False.
Proof.
  intros H. assert (In true (replicate k false)) as Hin
    by (rewrite H; apply in_or_app; right; left; reflexivity).
  apply list_elem_of_In, elem_of_replicate in Hin as [? _]. discriminate.
Qed.




End DownloadFacts.

(** ** Failure of the transcription phase *)

Module TranscriptionFacts.
Import Store Job Transcription TranscriptionSpec DownloadSpec.
Local Open Scope Q_scope.

Lemma unlink_chunks_gone temp_dir hearing_id (fs : filesystem) path :
  chunk_glob temp_dir hearing_id path = true ->
  unlink_chunks temp_dir hearing_id fs !! path = None.
Proof.
  intros Hglob. unfold unlink_chunks. apply map_lookup_filter_None.
  right. intros content _. cbn. rewrite Hglob. discriminate.
Qed.

Lemma unlink_chunks_subset temp_dir hearing_id (fs : filesystem) path :
  fs !! path = None -> unlink_chunks temp_dir hearing_id fs !! path = None.
Proof.
  intros Hnone. unfold unlink_chunks. apply map_lookup_filter_None.
  left. exact Hnone.
Qed.

(** The failure handler: the status becomes ['failed'], no other column of
    any row changes (the message [e] goes to the log only), and neither the
    audio file nor a chunk file of the job is left. *)
Lemma transcribe_failed_effect temp_dir hearing audio_path e w :
  let w' := transcribe_failed temp_dir hearing audio_path e w in
  (is_Some (w_db w !! h_id hearing) ->
   column w' (h_id hearing) "transcription_status"
   = Some (SqlText "failed")) /\
  (forall id' col, col <> "transcription_status" ->
                   column w' id' col = column w id' col) /\
  w_db w' = w_db (transcribe_failed temp_dir hearing audio_path "" w) /\
  w_fs w' !! audio_path = None /\
  (forall path, chunk_glob temp_dir (h_id hearing) path = true ->
                w_fs w' !! path = None).
Proof.
  intros w'. subst w'. unfold transcribe_failed, column.
  cbn [w_db w_fs set_db set_fs set_stats emit w_now].
  change (_update_status_sync (w_now w) (w_db w) (h_id hearing)
            "transcription_status" "failed" (Some e))
    with (alter (fun r : row =>
                   <["transcription_status" := SqlText "failed"]> r)
            (h_id hearing) (w_db w)).
  split; [|split; [|split; [|split]]].
  - intros [r Hr]. rewrite lookup_alter_eq, Hr. cbn.
    apply lookup_insert_eq.
  - intros id' col Hcol. destruct (decide (h_id hearing = id')) as [<-|Hid].
    + rewrite lookup_alter_eq.
      destruct (w_db w !! h_id hearing) as [r|]; [|reflexivity].
      cbn. apply lookup_insert_ne. congruence.
    + rewrite lookup_alter_ne by exact Hid. reflexivity.
  - reflexivity.
  - apply unlink_chunks_subset, lookup_delete_eq.
  - intros path Hglob. apply unlink_chunks_gone, Hglob.
Qed.

Section extraction_failure.
Variable videos_dir temp_dir transcriptions_dir : string.
Variable chunk_duration : Q.
Variable whisper_model transcription_mode : string.
Variable delete_after : bool.
Variable total_cores : Z.
Variable py_float : string -> option Q.
Variable ffprobe_verify : string -> verify_run.
Variable ffmpeg_extract : string -> Z * option string.
Variable ffprobe_duration : string -> string.
Variable silencedetect : string -> string.
Variable ffmpeg_cut : string -> Q -> Q -> string -> bool * option string.
Variable whisper :
  string -> string -> Z -> Z -> bool -> outcome (list model_segment).
Variable processing_seconds : Q.
Variable render_text render_json render_db_json :
  string -> string -> string -> Q -> Q -> nat -> Merge.merged -> string.

Local Abbreviation run_transcribe_video :=
  (transcribe_video videos_dir temp_dir transcriptions_dir chunk_duration
     whisper_model transcription_mode delete_after total_cores py_float
     ffprobe_verify ffmpeg_extract ffprobe_duration silencedetect ffmpeg_cut
     whisper processing_seconds render_text render_json render_db_json).

Lemma processing_update now (db : table) hearing_id :
  _update_status_sync now db hearing_id "transcription_status" "processing"
    None
  = alter (fun r : row =>
             <["transcription_started_at" := SqlTime now]>
               (<["transcription_status" := SqlText "processing"]> r))
      hearing_id db.
Proof. reflexivity. Qed.

Lemma extract_audio_fails video_path audio_path w video :
  w_fs w !! video_path = Some video ->
  fst (ffmpeg_extract video) <> 0%Z ->
  extract_audio ffmpeg_extract video_path audio_path w
  = (Raised (called_process_error (extract_cmd video_path audio_path)
               (fst (ffmpeg_extract video))),
     set_fs (fun fs => Planner.write_output fs audio_path
                         (snd (ffmpeg_extract video))) w).
Proof.
  intros Hvideo Hexit. unfold extract_audio. rewrite Hvideo.
  apply Z.eqb_neq in Hexit. rewrite Hexit. reflexivity.
Qed.

(** The state in which the extraction runs. *)
Local Abbreviation processing hearing w :=
  (emit (ExtractingAudio (h_title hearing))
     (emit (StartingTranscription (h_title hearing))
        (set_db (fun db => _update_status_sync (w_now w) db (h_id hearing)
                             "transcription_status" "processing" None) w))).

Lemma transcribe_body_extract_fails hearing video_path audio_path w video :
  w_fs w !! video_path = Some video ->
  fst (ffmpeg_extract video) <> 0%Z ->
  transcribe_body temp_dir transcriptions_dir chunk_duration whisper_model
    transcription_mode delete_after total_cores py_float ffmpeg_extract
    ffprobe_duration silencedetect ffmpeg_cut whisper processing_seconds
    render_text render_json render_db_json hearing video_path audio_path w
  = Some (Raised (called_process_error (extract_cmd video_path audio_path)
                    (fst (ffmpeg_extract video))),
          set_fs (fun fs => Planner.write_output fs audio_path
                              (snd (ffmpeg_extract video)))
            (processing hearing w)).
Proof.
  intros Hvideo Hexit. unfold transcribe_body. cbn zeta.
  rewrite (extract_audio_fails video_path audio_path (processing hearing w)
             video Hvideo Hexit).
  reflexivity.
Qed.

End extraction_failure.


(** The failing run, evaluated: the stored row holds the status, the start
    time and the columns it had before, and the only file left is the
    video. *)
Lemma failing_run_stores_no_message :
  exists w',
    failing_run = Some (Ok tt, w') /\
    w_db w' !! "7"
      = Some {[ "download_status" := SqlText "completed";
                "transcription_status" := SqlText "failed";
                "transcription_started_at" := SqlTime 100;
                "retry_count" := SqlInt 0 ]} /\
    w_fs w' = {[ "videos/7.mp4" := "VIDEO" ]} /\
    w_log w' = [ StartingTranscription "Budget hearing";
                 ExtractingAudio "Budget hearing";
                 TranscriptionFailed "Budget hearing" failing_message ].
Proof. eexists. repeat split; vm_compute; reflexivity. Qed.

End TranscriptionFacts.

(** ** Further properties of the planner *)

Module PlanFacts.
Import Planner PlannerSpec PlannerFacts PlanSpec.
Local Open Scope Q_scope.

Lemma apart_from_le a a' chunks : a <= a' -> apart a' chunks -> apart a chunks.
Proof.
  destruct chunks as [|c rest]; [trivial|]. cbn [apart].
  intros Ha [H1 H2]. split; [lra|exact H2].
Qed.

Section invariants.
Variable temp_dir : string.
Variable chunk_duration : Q.
Variable ffmpeg_cut : Q -> Q -> string -> bool * option string.
Hypothesis chunk_duration_pos : 0 < chunk_duration.

Variable duration : Q.
Variable silence_periods : list silence_period.
Variable hearing_id : string.

Local Abbreviation loop := (plan_loop temp_dir chunk_duration ffmpeg_cut).
Local Abbreviation ok := (chunk_ok temp_dir chunk_duration duration hearing_id).
Local Abbreviation next :=
  (next_split chunk_duration duration silence_periods).

(** Where the split point of a step can lie. *)
Lemma next_split_bounds cs :
  cs < duration ->
  cs < next cs /\ next cs <= cs + chunk_duration + 5 /\
  next cs <= duration + 5.
Proof.
  intros Hcs.
  pose proof (split_progress chunk_duration chunk_duration_pos duration
                silence_periods cs Hcs) as Hprog.
  split; [exact Hprog|]. unfold next_split in *.
  pose proof (target_end_cases chunk_duration duration cs) as Hte.
  destruct (find_best_split_cases silence_periods cs
              (target_end_of chunk_duration duration cs))
    as [[Heq _]|(_ & [_ Hhi] & _)].
  - rewrite Heq. destruct Hte as [[? ?]|[? ?]]; lra.
  - destruct Hte as [[? ?]|[? ?]]; lra.
Qed.

Lemma plan_loop_invariants fuel : forall cs n chunks fs r fs',
  0 <= cs ->
  loop fuel duration silence_periods hearing_id cs n chunks fs
    = Some (r, fs') ->
  forall out, r = Ok out ->
  exists new,
    out = chunks ++ new /\ apart cs new /\ Forall ok new /\
    (forall (i : nat) c, new !! i = Some c -> c_index c = (n + Z.of_nat i)%Z).
Proof.
  induction fuel as [|fuel IH]; intros cs n chunks fs r fs' Hcs0 Hrun out Hout;
    [discriminate|].
  cbn [plan_loop] in Hrun. fold (next cs) in Hrun.
  destruct (Qltb cs duration) eqn:Hcs.
  - apply Qltb_lt in Hcs.
    destruct (next_split_bounds cs Hcs) as (Hb1 & Hb2 & Hb3).
    destruct (Qltb (1 # 2) (next cs - cs)) eqn:Hdur.
    + apply Qltb_lt in Hdur.
      destruct (fst (ffmpeg_cut _ _ _)); [|congruence].
      eapply IH in Hrun as (new & -> & Hapart & Hok & Hidx);
        [|lra|exact Hout].
      exists (mk_chunk (chunk_file temp_dir hearing_id n) cs (next cs - cs) n
              :: new).
      split; [rewrite <- app_assoc; reflexivity|].
      split; [|split].
      * cbn [apart c_start c_duration]. split; [lra|].
        apply (apart_from_le _ (next cs)); [lra|exact Hapart].
      * constructor; [|exact Hok]. unfold chunk_ok; cbn.
        repeat split; lra.
      * intros [|i] c; cbn.
        -- intros [= <-]. cbn. lia.
        -- intros Hc. rewrite (Hidx i c Hc). lia.
    + eapply IH in Hrun as (new & -> & Hapart & Hok & Hidx);
        [|lra|exact Hout].
      exists new. split; [reflexivity|].
      split; [apply (apart_from_le _ (next cs)); [lra|exact Hapart]|].
      split; assumption.
  - injection Hrun as <- <-. injection Hout as <-.
    exists []. rewrite app_nil_r. repeat split.
    + constructor.
    + intros i c. rewrite lookup_nil. discriminate.
Qed.

(** Planning only adds files, and only chunk files of this hearing. *)
Lemma plan_loop_files fuel : forall cs n chunks fs r fs',
  loop fuel duration silence_periods hearing_id cs n chunks fs
    = Some (r, fs') ->
  (forall path, is_Some (fs !! path) -> is_Some (fs' !! path)) /\
  (forall path, (forall k, path <> chunk_file temp_dir hearing_id k) ->
                fs' !! path = fs !! path).
Proof.
  induction fuel as [|fuel IH]; intros cs n chunks fs r fs' Hrun;
    [discriminate|].
  cbn [plan_loop] in Hrun.
  destruct (Qltb cs duration);
    [|injection Hrun as <- <-; split; [trivial|reflexivity]].
  destruct (Qltb (1 # 2) _); [|apply IH in Hrun; exact Hrun].
  set (cut := ffmpeg_cut _ _ _) in *.
  assert ((forall path, is_Some (fs !! path) ->
             is_Some (write_output fs (chunk_file temp_dir hearing_id n)
                        (snd cut) !! path)) /\
          (forall path, (forall k, path <> chunk_file temp_dir hearing_id k) ->
             write_output fs (chunk_file temp_dir hearing_id n) (snd cut)
               !! path = fs !! path)) as [Hkeep Hframe].
  { unfold write_output. destruct (snd cut) as [content|];
      [|split; [trivial|reflexivity]].
    split.
    - intros path Hsome.
      destruct (decide (chunk_file temp_dir hearing_id n = path)) as [<-|Hne].
      + rewrite lookup_insert_eq. eauto.
      + rewrite lookup_insert_ne by exact Hne. exact Hsome.
    - intros path Hpath. apply lookup_insert_ne.
      intros Heq. apply (Hpath n). congruence. }
  destruct (fst cut).
  - apply IH in Hrun as [Hkeep' Hframe']. split.
    + intros path Hsome. apply Hkeep', Hkeep, Hsome.
    + intros path Hpath. rewrite (Hframe' path Hpath). apply Hframe, Hpath.
  - injection Hrun as <- <-. split; assumption.
Qed.

(** When a successful cut leaves its output file, every chunk that is
    returned has its file. *)
Lemma plan_loop_chunk_files fuel : forall cs n chunks fs r fs',
  (forall s d p, fst (ffmpeg_cut s d p) = true ->
                 is_Some (snd (ffmpeg_cut s d p))) ->
  Forall (fun c => is_Some (fs !! c_path c)) chunks ->
  loop fuel duration silence_periods hearing_id cs n chunks fs
    = Some (r, fs') ->
  forall out, r = Ok out -> Forall (fun c => is_Some (fs' !! c_path c)) out.
Proof.
  induction fuel as [|fuel IH]; intros cs n chunks fs r fs' Hcut Hchunks Hrun
    out Hout; [discriminate|].
  cbn [plan_loop] in Hrun.
  destruct (Qltb cs duration);
    [|injection Hrun as <- <-; injection Hout as <-; exact Hchunks].
  destruct (Qltb (1 # 2) _); [|eapply IH; eassumption].
  set (cut := ffmpeg_cut _ _ _) in *.
  destruct (fst cut) eqn:Hfst; [|congruence].
  destruct (Hcut _ _ _ Hfst) as [content Hcontent]. fold cut in Hcontent.
  rewrite Hcontent in Hrun. cbn [write_output] in Hrun.
  eapply IH; [exact Hcut| |exact Hrun|exact Hout].
  apply Forall_app. split.
  - eapply Forall_impl; [exact Hchunks|]. intros c Hc. cbn beta in *.
    destruct (decide (chunk_file temp_dir hearing_id n = c_path c)) as [<-|Hne].
    + rewrite lookup_insert_eq. eauto.
    + rewrite lookup_insert_ne by exact Hne. exact Hc.
  - repeat constructor. cbn. rewrite lookup_insert_eq. eauto.
Qed.
End invariants.

Section planner_contract.
Variable temp_dir : string.
Variable chunk_duration : Q.
Variable py_float : string -> option Q.
Variable ffmpeg_cut : Q -> Q -> string -> bool * option string.


(** X2. Planning never removes or changes a file other than the chunk files
    of the hearing it plans, whether it returns chunks or raises. *)
Theorem planning_touches_only_chunk_files ffprobe_stdout stderr hid
    (fs : filesystem) r fs' :
  split_audio_with_silence_detection temp_dir chunk_duration py_float
    ffmpeg_cut ffprobe_stdout stderr hid fs
    = Some (r, fs') ->
  (forall path, is_Some (fs !! path) -> is_Some (fs' !! path)) /\
  (forall path, (forall k, path <> chunk_file temp_dir hid k) ->
                fs' !! path = fs !! path).
Proof.
  intros Hrun. unfold split_audio_with_silence_detection in Hrun.
  destruct (get_audio_duration py_float ffprobe_stdout) as [duration|e];
    [|injection Hrun as <- <-; split; [trivial|reflexivity]].
  destruct (parse_silence py_float stderr) as [sils|e];
    [|injection Hrun as <- <-; split; [trivial|reflexivity]].
  eapply plan_loop_files, Hrun.
Qed.

(** X3. If every cut that exits with status 0 has written its output file,
    then every chunk descriptor that planning returns points to a file that
    exists when planning ends. *)
Theorem planned_chunks_have_files ffprobe_stdout stderr hid
    (fs : filesystem) chunks fs' :
  (forall s d p, fst (ffmpeg_cut s d p) = true ->
                 is_Some (snd (ffmpeg_cut s d p))) ->
  split_audio_with_silence_detection temp_dir chunk_duration py_float
    ffmpeg_cut ffprobe_stdout stderr hid fs
    = Some (Ok chunks, fs') ->
  Forall (fun c => is_Some (fs' !! c_path c)) chunks.
Proof.
  intros Hcut Hrun. unfold split_audio_with_silence_detection in Hrun.
  destruct (get_audio_duration py_float ffprobe_stdout) as [duration|e];
    [|discriminate].
  destruct (parse_silence py_float stderr) as [sils|e]; [|discriminate].
  eapply (plan_loop_chunk_files temp_dir chunk_duration ffmpeg_cut duration
            sils hid _ 0 0%Z [] fs (Ok chunks) fs' Hcut);
    [constructor|exact Hrun|reflexivity].
Qed.
End planner_contract.

Lemma sample_split_run :
  exists chunks fs',
    split_audio_with_silence_detection "tmp" 30 PyStr.decimal_float
      sample_cut "90" sample_stderr "h" audio_only
    = Some (Ok chunks, fs').
Proof.
  exists [ mk_chunk "tmp/h_chunk_000.wav" 0 31 0;
           mk_chunk "tmp/h_chunk_001.wav" 31 30 1;
           mk_chunk "tmp/h_chunk_002.wav" 61 29 2 ],
         (<["tmp/h_chunk_002.wav" := "RIFF"]>
                (<["tmp/h_chunk_001.wav" := "RIFF"]>
                   (<["tmp/h_chunk_000.wav" := "RIFF"]> audio_only))).
  vm_compute. reflexivity.
Qed.


Lemma planning_touches_only_chunk_files_witness :
  exists r fs',
    split_audio_with_silence_detection "tmp" 30 PyStr.decimal_float
      sample_cut "90" sample_stderr "h" audio_only
    = Some (r, fs') /\
    is_Some (fs' !! "tmp/h_full.wav").
Proof.
  destruct sample_split_run as (chunks & fs' & Hrun).
  exists (Ok chunks), fs'. split; [exact Hrun|].
  apply (planning_touches_only_chunk_files "tmp" 30 PyStr.decimal_float
           sample_cut "90" sample_stderr "h" audio_only _ _ Hrun).
  unfold audio_only. rewrite lookup_singleton_eq. eauto.
Defined.

Lemma planned_chunks_have_files_witness :
  exists chunks fs',
    split_audio_with_silence_detection "tmp" 30 PyStr.decimal_float
      sample_cut "90" sample_stderr "h" audio_only
    = Some (Ok chunks, fs') /\
    Forall (fun c => is_Some (fs' !! c_path c)) chunks.
Proof.
  destruct sample_split_run as (chunks & fs' & Hrun).
  exists chunks, fs'. split; [exact Hrun|].
  apply (planned_chunks_have_files "tmp" 30 PyStr.decimal_float sample_cut
           "90" sample_stderr "h" audio_only chunks fs'); [|exact Hrun].
  intros s d p _. cbn. eauto.
Defined.

End PlanFacts.

(** ** Further properties of the silence parser *)

Module ParseFacts.
Import Planner PlannerSpec PlanSpec.
Local Open Scope Q_scope.

Lemma set_last_end_starts l e :
  map sil_start (set_last_end l e) = map sil_start l.
Proof.
  induction l as [|p l IH]; [reflexivity|].
  cbn [set_last_end]. destruct l as [|q l]; [reflexivity|].
  cbn [map] in *. rewrite IH. reflexivity.
Qed.

Section parse_facts.
Variable py_float : string -> option Q.

Lemma parse_line_starts sils line sils' :
  parse_line py_float sils line = Ok sils' ->
  map sil_start sils' =
  map sil_start sils
    ++ match start_value py_float line with Some v => [v] | None => [] end /\
  (is_start_line line = true -> is_Some (start_value py_float line)).
Proof.
  unfold parse_line, start_value, is_start_line.
  destruct (PyStr.contains "silence_start:" line).
  - destruct (marker_value py_float "silence_start: " line) as [v|e];
      [|discriminate].
    intros [= <-]. rewrite map_app. cbn. eauto.
  - intros Hparse. split; [|discriminate]. rewrite app_nil_r.
    destruct (_ && _).
    + destruct (marker_value py_float "silence_end: " line) as [v|e];
        [|discriminate].
      injection Hparse as <-. apply set_last_end_starts.
    + injection Hparse as <-. reflexivity.
Qed.

Lemma parse_lines_starts lines : forall sils sils',
  parse_lines py_float sils lines = Ok sils' ->
  map sil_start sils' = map sil_start sils ++ omap (start_value py_float) lines
  /\ length (omap (start_value py_float) lines)
     = length (List.filter is_start_line lines).
Proof.
  induction lines as [|line lines IH]; intros sils sils' Hparse.
  - injection Hparse as <-. cbn. rewrite app_nil_r. split; reflexivity.
  - cbn [parse_lines] in Hparse.
    destruct (parse_line py_float sils line) as [sils1|e] eqn:Hline;
      [|discriminate].
    apply parse_line_starts in Hline as [Hline Hread].
    apply IH in Hparse as [Hstarts Hlen]. cbn [List.filter].
    change (omap (start_value py_float) (line :: lines))
      with (match start_value py_float line with
            | Some v => v :: omap (start_value py_float) lines
            | None => omap (start_value py_float) lines
            end).
    split.
    + rewrite Hstarts, Hline, <- app_assoc.
      destruct (start_value py_float line); reflexivity.
    + destruct (is_start_line line) eqn:Hstart.
      * destruct (Hread eq_refl) as [v ->]. cbn. rewrite Hlen. reflexivity.
      * unfold start_value. rewrite Hstart. exact Hlen.
Qed.

Lemma parse_lines_readable lines : forall sils,
  Forall (readable py_float) lines ->
  exists sils', parse_lines py_float sils lines = Ok sils'.
Proof.
  induction lines as [|line lines IH]; intros sils Hall; [eexists; reflexivity|].
  apply Forall_cons_1 in Hall as [[Hs He] Hall].
  cbn [parse_lines]. unfold parse_line.
  unfold is_start_line, is_end_line in *.
  destruct (PyStr.contains "silence_start:" line).
  - destruct (Hs eq_refl) as [v ->]. apply IH, Hall.
  - cbn [negb andb] in He.
    destruct (PyStr.contains "silence_end:" line); cbn [andb];
      [|apply IH, Hall].
    destruct (last_is_open sils); [|apply IH, Hall].
    destruct (He eq_refl) as [v ->]. apply IH, Hall.
Qed.

(** X4. When the parse of the detector's output succeeds, it holds exactly
    one entry per start-marker line, in the order of the lines and with the
    value each line carries: end markers never add, remove or reorder
    entries. *)
Theorem one_entry_per_start_marker stderr sils :
  parse_silence py_float stderr = Ok sils ->
  map sil_start sils
    = omap (start_value py_float) (PyStr.split PyStr.nl stderr) /\
  length sils
    = length (List.filter is_start_line (PyStr.split PyStr.nl stderr)).
Proof.
  intros Hparse. unfold parse_silence in Hparse.
  apply parse_lines_starts in Hparse as [Hstarts Hlen].
  cbn [map app] in Hstarts. split; [exact Hstarts|].
  rewrite <- Hlen, <- Hstarts. symmetry. apply length_map.
Qed.

End parse_facts.

Lemma one_entry_per_start_marker_witness :
  exists sils,
    parse_silence PyStr.decimal_float sample_stderr = Ok sils /\
    map sil_start sils = [295 # 10; 8825 # 100] /\
    length sils = 2%nat.
Proof.
  destruct (parse_silence PyStr.decimal_float sample_stderr) as [sils|e]
    eqn:Hparse; [|vm_compute in Hparse; discriminate].
  exists sils. split; [reflexivity|].
  destruct (one_entry_per_start_marker PyStr.decimal_float sample_stderr
              sils Hparse) as [H1 H2].
  split; [rewrite H1|rewrite H2]; vm_compute; reflexivity.
Defined.


End ParseFacts.

(** ** The chunk pipeline: workers, then merge *)

Module PipelineFacts.
Import Planner Transcriber TranscriberSpec Merge MergeSpec Transcription.
Import PipelineSpec SortFacts PyStrFacts.
Local Open Scope Q_scope.

(** Sorting a sorted list changes nothing. *)
Lemma sort_by_sorted_id {A K} (key : A -> K) (ltb : K -> K -> bool) l :
  StronglySorted (key_le key ltb) l -> sort_by key ltb l = l.
Proof.
  induction 1 as [|x l Hsorted IH Hall]; [reflexivity|].
  cbn [sort_by]. rewrite IH. destruct l as [|y l]; [reflexivity|].
  cbn [insert_by]. apply Forall_inv in Hall. unfold key_le in Hall.
  rewrite Hall. reflexivity.
Qed.

Lemma merge_list_again xs : merge_list (snd (merge_list xs)) = merge_list xs.
Proof.
  unfold merge_list. cbn [snd].
  rewrite (sort_by_sorted_id cr_chunk_index Z.ltb
             (sort_by cr_chunk_index Z.ltb xs))
    by (apply sort_by_sorted;
        [apply MergeFacts.Zltb_asym|apply MergeFacts.Zltb_ntrans]).
  reflexivity.
Qed.

(** X6. Merging is idempotent: a second [merge_chunks] on the same list
    object returns the same dictionary and leaves the heap as the first
    call left it. *)
Theorem merge_chunks_idempotent (h : gmap loc (list chunk_result)) r res h' :
  merge_chunks h r = Some (res, h') ->
  merge_chunks h' r = Some (res, h').
Proof.
  unfold merge_chunks. destruct (h !! r) as [xs|] eqn:Hr; [|discriminate].
  destruct (merge_list xs) as [res0 xs'] eqn:Hm. intros [= <- <-].
  rewrite lookup_insert_eq.
  assert (xs' = snd (merge_list xs)) as -> by (rewrite Hm; reflexivity).
  rewrite merge_list_again, Hm. cbn [snd]. rewrite insert_insert_eq.
  reflexivity.
Qed.

Lemma merge_chunks_idempotent_witness :
  exists res h',
    merge_chunks {[ 1%positive := sample_results ]} 1%positive
      = Some (res, h') /\
    merge_chunks h' 1%positive = Some (res, h').
Proof.
  destruct (merge_chunks {[ 1%positive := sample_results ]} 1%positive)
    as [[res h']|] eqn:Hrun; [|vm_compute in Hrun; discriminate].
  exists res, h'. split; [reflexivity|].
  apply (merge_chunks_idempotent {[ 1%positive := sample_results ]}
           1%positive res h' Hrun).
Defined.

(** Stripping is idempotent. *)
Lemma lstrip_fixed_head c s :
  PyStr.lstrip (String c s) = String c s -> PyStr.is_space c = false.
Proof.
  intros Hfix. destruct (PyStr.is_space c) eqn:Hc; [|reflexivity].
  apply (f_equal String.length) in Hfix. cbn [PyStr.lstrip] in Hfix.
  rewrite Hc in Hfix. pose proof (lstrip_length s).
  cbn [String.length] in Hfix. lia.
Qed.

Lemma lstrip_idem s : PyStr.lstrip (PyStr.lstrip s) = PyStr.lstrip s.
Proof.
  induction s as [|c s IH]; [reflexivity|].
  cbn [PyStr.lstrip]. destruct (PyStr.is_space c) eqn:Hc; [exact IH|].
  cbn [PyStr.lstrip]. rewrite Hc. reflexivity.
Qed.

Lemma rstrip_idem s : PyStr.rstrip (PyStr.rstrip s) = PyStr.rstrip s.
Proof.
  induction s as [|c s IH]; [reflexivity|].
  cbn [PyStr.rstrip]. destruct (PyStr.rstrip s) as [|d r] eqn:Hr.
  - destruct (PyStr.is_space c) eqn:Hc; [reflexivity|].
    cbn [PyStr.rstrip]. rewrite Hc. reflexivity.
  - cbn [PyStr.rstrip] in *. rewrite IH. reflexivity.
Qed.

Lemma lstrip_rstrip t :
  PyStr.lstrip t = t -> PyStr.lstrip (PyStr.rstrip t) = PyStr.rstrip t.
Proof.
  destruct t as [|c t]; [reflexivity|]. intros Hfix.
  pose proof (lstrip_fixed_head c t Hfix) as Hc.
  cbn [PyStr.rstrip]. destruct (PyStr.rstrip t).
  - rewrite Hc. cbn [PyStr.lstrip]. rewrite Hc. reflexivity.
  - cbn [PyStr.lstrip]. rewrite Hc. reflexivity.
Qed.

Lemma strip_idem s : PyStr.strip (PyStr.strip s) = PyStr.strip s.
Proof.
  unfold PyStr.strip.
  rewrite (lstrip_rstrip (PyStr.lstrip s)) by apply lstrip_idem.
  apply rstrip_idem.
Qed.

Lemma join_empty sep parts :
  Forall (fun p => PyStr.truthy p = true) parts ->
  PyStr.join sep parts = EmptyString -> parts = [].
Proof.
  destruct parts as [|p parts]; [reflexivity|].
  intros Hall Hjoin. apply Forall_inv in Hall.
  destruct (join_first sep p parts) as [y Hy]. rewrite Hy in Hjoin.
  destruct p; discriminate.
Qed.

Lemma rebased_texts_trimmed offset segs :
  Forall (fun sg => trimmed (seg_text sg) /\ PyStr.truthy (seg_text sg) = true)
    (map (rebase offset) (List.filter keeps segs)).
Proof.
  induction segs as [|m segs IH]; [constructor|].
  cbn [List.filter]. destruct (keeps m) eqn:Hm; [|exact IH].
  cbn [map]. constructor; [|exact IH].
  cbn [rebase seg_text]. split; [apply strip_idem|exact Hm].
Qed.

Lemma returned_text_trimmed offset segs :
  trimmed
    (PyStr.join PyStr.nl
       (map seg_text (map (rebase offset) (List.filter keeps segs)))).
Proof.
  apply strip_join.
  pose proof (rebased_texts_trimmed offset segs) as Hall.
  induction Hall as [|sg l [Ht Hne] _ IH]; constructor; auto.
Qed.

(** What a worker does when it returns, and when it raises. *)
Lemma worker_returns whisper (fs : filesystem) c m mode res fs' :
  transcribe_chunk_worker whisper fs (c, m, mode) = (Ok res, fs') ->
  exists segs,
    res = mk_chunk_result
            (PyStr.join PyStr.nl
               (map seg_text
                  (map (rebase (c_start c)) (List.filter keeps segs))))
            (Some (map (rebase (c_start c)) (List.filter keeps segs)))
            (c_index c) /\
    is_Some (fs !! c_path c) /\ fs' = delete (c_path c) fs.
Proof.
  unfold transcribe_chunk_worker.
  destruct (decoding_parameters mode) as [[beam best] cond].
  destruct (whisper m (c_path c) beam best cond) as [segs|e];
    [|discriminate].
  rewrite TranscriberFacts.adjust_segments_fold.
  destruct (fs !! c_path c) as [content|] eqn:Hfile; [|discriminate].
  cbn [app]. intros [= <- <-]. exists segs. eauto.
Qed.

Lemma worker_raises whisper (fs : filesystem) args e fs' :
  transcribe_chunk_worker whisper fs args = (Raised e, fs') -> fs' = fs.
Proof.
  unfold transcribe_chunk_worker. destruct args as [[c m] mode].
  destruct (decoding_parameters mode) as [[beam best] cond].
  destruct (whisper m (c_path c) beam best cond) as [segs|e'];
    [|congruence].
  destruct (fold_left _ segs _) as [segment_list text_parts].
  destruct (fs !! c_path c); [discriminate|congruence].
Qed.

(** X7. Whatever the model returns, a worker's result is clean: the text
    and every segment's text have no leading or trailing whitespace, no
    segment's text is empty, the text is the newline-joined texts of the
    segments, and it is empty exactly when there is no segment. *)
Theorem worker_output_trimmed whisper (fs : filesystem) args res fs' :
  transcribe_chunk_worker whisper fs args = (Ok res, fs') ->
  trimmed (cr_text res) /\
  Forall (fun sg => trimmed (seg_text sg) /\ seg_text sg <> EmptyString)
    (get_segments res) /\
  cr_text res = PyStr.join PyStr.nl (map seg_text (get_segments res)) /\
  (cr_text res = EmptyString <-> get_segments res = []).
Proof.
  destruct args as [[c m] mode]. intros Hrun.
  apply worker_returns in Hrun as (segs & -> & _ & _).
  cbn [cr_text get_segments cr_segments].
  pose proof (rebased_texts_trimmed (c_start c) segs) as Hall.
  set (l := map (rebase (c_start c)) (List.filter keeps segs)) in *.
  assert (Forall (fun p => PyStr.truthy p = true /\ PyStr.strip p = p)
            (map seg_text l)) as Htexts.
  { induction Hall as [|sg l' [Ht Hne] _ IH]; constructor; auto. }
  split; [apply strip_join, Htexts|].
  split; [|split; [reflexivity|]].
  - eapply List.Forall_impl; [|exact Hall].
    intros sg [Ht Hne]. split; [exact Ht|].
    intros Heq. rewrite Heq in Hne. discriminate.
  - split.
    + intros Hjoin. apply join_empty in Hjoin.
      * destruct l; [reflexivity|discriminate].
      * eapply List.Forall_impl; [|exact Htexts]. intros p [Hp _]. exact Hp.
    + intros ->. reflexivity.
Qed.

Lemma sample_worker_run :
  exists res,
    transcribe_chunk_worker sample_whisper sample_files
      (sample_chunk, "small", "fast")
    = (Ok res, delete "tmp/h_chunk_001.wav" sample_files).
Proof. eexists. reflexivity. Qed.

Lemma worker_output_trimmed_witness :
  exists res fs',
    transcribe_chunk_worker sample_whisper sample_files
      (sample_chunk, "small", "fast") = (Ok res, fs') /\
    trimmed (cr_text res) /\
    (cr_text res = EmptyString <-> get_segments res = []).
Proof.
  destruct sample_worker_run as [res Hrun].
  exists res, (delete "tmp/h_chunk_001.wav" sample_files).
  split; [exact Hrun|].
  destruct (worker_output_trimmed sample_whisper sample_files
              (sample_chunk, "small", "fast") res _ Hrun)
    as (H1 & _ & _ & H2).
  split; [exact H1|exact H2].
Defined.

(** X8. A worker touches no file but its chunk's: when it returns it has
    deleted that file, which was there; when it raises, every file is as
    before, the chunk file included. *)
Theorem worker_touches_only_its_chunk whisper (fs : filesystem) chunk_info
    whisper_model transcription_mode r fs' :
  transcribe_chunk_worker whisper fs
    (chunk_info, whisper_model, transcription_mode) = (r, fs') ->
  (forall path, path <> c_path chunk_info -> fs' !! path = fs !! path) /\
  match r with
  | Ok _ =>
      is_Some (fs !! c_path chunk_info) /\ fs' !! c_path chunk_info = None
  | Raised _ => fs' = fs
  end.
Proof.
  intros Hrun. destruct r as [res|e].
  - apply worker_returns in Hrun as (segs & _ & Hfile & ->).
    split; [|split; [exact Hfile|apply lookup_delete_eq]].
    intros path Hne. apply lookup_delete_ne. congruence.
  - apply worker_raises in Hrun as ->. split; reflexivity.
Qed.

Lemma worker_touches_only_its_chunk_witness :
  exists r fs',
    transcribe_chunk_worker sample_whisper sample_files
      (sample_chunk, "small", "fast") = (r, fs') /\
    fs' !! "tmp/h_full.wav" = sample_files !! "tmp/h_full.wav".
Proof.
  eexists _, _. split; [apply surjective_pairing|].
  refine (proj1 (worker_touches_only_its_chunk sample_whisper sample_files
                   sample_chunk "small" "fast" _ _ (surjective_pairing _))
            _ _).
  discriminate.
Defined.

(** The pool: every worker that returns has deleted its chunk file, and
    the results come back in task order. *)
Lemma run_workers_effect whisper m mode chunks :
  forall (fs : filesystem) results fs' rs,
  run_workers whisper fs (worker_args_of m mode chunks) = (results, fs') ->
  collect results = Ok rs ->
  map cr_chunk_index rs = map c_index chunks /\
  Forall (fun r => trimmed (cr_text r)) rs /\
  Forall (fun c => fs' !! c_path c = None) chunks /\
  (forall path, (forall c, In c chunks -> path <> c_path c) ->
                fs' !! path = fs !! path).
Proof.
  induction chunks as [|c chunks IH]; intros fs results fs' rs Hrun Hall.
  - cbn in Hrun. injection Hrun as <- <-. cbn in Hall.
    injection Hall as <-. repeat split; constructor.
  - cbn [worker_args_of map run_workers] in Hrun.
    destruct (transcribe_chunk_worker whisper fs (c, m, mode))
      as [r fs1] eqn:Hworker.
    fold (worker_args_of m mode chunks) in Hrun.
    destruct (run_workers whisper fs1 (worker_args_of m mode chunks))
      as [results' fs2] eqn:Hrest.
    injection Hrun as <- <-. cbn [collect] in Hall.
    destruct r as [res|e]; [|discriminate].
    destruct (collect results') as [rs'|e] eqn:Hcollect; [|discriminate].
    injection Hall as <-.
    destruct (IH fs1 results' fs2 rs' Hrest Hcollect)
      as (Hidx & Htrim & Hgone & Hframe).
    apply worker_returns in Hworker as (segs & Heq & Hfile & ->).
    assert (trimmed (cr_text res)) as Hres
      by (rewrite Heq; apply returned_text_trimmed).
    split; [|split; [|split]].
    + cbn [map]. rewrite Hidx, Heq. reflexivity.
    + constructor; assumption.
    + constructor; [|exact Hgone].
      destruct (in_dec String.string_dec (c_path c) (map c_path chunks))
        as [Hin|Hnin].
      * apply in_map_iff in Hin as (c' & Hpath & Hin).
        rewrite List.Forall_forall in Hgone. rewrite <- Hpath.
        apply Hgone, Hin.
      * rewrite Hframe; [apply lookup_delete_eq|].
        intros c' Hin Hpath. apply Hnin. rewrite Hpath.
        apply in_map, Hin.
    + intros path Hpath. rewrite Hframe.
      * apply lookup_delete_ne. intros Heq'. symmetry in Heq'.
        revert Heq'. apply Hpath. left. reflexivity.
      * intros c' Hin. apply Hpath. right. exact Hin.
Qed.

(** X9. When every worker of the pool returns, the results come back in
    task order, one per chunk with that chunk's index; every chunk file has
    been deleted and no other file has been touched. *)
Theorem workers_return_in_chunk_order whisper whisper_model
    transcription_mode chunks (fs : filesystem) results fs' rs :
  run_workers whisper fs
    (worker_args_of whisper_model transcription_mode chunks)
    = (results, fs') ->
  collect results = Ok rs ->
  map cr_chunk_index rs = map c_index chunks /\
  Forall (fun c => fs' !! c_path c = None) chunks /\
  (forall path, (forall c, In c chunks -> path <> c_path c) ->
                fs' !! path = fs !! path).
Proof.
  intros Hrun Hall.
  destruct (run_workers_effect whisper whisper_model transcription_mode
              chunks fs results fs' rs Hrun Hall) as (H1 & _ & H2 & H3).
  auto.
Qed.

Lemma sample_pool_run :
  exists r0 r1,
    run_workers sample_whisper two_chunk_files
      (worker_args_of "small" "fast" two_chunks)
    = ([Ok r0; Ok r1],
       delete "tmp/h_chunk_001.wav"
         (delete "tmp/h_chunk_000.wav" two_chunk_files)).
Proof. eexists _, _. reflexivity. Qed.

Lemma workers_return_in_chunk_order_witness :
  exists results fs' rs,
    run_workers sample_whisper two_chunk_files
      (worker_args_of "small" "fast" two_chunks) = (results, fs') /\
    collect results = Ok rs /\
    map cr_chunk_index rs = [0%Z; 1%Z] /\
    fs' !! "tmp/h_full.wav" = two_chunk_files !! "tmp/h_full.wav".
Proof.
  destruct sample_pool_run as (r0 & r1 & Hrun).
  eexists _, _, [r0; r1]. split; [exact Hrun|]. split; [reflexivity|].
  destruct (workers_return_in_chunk_order sample_whisper "small" "fast"
              two_chunks two_chunk_files _ _ [r0; r1] Hrun eq_refl)
    as (H1 & _ & H3).
  split; [exact H1|]. apply H3.
  intros c [<-|[<-|[]]]; discriminate.
Defined.

(** Keys that count up from [k] are in order. *)
Lemma ascending_keys_bound {A} (key : A -> Z) (l : list A) : forall k : nat,
  (forall (i : nat) z, map key l !! i = Some z -> z = Z.of_nat (k + i)) ->
  Forall (fun y => (Z.of_nat k <= key y)%Z) l.
Proof.
  induction l as [|a l IH]; intros k Hkeys; constructor.
  - rewrite (Hkeys 0%nat (key a) eq_refl). lia.
  - eapply List.Forall_impl; [|apply (IH (S k))].
    + intros y Hy. cbn beta in Hy. lia.
    + intros i z Hz. rewrite (Hkeys (S i) z Hz). f_equal. lia.
Qed.

Lemma ascending_keys_sorted {A} (key : A -> Z) (l : list A) : forall k : nat,
  (forall (i : nat) z, map key l !! i = Some z -> z = Z.of_nat (k + i)) ->
  StronglySorted (key_le key Z.ltb) l.
Proof.
  induction l as [|a l IH]; intros k Hkeys; constructor.
  - apply (IH (S k)). intros i z Hz. rewrite (Hkeys (S i) z Hz).
    f_equal. lia.
  - pose proof (Hkeys 0%nat (key a) eq_refl) as Ha.
    eapply List.Forall_impl; [|apply (ascending_keys_bound key l (S k))].
    + intros y Hy. cbn beta in Hy. unfold key_le. lia.
    + intros i z Hz. rewrite (Hkeys (S i) z Hz). f_equal. lia.
Qed.

Lemma lookup_map_inv {A B} (f : A -> B) (l : list A) : forall (i : nat) z,
  map f l !! i = Some z -> exists a, l !! i = Some a /\ z = f a.
Proof.
  induction l as [|a l IH]; intros [|i] z Hz; try discriminate.
  - injection Hz as <-. exists a. split; reflexivity.
  - apply (IH i z Hz).
Qed.

(** X10. Workers, then merge: when the chunks are numbered by position, as
    the planner numbers them, and every worker returns, merging the results
    reorders nothing and strips nothing: the list stays as the pool
    returned it and the text is the plain paragraph-separated join of the
    non-empty chunk texts in chunk order. *)
Theorem pool_results_merge_in_order whisper whisper_model transcription_mode
    chunks (fs : filesystem) results fs' rs :
  (forall (i : nat) c, chunks !! i = Some c -> c_index c = Z.of_nat i) ->
  run_workers whisper fs
    (worker_args_of whisper_model transcription_mode chunks)
    = (results, fs') ->
  collect results = Ok rs ->
  merge_list rs
  = (mk_merged (joined_text rs) (sort_by seg_start Qltb (flatten rs)), rs).
Proof.
  intros Hpos Hrun Hall.
  destruct (run_workers_effect whisper whisper_model transcription_mode
              chunks fs results fs' rs Hrun Hall) as (Hidx & Htrim & _).
  assert (sort_by cr_chunk_index Z.ltb rs = rs) as Hsorted.
  { apply sort_by_sorted_id, (ascending_keys_sorted cr_chunk_index rs 0).
    intros i z Hz. rewrite Hidx in Hz.
    apply lookup_map_inv in Hz as (c & Hc & ->). apply Hpos, Hc. }
  unfold merge_list. rewrite Hsorted, MergeFacts.fold_left_flatten.
  cbn [app]. fold (joined_text rs). f_equal. f_equal.
  apply strip_join. unfold joined_text.
  clear -Htrim. induction Htrim as [|r rs' Hr _ IH]; [constructor|].
  cbn [map List.filter]. destruct (PyStr.truthy (cr_text r)) eqn:Ht;
    [constructor; [split; assumption|exact IH]|exact IH].
Qed.

Lemma pool_results_merge_in_order_witness :
  exists results fs' rs,
    run_workers sample_whisper two_chunk_files
      (worker_args_of "small" "fast" two_chunks) = (results, fs') /\
    collect results = Ok rs /\
    snd (merge_list rs) = rs /\
    m_text (fst (merge_list rs)) = joined_text rs.
Proof.
  destruct sample_pool_run as (r0 & r1 & Hrun).
  eexists _, _, [r0; r1]. split; [exact Hrun|]. split; [reflexivity|].
  rewrite (pool_results_merge_in_order sample_whisper "small" "fast"
             two_chunks two_chunk_files [Ok r0; Ok r1]
             (delete "tmp/h_chunk_001.wav"
                (delete "tmp/h_chunk_000.wav" two_chunk_files))
             [r0; r1]);
    [split; reflexivity| |exact Hrun|reflexivity].
  intros [|[|i]] c Hc; try discriminate; injection Hc as <-; reflexivity.
Defined.

End PipelineFacts.

(** ** What a download changes *)

Module DownloadFrameFacts.
Import Store Job Download DownloadSpec DownloadFrame DownloadFacts.
Import PyStrFacts.
Local Open Scope Q_scope.

Lemma only_job_changed_refl path id w : only_job_changed path id w w.
Proof. repeat split. Qed.

Lemma only_job_changed_trans path id w1 w2 w3 :
  only_job_changed path id w1 w2 -> only_job_changed path id w2 w3 ->
  only_job_changed path id w1 w3.
Proof.
  intros (F1 & D1 & P1) (F2 & D2 & P2). split; [|split].
  - intros p H1 H2. rewrite F2, F1 by assumption. reflexivity.
  - intros id' H. rewrite D2, D1 by assumption. reflexivity.
  - intros id' H. rewrite P2, P1 by assumption. reflexivity.
Qed.

Lemma no_failure_counted_refl s : no_failure_counted s s.
Proof. unfold no_failure_counted. auto 10. Qed.

Lemma update_status_sync_rows now (db : table) hearing_id field value msg
    id' :
  id' <> hearing_id ->
  _update_status_sync now db hearing_id field value msg !! id' = db !! id'.
Proof.
  intros Hid. unfold _update_status_sync.
  repeat match goal with |- context [if ?b then _ else _] => destruct b end;
    apply lookup_alter_ne; congruence.
Qed.

Section frame.
Variable videos_dir : string.
Variable stream : string -> nat -> stream_run.
Variable http : string -> nat -> http_run.
Variable jitter : nat -> Q.

Lemma write_chunk_frame video_id path total downloaded w chunk content :
  w_fs w !! path = Some content ->
  let w' := snd (write_chunk video_id path total (downloaded, w) chunk) in
  w_fs w' !! path = Some (content ++ chunk)%string /\
  (forall p, p <> path -> w_fs w' !! p = w_fs w !! p) /\
  (forall id', id' <> video_id ->
               w_download_progress w' !! id' = w_download_progress w !! id') /\
  w_stats w' = w_stats w.
Proof.
  intros Hfile. unfold write_chunk.
  cbn [snd w_fs w_download_progress w_stats set_progress set_fs].
  rewrite Hfile. split; [apply lookup_insert_eq|].
  split; [intros p Hp; apply lookup_insert_ne; congruence|].
  split; [intros id' Hid; apply lookup_insert_ne; congruence|reflexivity].
Qed.

Lemma write_chunks_frame video_id path total chunks :
  forall downloaded w content,
  w_fs w !! path = Some content ->
  let w' := snd (fold_left (write_chunk video_id path total) chunks
                   (downloaded, w)) in
  w_fs w' !! path = Some (content ++ body chunks)%string /\
  (forall p, p <> path -> w_fs w' !! p = w_fs w !! p) /\
  (forall id', id' <> video_id ->
               w_download_progress w' !! id' = w_download_progress w !! id') /\
  w_stats w' = w_stats w.
Proof.
  induction chunks as [|chunk chunks IH]; intros downloaded w content Hfile.
  - cbn [fold_left snd body fold_right]. rewrite append_empty_r. auto.
  - cbn [fold_left body fold_right].
    pose proof (write_chunk_frame video_id path total downloaded w chunk
                  content Hfile) as (Hf & Hframe & Hprog & Hstats).
    destruct (write_chunk video_id path total (downloaded, w) chunk)
      as [d1 w1]. cbn [snd] in *.
    destruct (IH d1 w1 _ Hf) as (Hf' & Hframe' & Hprog' & Hstats').
    split; [rewrite Hf', append_assoc; reflexivity|].
    split; [intros p Hp; rewrite Hframe', Hframe by exact Hp; reflexivity|].
    split; [intros id' Hid; rewrite Hprog', Hprog by exact Hid; reflexivity|].
    congruence.
Qed.

Lemma fetch_http_frame hearing retry_count path w r w1 :
  fetch_http http hearing retry_count path w = (r, w1) ->
  only_job_changed path (h_id hearing) w w1 /\ w_stats w1 = w_stats w.
Proof.
  unfold fetch_http. intros Hrun.
  destruct (http _ _) as [err secs|total chunks failure secs].
  - injection Hrun as <- <-. split; [repeat split|reflexivity].
  - pose proof (write_chunks_frame (h_id hearing) path total chunks 0%Z
                  (set_fs (fun fs => <[path := EmptyString]> fs) w)
                  EmptyString (lookup_insert_eq _ _ _))
      as (_ & Hframe & Hprog & Hstats).
    pose proof (write_chunks_effect (h_id hearing) path total chunks 0%Z
                  (set_fs (fun fs => <[path := EmptyString]> fs) w))
      as (Hdb & _).
    cbn zeta in Hdb.
    destruct (fold_left _ chunks _) as [d w2]. cbn [snd] in *.
    assert (w1 = elapse secs w2) as ->
      by (destruct failure; injection Hrun as <- <-; reflexivity).
    split; [|exact Hstats]. split; [|split].
    + intros p Hp _. cbn [w_fs elapse]. rewrite Hframe by exact Hp.
      apply lookup_insert_ne. congruence.
    + intros id' _. cbn [w_db elapse]. rewrite Hdb. reflexivity.
    + intros id' Hid. cbn [w_download_progress elapse].
      rewrite Hprog by exact Hid. reflexivity.
Qed.

Lemma fetch_stream_frame hearing retry_count path w r w1 :
  fetch_stream stream hearing retry_count path w = (r, w1) ->
  only_job_changed path (h_id hearing) w w1 /\ w_stats w1 = w_stats w.
Proof.
  unfold fetch_stream. intros Hrun.
  assert (forall (fs : filesystem) o p,
            p <> temp_file path ->
            Planner.write_output fs (path ++ ".downloading") o !! p
            = fs !! p) as Hout.
  { intros fs [c|] p Hp; cbn [Planner.write_output]; [|reflexivity].
    apply lookup_insert_ne. unfold temp_file in Hp. congruence. }
  destruct (negb (sr_returncode _ =? 0)%Z).
  - injection Hrun as <- <-. split; [|reflexivity].
    split; [|split]; [|reflexivity|reflexivity].
    intros p _ Hp. cbn [w_fs elapse set_fs emit]. apply Hout, Hp.
  - destruct (_ !! _) as [content|]; injection Hrun as <- <-;
      (split; [|reflexivity]); (split; [|split; reflexivity]).
    + intros p Hp Ht. cbn [w_fs elapse set_fs emit].
      rewrite lookup_insert_ne by congruence.
      rewrite lookup_delete_ne by (unfold temp_file in Ht; congruence).
      apply Hout, Ht.
    + intros p _ Hp. cbn [w_fs elapse set_fs emit]. apply Hout, Hp.
Qed.

Lemma attempt_download_frame hearing retry_count path w r w1 :
  attempt_download stream http hearing retry_count path w = (r, w1) ->
  only_job_changed path (h_id hearing) w w1 /\
  match r with
  | Ok _ =>
      is_Some (w_fs w1 !! path) /\ no_failure_counted (w_stats w) (w_stats w1)
  | Raised _ => w_stats w1 = w_stats w
  end.
Proof.
  unfold attempt_download. intros Hrun.
  match type of Hrun with
  | context [if ?b then ?s else ?h] =>
      assert (exists r2 w2, (if b then s else h) = (r2, w2) /\
                only_job_changed path (h_id hearing) w w2 /\
                w_stats w2 = w_stats w)
        as (r2 & w2 & Hf & Hframe & Hstats)
  end.
  { destruct (_ || _).
    - destruct (fetch_stream _ _ _ _ _) as [r2 w2] eqn:Hf.
      exists r2, w2. split; [reflexivity|].
      eapply fetch_stream_frame, Hf.
    - destruct (fetch_http _ _ _ _ _) as [r2 w2] eqn:Hf.
      exists r2, w2. split; [reflexivity|].
      eapply fetch_http_frame, Hf. }
  rewrite Hf in Hrun. destruct r2 as [u|e].
  - destruct (w_fs w2 !! path) as [content|] eqn:Hfile;
      injection Hrun as <- <-; [|split; assumption].
    split; [|split].
    + eapply only_job_changed_trans; [exact Hframe|].
      split; [|split]; [reflexivity| |reflexivity].
      intros id' Hid. cbn [w_db emit set_stats set_db].
      unfold _update_download_complete_sync.
      apply lookup_alter_ne. congruence.
    + cbn [w_fs emit set_stats set_db]. rewrite Hfile. eauto.
    + cbn [w_stats emit set_stats set_db]. rewrite Hstats.
      unfold no_failure_counted.
      cbn [dl_failed dl_successful tr_successful tr_failed
           tr_total_audio_duration tr_total_time].
      auto 10.
  - injection Hrun as <- <-. split; assumption.
Qed.

(** The state in which an attempt starts differs from the state before only
    in the job's row and progress entry. *)
Lemma started_frame path hearing retry_count w :
  only_job_changed path (h_id hearing) w
    (update_status (h_id hearing) "download_status" "downloading" None
       (set_progress (h_id hearing) (StartTime (w_now w))
          (emit (StartingDownload (h_title hearing) (retry_count + 1)
                   (max_retries + 1)) w))).
Proof.
  split; [|split].
  - reflexivity.
  - intros id' Hid. cbn [w_db update_status set_db set_progress emit].
    apply update_status_sync_rows, Hid.
  - intros id' Hid.
    cbn [w_download_progress update_status set_db set_progress emit].
    apply lookup_insert_ne. congruence.
Qed.

(** One invariant for the whole call, by induction on the retries. *)
Lemma download_video_frame hearing retry_count w :
  let run := download_video videos_dir stream http jitter hearing
               retry_count w in
  only_job_changed (video_file videos_dir (h_id hearing)) (h_id hearing) w
    (snd run) /\
  no_failure_counted (w_stats w) (w_stats (snd run)) /\
  match fst run with
  | Some path =>
      path = video_file videos_dir (h_id hearing) /\
      is_Some (w_fs (snd run) !! path)
  | None => w_stats (snd run) = w_stats w
  end.
Proof.
  funelim (download_video videos_dir stream http jitter hearing retry_count w);
    cbn zeta; cbn [fst snd]; clear Heqcall.
  - (* the file is already there *)
    split; [repeat split|].
    split; [apply no_failure_counted_refl|].
    split; [reflexivity|]. cbn [w_fs emit].
    unfold already_downloaded in Heq.
    destruct (w_fs w !! video_file videos_dir (h_id hearing0));
      [eauto|discriminate].
  - (* the attempt succeeds *)
    apply attempt_download_frame in Heq as (Hframe & Hfile & Hstats).
    split; [|split; [exact Hstats|split; [reflexivity|exact Hfile]]].
    eapply only_job_changed_trans; [|exact Hframe].
    apply started_frame.
  - (* the attempt fails and is retried *)
    apply attempt_download_frame in Heq0 as (Hframe & Hstats).
    set (w2 := emit (Slept _) _) in *.
    destruct (download_video videos_dir stream http jitter hearing0
                (S retry_count) w2) as [res w'].
    cbn zeta in H. cbn [fst snd] in *.
    destruct H as (Hframe' & Hstats' & Hres).
    assert (w_stats w2 = w_stats w) as Hs2 by exact Hstats.
    rewrite Hs2 in *.
    split; [|split; assumption].
    eapply only_job_changed_trans; [apply started_frame|].
    eapply only_job_changed_trans; [exact Hframe|exact Hframe'].
  - (* the attempt fails and the retries are exhausted *)
    apply attempt_download_frame in Heq0 as (Hframe & Hstats).
    cbn [w_stats update_status set_db emit].
    assert (w_stats w1 = w_stats w) as -> by exact Hstats.
    split; [|split; [apply no_failure_counted_refl|reflexivity]].
    eapply only_job_changed_trans; [apply started_frame|].
    eapply only_job_changed_trans; [exact Hframe|].
    split; [|split]; [reflexivity| |reflexivity].
    intros id' Hid. cbn [w_db update_status set_db emit].
    apply update_status_sync_rows, Hid.
Qed.

(** The body of [download_video], one level unfolded. *)
Lemma download_video_unfold hearing retry_count w :
  download_video videos_dir stream http jitter hearing retry_count w =
  if already_downloaded (video_file videos_dir (h_id hearing)) w then
    (Some (video_file videos_dir (h_id hearing)),
     emit (AlreadyDownloaded (h_title hearing)) w)
  else
    match attempt_download stream http hearing retry_count
            (video_file videos_dir (h_id hearing))
            (update_status (h_id hearing) "download_status" "downloading"
               None
               (set_progress (h_id hearing) (StartTime (w_now w))
                  (emit (StartingDownload (h_title hearing)
                           (retry_count + 1) (max_retries + 1)) w)))
    with
    | (Ok _, w1) => (Some (video_file videos_dir (h_id hearing)), w1)
    | (Raised e, w1) =>
        match lt_dec retry_count max_retries with
        | left _ =>
            download_video videos_dir stream http jitter hearing
              (S retry_count)
              (emit (Slept (wait_time_of jitter retry_count))
                 (elapse (wait_time_of jitter retry_count)
                    (emit (Retrying (wait_time_of jitter retry_count))
                       (emit (DownloadFailed (h_title hearing) e) w1))))
        | right _ =>
            (None,
             update_status (h_id hearing) "download_status" "failed"
               (Some e)
               (emit (MaxRetries (h_title hearing))
                  (emit (DownloadFailed (h_title hearing) e) w1)))
        end
    end.
Proof.
  funelim (download_video videos_dir stream http jitter hearing retry_count w);
    clear Heqcall.
  - rewrite Heq. reflexivity.
  - rewrite Heq0, Heq. reflexivity.
  - rewrite Heq1, Heq0, Heq. reflexivity.
  - rewrite Heq1, Heq0, Heq. reflexivity.
Qed.

(** X11. A path that [download_video] returns is the job's video path, and
    it names a file that exists when the call ends. *)
Theorem download_returns_existing_file hearing retry_count w path w' :
  download_video videos_dir stream http jitter hearing retry_count w
    = (Some path, w') ->
  path = video_file videos_dir (h_id hearing) /\ is_Some (w_fs w' !! path).
Proof.
  intros Hrun.
  pose proof (download_video_frame hearing retry_count w) as H.
  cbn zeta in H. rewrite Hrun in H. cbn [fst snd] in H.
  destruct H as (_ & _ & Hres). exact Hres.
Qed.


(** X13. No download is ever counted as failed: however the call ends, the
    failed-downloads counter and the transcription counters are as before;
    a call that gives up ([None]) leaves all the statistics as they were,
    and no call counts more than one success. *)
Theorem failed_downloads_never_counted hearing retry_count w res w' :
  download_video videos_dir stream http jitter hearing retry_count w
    = (res, w') ->
  dl_failed (w_stats w') = dl_failed (w_stats w) /\
  tr_successful (w_stats w') = tr_successful (w_stats w) /\
  tr_failed (w_stats w') = tr_failed (w_stats w) /\
  (res = None -> w_stats w' = w_stats w) /\
  (dl_successful (w_stats w') = dl_successful (w_stats w) \/
   dl_successful (w_stats w') = dl_successful (w_stats w) + 1)%Z.
Proof.
  intros Hrun.
  pose proof (download_video_frame hearing retry_count w) as H.
  cbn zeta in H. rewrite Hrun in H. cbn [fst snd] in H.
  destruct H as (_ & (H1 & H2 & H3 & _ & _ & H6) & Hres).
  split; [exact H1|]. split; [exact H2|]. split; [exact H3|].
  split; [intros ->; exact Hres|].
  destruct H6 as [->|H6]; [left; reflexivity|right; exact H6].
Qed.

(** X14. A body that breaks off is taken for a complete download: when a
    plain HTTP download fails after at least one byte of the body has been
    written and a retry is left, the retry finds the partial file, logs
    "already downloaded" and returns its path.  The file holds only the
    bytes read before the failure, no success is logged or counted, and the
    job's status stays ['downloading']. *)
Theorem partial_download_taken_for_complete hearing retry_count w total
    chunks err seconds :
  endswith ".m3u8" (h_url hearing) || PyStr.contains "HLS" (h_url hearing)
    = false ->
  already_downloaded (video_file videos_dir (h_id hearing)) w = false ->
  (retry_count < max_retries)%nat ->
  http (h_url hearing) retry_count
    = HttpResponse total chunks (Some err) seconds ->
  body chunks <> EmptyString ->
  exists w' evs,
    download_video videos_dir stream http jitter hearing retry_count w
      = (Some (video_file videos_dir (h_id hearing)), w') /\
    w_fs w' !! video_file videos_dir (h_id hearing) = Some (body chunks) /\
    logged w w' evs /\ attempt_results evs = [false] /\
    last evs = Some (AlreadyDownloaded (h_title hearing)) /\
    w_stats w' = w_stats w /\
    (is_Some (w_db w !! h_id hearing) ->
     column w' (h_id hearing) "download_status"
     = Some (SqlText "downloading")).
Proof.
  intros Hurl Hfresh Hlt Hhttp Hbody.
  rewrite download_video_unfold, Hfresh.
  set (path := video_file videos_dir (h_id hearing)).
  set (w0 := update_status (h_id hearing) "download_status" "downloading"
               None _).
  unfold attempt_download. rewrite Hurl. unfold fetch_http. rewrite Hhttp.
  pose proof (write_chunks_frame (h_id hearing) path total chunks 0%Z
                (set_fs (fun fs => <[path := EmptyString]> fs) w0)
                EmptyString (lookup_insert_eq _ _ _))
    as (Hfile & _ & _ & Hstats).
  pose proof (write_chunks_effect (h_id hearing) path total chunks 0%Z
                (set_fs (fun fs => <[path := EmptyString]> fs) w0))
    as (Hdb & Hlog & _).
  cbn zeta in Hfile, Hstats, Hdb, Hlog.
  change (EmptyString ++ body chunks)%string with (body chunks) in Hfile.
  destruct (fold_left _ chunks _) as [d w2]. cbn [snd] in *.
  destruct (lt_dec retry_count max_retries) as [_|Hge]; [|contradiction].
  rewrite download_video_unfold. fold path.
  assert (already_downloaded path
            (emit (Slept (wait_time_of jitter retry_count))
               (elapse (wait_time_of jitter retry_count)
                  (emit (Retrying (wait_time_of jitter retry_count))
                     (emit (DownloadFailed (h_title hearing) err)
                        (elapse seconds w2))))) = true) as ->.
  { unfold already_downloaded. cbn [w_fs emit elapse]. rewrite Hfile.
    destruct (body chunks); [contradiction|reflexivity]. }
  eexists _, [StartingDownload (h_title hearing) (retry_count + 1)
                (max_retries + 1);
              DownloadFailed (h_title hearing) err;
              Retrying (wait_time_of jitter retry_count);
              Slept (wait_time_of jitter retry_count);
              AlreadyDownloaded (h_title hearing)].
  split; [reflexivity|].
  split; [exact Hfile|].
  split; [unfold logged; cbn [w_log emit elapse]; rewrite Hlog;
          subst w0; cbn [w_log update_status set_db set_progress emit
                         set_fs];
          rewrite <- !app_assoc; reflexivity|].
  split; [reflexivity|]. split; [reflexivity|].
  split; [cbn [w_stats emit elapse]; rewrite Hstats; reflexivity|].
  intros Hrow. unfold column. cbn [w_db emit elapse]. rewrite Hdb.
  subst w0. cbn [w_db update_status set_db set_progress emit set_fs].
  apply update_status_sync_field, Hrow.
Qed.
End frame.

Lemma download_returns_existing_file_witness :
  exists w',
    download_video "videos" no_stream fourth_time_lucky half_jitter
      sample_hearing 0 sample_world = (Some "videos/7.mp4", w') /\
    is_Some (w_fs w' !! "videos/7.mp4").
Proof.
  eexists. split; [vm_compute; reflexivity|].
  eapply (download_returns_existing_file "videos" no_stream
            fourth_time_lucky half_jitter sample_hearing 0 sample_world).
  vm_compute. reflexivity.
Defined.


Lemma failed_downloads_never_counted_witness :
  let run := download_video "videos" no_stream always_refused half_jitter
               sample_hearing 0 sample_world in
  fst run = None /\ w_stats (snd run) = w_stats sample_world.
Proof.
  intros run. split; [vm_compute; reflexivity|].
  destruct (failed_downloads_never_counted "videos" no_stream
              always_refused half_jitter sample_hearing 0 sample_world _ _
              (surjective_pairing _)) as (_ & _ & _ & Hnone & _).
  apply Hnone. vm_compute. reflexivity.
Defined.

Lemma partial_download_taken_for_complete_witness :
  exists w' evs,
    download_video "videos" no_stream broken_body half_jitter
      sample_hearing 0 sample_world = (Some "videos/7.mp4", w') /\
    w_fs w' !! "videos/7.mp4" = Some "ab" /\
    logged sample_world w' evs /\ attempt_results evs = [false] /\
    column w' "7" "download_status" = Some (SqlText "downloading").
Proof.
  destruct (partial_download_taken_for_complete "videos" no_stream
              broken_body half_jitter sample_hearing 0 sample_world
              4 ["ab"] "connection lost" 1)
    as (w' & evs & Hrun & Hfile & Hlog & Hres & _ & _ & Hstatus);
    [reflexivity|reflexivity|unfold max_retries; lia|reflexivity
    |discriminate|].
  exists w', evs. split; [exact Hrun|]. split; [exact Hfile|].
  split; [exact Hlog|]. split; [exact Hres|].
  apply Hstatus. unfold sample_world, sample_hearing. cbn [w_db h_id].
  rewrite lookup_singleton_eq. eauto.
Defined.

End DownloadFrameFacts.

(** ** How a transcription ends *)

Module TranscriptionRunFacts.
Import Store Job Transcription TranscriptionSpec DownloadSpec.
Import TranscriptionRunSpec TranscriptionFacts Selection.
Local Open Scope Q_scope.

Lemma fold_emit_deleted l : forall w,
  let w' := fold_left (fun w chunk_file => emit (DeletedChunk chunk_file) w)
              l w in
  w_db w' = w_db w /\ w_fs w' = w_fs w /\ w_stats w' = w_stats w.
Proof.
  induction l as [|c l IH]; intros w; cbn [fold_left]; [auto|].
  destruct (IH (emit (DeletedChunk c) w)) as (H1 & H2 & H3).
  cbn zeta in *. rewrite H1, H2, H3. auto.
Qed.

Lemma transcription_complete_status now (db : table) (fs : filesystem)
    text_path hearing_id json :
  is_Some (db !! hearing_id) ->
  _update_transcription_complete_sync now db fs text_path hearing_id json
    !! hearing_id ≫= (fun r : row => r !! "transcription_status")
  = Some (SqlText "completed").
Proof.
  intros [r Hr]. unfold _update_transcription_complete_sync.
  rewrite lookup_alter_eq, Hr. cbn.
  rewrite !lookup_insert_ne by discriminate. apply lookup_insert_eq.
Qed.

Section run.
Variable videos_dir temp_dir transcriptions_dir : string.
Variable chunk_duration : Q.
Variable whisper_model transcription_mode : string.
Variable delete_after : bool.
Variable total_cores : Z.
Variable py_float : string -> option Q.
Variable ffprobe_verify : string -> verify_run.
Variable ffmpeg_extract : string -> Z * option string.
Variable ffprobe_duration : string -> string.
Variable silencedetect : string -> string.
Variable ffmpeg_cut : string -> Q -> Q -> string -> bool * option string.
Variable whisper :
  string -> string -> Z -> Z -> bool -> outcome (list model_segment).
Variable processing_seconds : Q.
Variable render_text render_json render_db_json :
  string -> string -> string -> Q -> Q -> nat -> Merge.merged -> string.

Local Abbreviation run_video :=
  (transcribe_video videos_dir temp_dir transcriptions_dir chunk_duration
     whisper_model transcription_mode delete_after total_cores py_float
     ffprobe_verify ffmpeg_extract ffprobe_duration silencedetect ffmpeg_cut
     whisper processing_seconds render_text render_json render_db_json).

Local Abbreviation run_body :=
  (transcribe_body temp_dir transcriptions_dir chunk_duration whisper_model
     transcription_mode delete_after total_cores py_float ffmpeg_extract
     ffprobe_duration silencedetect ffmpeg_cut whisper processing_seconds
     render_text render_json render_db_json).

Lemma extract_audio_effect video_path audio_path w r w1 :
  extract_audio ffmpeg_extract video_path audio_path w = (r, w1) ->
  w_db w1 = w_db w /\ w_stats w1 = w_stats w.
Proof.
  unfold extract_audio. cbn zeta.
  destruct (_ =? _)%Z; intros [= <- <-]; split; reflexivity.
Qed.

(** The clean-up at the end of a successful run. *)
Lemma cleanup_effect hearing_id video_path audio_path (w : world) :
  let w1 :=
    match w_fs w !! audio_path with
    | Some _ => emit (DeletedAudio audio_path)
                  (set_fs (fun fs => delete audio_path fs) w)
    | None => w
    end in
  let w2 :=
    fold_left (fun w chunk_file => emit (DeletedChunk chunk_file) w)
      (glob_chunks temp_dir hearing_id (w_fs w1))
      (set_fs (unlink_chunks temp_dir hearing_id) w1) in
  let w3 :=
    if delete_after then
      match w_fs w2 !! video_path with
      | Some _ => emit (DeletedVideo video_path)
                    (set_fs (fun fs => delete video_path fs) w2)
      | None => w2
      end
    else w2 in
  w_db w3 = w_db w /\ w_stats w3 = w_stats w /\
  w_fs w3 !! audio_path = None /\
  (forall path, chunk_glob temp_dir hearing_id path = true ->
                w_fs w3 !! path = None).
Proof.
  intros w1 w2 w3.
  assert (w_db w1 = w_db w /\ w_stats w1 = w_stats w /\
          w_fs w1 !! audio_path = None) as (Hdb1 & Hst1 & Haudio1).
  { subst w1. destruct (w_fs w !! audio_path) eqn:Haudio.
    - cbn [w_db w_stats w_fs emit set_fs].
      split; [reflexivity|split; [reflexivity|apply lookup_delete_eq]].
    - auto. }
  assert (w_db w2 = w_db w /\ w_stats w2 = w_stats w /\
          w_fs w2 = unlink_chunks temp_dir hearing_id (w_fs w1))
    as (Hdb2 & Hst2 & Hfs2).
  { subst w2.
    destruct (fold_emit_deleted (glob_chunks temp_dir hearing_id (w_fs w1))
                (set_fs (unlink_chunks temp_dir hearing_id) w1))
      as (H1 & H2 & H3).
    cbn zeta in *. rewrite H1, H2, H3. cbn [w_db w_fs w_stats set_fs].
    auto. }
  assert (w_fs w2 !! audio_path = None /\
          forall path, chunk_glob temp_dir hearing_id path = true ->
                       w_fs w2 !! path = None) as (Haudio2 & Hglob2).
  { rewrite Hfs2. split; [apply unlink_chunks_subset, Haudio1|].
    intros path Hglob. apply unlink_chunks_gone, Hglob. }
  subst w3. destruct delete_after; [|auto].
  destruct (w_fs w2 !! video_path); [|auto].
  cbn [w_db w_stats w_fs emit set_fs].
  split; [exact Hdb2|]. split; [exact Hst2|].
  split; [|intros path Hglob]; apply lookup_delete_None; right; auto.
Qed.

(** The clean-up only deletes: a file found afterwards was there before,
    with the same content. *)
Lemma cleanup_only_deletes hearing_id video_path audio_path (w : world) :
  let w1 :=
    match w_fs w !! audio_path with
    | Some _ => emit (DeletedAudio audio_path)
                  (set_fs (fun fs => delete audio_path fs) w)
    | None => w
    end in
  let w2 :=
    fold_left (fun w chunk_file => emit (DeletedChunk chunk_file) w)
      (glob_chunks temp_dir hearing_id (w_fs w1))
      (set_fs (unlink_chunks temp_dir hearing_id) w1) in
  let w3 :=
    if delete_after then
      match w_fs w2 !! video_path with
      | Some _ => emit (DeletedVideo video_path)
                    (set_fs (fun fs => delete video_path fs) w2)
      | None => w2
      end
    else w2 in
  forall path content,
    w_fs w3 !! path = Some content -> w_fs w !! path = Some content.
Proof.
  intros w1 w2 w3 path content H3.
  assert (w_fs w2 !! path = Some content) as H2.
  { subst w3. destruct delete_after; [|exact H3].
    destruct (w_fs w2 !! video_path); [|exact H3].
    cbn [w_fs emit set_fs] in H3.
    apply lookup_delete_Some in H3 as [_ H3]. exact H3. }
  assert (w_fs w1 !! path = Some content) as H1.
  { subst w2.
    destruct (fold_emit_deleted (glob_chunks temp_dir hearing_id (w_fs w1))
                (set_fs (unlink_chunks temp_dir hearing_id) w1))
      as (_ & Hfs & _).
    cbv zeta in Hfs. rewrite Hfs in H2. cbn [w_fs set_fs] in H2.
    unfold unlink_chunks in H2.
    apply map_lookup_filter_Some in H2 as [H2 _]. exact H2. }
  subst w1. destruct (w_fs w !! audio_path); [|exact H1].
  cbn [w_fs emit set_fs] in H1.
  apply lookup_delete_Some in H1 as [_ H1]. exact H1.
Qed.

Lemma txt_is_not_json (x : string) : (x ++ ".txt")%string <> (x ++ ".json")%string.
Proof.
  induction x as [|c x IH]; [discriminate|].
  change (String c (x ++ ".txt") <> String c (x ++ ".json")).
  intros [= H]. exact (IH H).
Qed.

(** The state in which the extraction runs. *)
Local Abbreviation processing hearing w :=
  (emit (ExtractingAudio (h_title hearing))
     (emit (StartingTranscription (h_title hearing))
        (set_db (fun db => _update_status_sync (w_now w) db (h_id hearing)
                             "transcription_status" "processing" None) w))).

(** What the [try] block leaves, for each way it can end. *)
Lemma transcribe_body_effect hearing video_path audio_path w r w1 :
  run_body hearing video_path audio_path w = Some (r, w1) ->
  match r with
  | Raised _ =>
      w_db w1 = w_db (processing hearing w) /\ w_stats w1 = w_stats w
  | Ok _ =>
      (exists now fs json,
         w_db w1 =
         _update_transcription_complete_sync now
           (w_db (processing hearing w)) fs
           (text_path_of transcriptions_dir hearing) (h_id hearing) json /\
         forall content,
           w_fs w1 !! text_path_of transcriptions_dir hearing = Some content ->
           fs !! text_path_of transcriptions_dir hearing = Some content) /\
      tr_successful (w_stats w1) = (tr_successful (w_stats w) + 1)%Z /\
      tr_failed (w_stats w1) = tr_failed (w_stats w) /\
      (2 <= total_cores)%Z /\
      w_fs w1 !! audio_path = None /\
      (forall path, chunk_glob temp_dir (h_id hearing) path = true ->
                    w_fs w1 !! path = None)
  end.
Proof.
  unfold transcribe_body. cbv zeta. intros Hrun.
  destruct (extract_audio ffmpeg_extract video_path audio_path
              (processing hearing w)) as [[u|e] w2] eqn:Hextract;
    apply extract_audio_effect in Hextract as (Hdb2 & Hst2);
    [|injection Hrun as <- <-; split; assumption].
  destruct (Planner.get_audio_duration py_float _) as [audio_duration|e];
    [|injection Hrun as <- <-; split; assumption].
  destruct (Planner.split_audio_with_silence_detection _ _ _ _ _ _ _ _)
    as [[[chunks|e] fs]|]; [| |discriminate];
    [|injection Hrun as <- <-; split; assumption].
  destruct (Z.min (total_cores / 2) (Z.of_nat (length chunks)) <? 1)%Z
    eqn:Hworkers; [injection Hrun as <- <-; split; assumption|].
  destruct (run_workers whisper _ _) as [results fs'].
  destruct (collect results) as [chunk_results|e];
    [|injection Hrun as <- <-; split; assumption].
  set (w9 := emit (TranscriptionComplete _ _) _) in Hrun.
  pose proof (cleanup_effect (h_id hearing) video_path audio_path w9)
    as Hclean.
  pose proof (cleanup_only_deletes (h_id hearing) video_path audio_path w9)
    as Hkept.
  cbv zeta in Hclean, Hkept.
  match type of Hrun with
  | Some (_, ?w') = _ => set (w10 := w') in *
  end.
  injection Hrun as <- <-.
  destruct Hclean as (Hdb & Hst & Haudio & Hglob).
  split; [|split; [|split; [|split; [|split]]]].
  - rewrite Hdb. eexists _, _, _. split.
    + subst w9. cbn [w_db emit set_stats set_db set_fs elapse].
      rewrite Hdb2. unfold text_path_of. reflexivity.
    + intros content Hfile. apply Hkept in Hfile. subst w9.
      cbn [w_fs emit set_stats set_db set_fs elapse] in Hfile |- *.
      exact Hfile.
  - rewrite Hst. subst w9.
    cbn [w_stats emit set_stats set_db set_fs elapse tr_successful].
    rewrite Hst2. reflexivity.
  - rewrite Hst. subst w9.
    cbn [w_stats emit set_stats set_db set_fs elapse tr_failed].
    rewrite Hst2. reflexivity.
  - apply Z.ltb_ge in Hworkers.
    assert (1 <= total_cores / 2)%Z as Hcores by lia.
    pose proof (Z.div_mod total_cores 2 ltac:(lia)).
    pose proof (Z.mod_pos_bound total_cores 2 ltac:(lia)). lia.
  - exact Haudio.
  - exact Hglob.
Qed.

(** How a call that returns or raises leaves the job's row and the
    transcription counters. *)
Lemma transcribe_video_effect hearing w r w' :
  run_video hearing w = Some (r, w') ->
  is_Some (w_db w !! h_id hearing) ->
  (column w' (h_id hearing) "transcription_status"
     = Some (SqlText "completed") /\
   r = Ok tt /\
   tr_successful (w_stats w') = (tr_successful (w_stats w) + 1)%Z /\
   tr_failed (w_stats w') = tr_failed (w_stats w) /\
   (2 <= total_cores)%Z) \/
  (column w' (h_id hearing) "transcription_status"
     = Some (SqlText "failed") /\
   tr_successful (w_stats w') = tr_successful (w_stats w)).
Proof.
  intros Hrun Hrow. unfold transcribe_video in Hrun.
  fold (video_path_of videos_dir hearing) in Hrun.
  fold (audio_path_of temp_dir hearing) in Hrun. cbv zeta in Hrun.
  assert (forall now msg,
            _update_status_sync now (w_db w) (h_id hearing)
              "transcription_status" "failed" msg !! h_id hearing
              ≫= (fun r : row => r !! "transcription_status")
            = Some (SqlText "failed")) as Hfailed
    by (intros now msg; apply DownloadFacts.update_status_sync_field, Hrow).
  destruct (w_fs w !! video_path_of videos_dir hearing) as [video|];
    [|injection Hrun as <- <-; right; split; [apply Hfailed|reflexivity]].
  destruct (ffprobe_verify (video_path_of videos_dir hearing))
    as [returncode stderr|];
    [|injection Hrun as <- <-; right; split; [apply Hfailed|reflexivity]].
  destruct (negb (returncode =? 0)%Z).
  { destruct delete_after; injection Hrun as <- <-; right;
      (split; [apply Hfailed|reflexivity]). }
  destruct (run_body hearing (video_path_of videos_dir hearing)
              (audio_path_of temp_dir hearing) w)
    as [[[u|e] w1]|] eqn:Hbody; [| |discriminate];
    apply transcribe_body_effect in Hbody; injection Hrun as <- <-.
  - destruct Hbody as ((now & fs & json & Hdb & _) & Hok & Hfail &
                       Hcores & _).
    left. split; [|destruct u; auto].
    unfold column. rewrite Hdb. apply transcription_complete_status.
    cbn [w_db emit set_db].
    apply DownloadFacts.update_status_sync_existence, Hrow.
  - destruct Hbody as (Hdb & Hst). right.
    pose proof (transcribe_failed_effect temp_dir hearing
                  (audio_path_of temp_dir hearing) e w1)
      as (Hstatus & _).
    cbv zeta in Hstatus. split.
    + apply Hstatus. rewrite Hdb. cbn [w_db emit set_db].
      apply DownloadFacts.update_status_sync_existence, Hrow.
    + unfold transcribe_failed.
      cbn [w_stats set_fs set_stats set_db emit tr_successful].
      rewrite Hst. reflexivity.
Qed.




(** X18. On a machine with fewer than two cores nothing is ever
    transcribed: the pool would get [total_cores // 2 = 0] workers, so
    every call that comes back leaves the job ['failed'] and counts no
    success. *)
Theorem too_few_cores_never_complete hearing w r w' :
  (total_cores < 2)%Z ->
  run_video hearing w = Some (r, w') ->
  is_Some (w_db w !! h_id hearing) ->
  column w' (h_id hearing) "transcription_status" = Some (SqlText "failed") /\
  tr_successful (w_stats w') = tr_successful (w_stats w).
Proof.
  intros Hcores Hrun Hrow.
  destruct (transcribe_video_effect hearing w r w' Hrun Hrow)
    as [(_ & _ & _ & _ & H)|H]; [lia|exact H].
Qed.


(** The store after a call, in terms of the store before. *)
Lemma transcribe_video_db hearing w r w' :
  run_video hearing w = Some (r, w') ->
  (exists now msg,
     w_db w' = _update_status_sync now (w_db w) (h_id hearing)
                 "transcription_status" "failed" msg) \/
  (exists now now' msg,
     w_db w' = _update_status_sync now'
                 (_update_status_sync now (w_db w) (h_id hearing)
                    "transcription_status" "processing" None)
                 (h_id hearing) "transcription_status" "failed" msg) \/
  (exists now now' fs text_path json,
     w_db w' = _update_transcription_complete_sync now'
                 (_update_status_sync now (w_db w) (h_id hearing)
                    "transcription_status" "processing" None)
                 fs text_path (h_id hearing) json).
Proof.
  intros Hrun. unfold transcribe_video in Hrun.
  fold (video_path_of videos_dir hearing) in Hrun.
  fold (audio_path_of temp_dir hearing) in Hrun. cbv zeta in Hrun.
  destruct (w_fs w !! video_path_of videos_dir hearing) as [video|];
    [|injection Hrun as <- <-; left; exists 0, None; reflexivity].
  destruct (ffprobe_verify (video_path_of videos_dir hearing))
    as [returncode stderr|];
    [|injection Hrun as <- <-; left; exists 0, None; reflexivity].
  destruct (negb (returncode =? 0)%Z).
  { destruct delete_after; injection Hrun as <- <-; left; exists 0, None;
      reflexivity. }
  destruct (run_body hearing (video_path_of videos_dir hearing)
              (audio_path_of temp_dir hearing) w)
    as [[[u|e] w1]|] eqn:Hbody; [| |discriminate];
    apply transcribe_body_effect in Hbody; injection Hrun as <- <-.
  - destruct Hbody as ((now & fs & json & Hdb & _) & _).
    right; right.
    exists (w_now w), now, fs, (text_path_of transcriptions_dir hearing), json.
    exact Hdb.
  - destruct Hbody as (Hdb & _). right; left.
    unfold transcribe_failed. cbn [w_db set_fs set_stats set_db emit].
    rewrite Hdb. exists (w_now w), 0, None. reflexivity.
Qed.

Lemma transcription_status_update_other now (db : table) hearing_id value
    msg id' col :
  col <> "transcription_status" -> col <> "transcription_started_at" ->
  _update_status_sync now db hearing_id "transcription_status" value msg
    !! id' ≫= (fun r : row => r !! col)
  = db !! id' ≫= (fun r : row => r !! col).
Proof.
  intros H1 H2. unfold _update_status_sync.
  change (String.eqb "transcription_status" "download_status") with false.
  cbn [andb].
  destruct (String.eqb "transcription_status" "transcription_status"
            && String.eqb value "processing");
    (destruct (decide (hearing_id = id')) as [->|Hid];
     [rewrite lookup_alter_eq; destruct (db !! id') as [r0|];
      [cbn; rewrite ?lookup_insert_ne by congruence|]; reflexivity
     |rewrite lookup_alter_ne by exact Hid; reflexivity]).
Qed.

Lemma transcription_complete_other now (db : table) (fs : filesystem)
    text_path hearing_id json id' col :
  ~ In col transcription_columns ->
  _update_transcription_complete_sync now db fs text_path hearing_id json
    !! id' ≫= (fun r : row => r !! col)
  = db !! id' ≫= (fun r : row => r !! col).
Proof.
  intros Hcol. unfold _update_transcription_complete_sync.
  destruct (decide (hearing_id = id')) as [->|Hid].
  - rewrite lookup_alter_eq. destruct (db !! id') as [r0|]; [|reflexivity].
    cbn. rewrite !lookup_insert_ne; [reflexivity|..];
      intros <-; apply Hcol; cbn; tauto.
  - rewrite lookup_alter_ne by exact Hid. reflexivity.
Qed.

(** X20. Whatever happens, [transcribe_video] neither adds nor removes a
    row, leaves every row but the job's as it is, and in the job's row
    writes only the transcription columns: the download columns and the
    retry counter keep their values. *)
Theorem transcription_writes_only_its_columns hearing w r w' :
  run_video hearing w = Some (r, w') ->
  (forall id', is_Some (w_db w' !! id') <-> is_Some (w_db w !! id')) /\
  (forall id', id' <> h_id hearing -> w_db w' !! id' = w_db w !! id') /\
  (forall id' col, ~ In col transcription_columns ->
                   column w' id' col = column w id' col).
Proof.
  intros Hrun.
  assert (forall col, ~ In col transcription_columns ->
                      col <> "transcription_status" /\
                      col <> "transcription_started_at") as Hsplit
    by (intros col Hcol; split; intros ->; apply Hcol; cbn; tauto).
  unfold column.
  destruct (transcribe_video_db hearing w r w' Hrun)
    as [(now & msg & ->)
       |[(now & now' & msg & ->)|(now & now' & fs & tp & json & ->)]].
  - split; [|split].
    + intros id'. apply DownloadFacts.update_status_sync_existence.
    + intros id' Hid.
      apply DownloadFrameFacts.update_status_sync_rows, Hid.
    + intros id' col Hcol. destruct (Hsplit col Hcol).
      apply transcription_status_update_other; assumption.
  - split; [|split].
    + intros id'. rewrite !DownloadFacts.update_status_sync_existence.
      reflexivity.
    + intros id' Hid.
      rewrite !DownloadFrameFacts.update_status_sync_rows by exact Hid.
      reflexivity.
    + intros id' col Hcol. destruct (Hsplit col Hcol). unfold column.
      rewrite !transcription_status_update_other by assumption.
      reflexivity.
  - split; [|split].
    + intros id'. unfold _update_transcription_complete_sync.
      rewrite DownloadFacts.alter_row_existence.
      apply DownloadFacts.update_status_sync_existence.
    + intros id' Hid. unfold _update_transcription_complete_sync.
      rewrite lookup_alter_ne by congruence.
      apply DownloadFrameFacts.update_status_sync_rows, Hid.
    + intros id' col Hcol. destruct (Hsplit col Hcol). unfold column.
      rewrite transcription_complete_other by exact Hcol.
      apply transcription_status_update_other; assumption.
Qed.

(** X21. A job that [transcribe_video] has handled is not picked up for
    transcription again, whether it completed or failed: its row no longer
    satisfies the transcription query, and if its download was recorded as
    completed it does not satisfy the download query either.  A failed
    transcription is never retried. *)
Theorem handled_job_not_selected_again hearing w r w' row' now :
  run_video hearing w = Some (r, w') ->
  w_db w' !! h_id hearing = Some row' ->
  needs_transcription row' = false /\
  (column w (h_id hearing) "download_status" = Some (SqlText "completed") ->
   needs_download now row' = false).
Proof.
  intros Hrun Hrow'.
  assert (is_Some (w_db w !! h_id hearing)) as Hrow.
  { assert (forall id', is_Some (w_db w' !! id') <-> is_Some (w_db w !! id'))
      as Hrows.
    { destruct (transcribe_video_db hearing w r w' Hrun)
        as [(t & msg & ->)
           |[(t & t' & msg & ->)|(t & t' & fs & tp & json & ->)]];
        intros id'.
      - apply DownloadFacts.update_status_sync_existence.
      - rewrite !DownloadFacts.update_status_sync_existence. reflexivity.
      - unfold _update_transcription_complete_sync.
        rewrite DownloadFacts.alter_row_existence.
        apply DownloadFacts.update_status_sync_existence. }
    apply Hrows. rewrite Hrow'. eauto. }
  assert (exists status,
            row' !! "transcription_status" = Some (SqlText status) /\
            String.eqb status "pending" = false) as (status & Hst & Hne).
  { destruct (transcribe_video_effect hearing w r w' Hrun Hrow)
      as [(H & _)|(H & _)]; unfold column in H; rewrite Hrow' in H;
      cbn in H; eexists; (split; [exact H|reflexivity]). }
  split.
  - unfold needs_transcription, text_is. rewrite Hst, Hne.
    destruct (row' !! "download_status") as [[s0| | |]|];
      try reflexivity.
    destruct (String.eqb s0 "completed"); reflexivity.
  - intros Hdl.
    assert (row' !! "download_status" = Some (SqlText "completed")) as Hdl'.
    { assert (column w' (h_id hearing) "download_status"
              = column w (h_id hearing) "download_status") as Hcol.
      { destruct (transcribe_video_db hearing w r w' Hrun)
          as [(t & msg & Hdb)
             |[(t & t' & msg & Hdb)|(t & t' & fs & tp & json & Hdb)]];
          unfold column; rewrite Hdb.
        - apply transcription_status_update_other; discriminate.
        - rewrite !transcription_status_update_other by discriminate.
          reflexivity.
        - rewrite transcription_complete_other
            by (cbn; intros H;
                repeat (destruct H as [H|H]; [discriminate|]); exact H).
          apply transcription_status_update_other; discriminate. }
      rewrite Hdl in Hcol. unfold column in Hcol. rewrite Hrow' in Hcol.
      exact Hcol. }
    unfold needs_download, text_is. rewrite Hdl'.
    change (String.eqb "completed" "pending") with false.
    change (String.eqb "completed" "failed") with false.
    change (String.eqb "completed" "downloading") with false.
    cbn [sql_and sql_or holds]. reflexivity.
Qed.
End run.

Lemma sample_row : is_Some (w_db downloaded_world !! h_id sample_hearing).
Proof.
  unfold downloaded_world, sample_hearing. cbn [w_db h_id].
  rewrite lookup_singleton_eq. eauto.
Qed.

Lemma sample_run_completes :
  exists w', sample_run true 8 verify_passes = Some (Ok tt, w').
Proof. eexists. vm_compute. reflexivity. Qed.

Lemma sample_run_single_core :
  exists w', sample_run true 1 verify_passes = Some (Ok tt, w').
Proof. eexists. vm_compute. reflexivity. Qed.

Lemma sample_run_corrupted :
  exists w',
    sample_run true 8 verify_fails
    = Some (Raised "name 'video_filename' is not defined", w').
Proof. eexists. vm_compute. reflexivity. Qed.



Lemma sample_run_counted :
  exists w',
    sample_run true 8 verify_passes = Some (Ok tt, w') /\
    tr_successful (w_stats w') = 1%Z.
Proof. eexists. vm_compute. split; reflexivity. Qed.


Lemma too_few_cores_never_complete_witness :
  exists w',
    sample_run true 1 verify_passes = Some (Ok tt, w') /\
    column w' "7" "transcription_status" = Some (SqlText "failed").
Proof.
  destruct sample_run_single_core as [w' Hrun]. exists w'.
  split; [exact Hrun|].
  apply (too_few_cores_never_complete "videos" "tmp" "transcriptions" 30
           "small" "quality" true 1 PyStr.decimal_float verify_passes
           extract_ok ninety_seconds sample_silence cut_ok
           TranscriberSpec.sample_whisper 12 render_nothing render_nothing
           render_nothing sample_hearing downloaded_world (Ok tt) w');
    [lia|exact Hrun|exact sample_row].
Defined.

Lemma titled_run_completes :
  exists w' content,
    titled_run = Some (Ok tt, w') /\
    column w' "7" "transcription_status" = Some (SqlText "completed") /\
    w_fs w' !! text_path_of "transcriptions" sample_hearing = Some content /\
    String.prefix "# Budget hearing" content = true.
Proof. eexists _, _. vm_compute. repeat split. Qed.


Lemma transcription_writes_only_its_columns_witness :
  exists w',
    sample_run true 8 verify_passes = Some (Ok tt, w') /\
    column w' "7" "download_status" = Some (SqlText "completed") /\
    column w' "7" "retry_count" = Some (SqlInt 0).
Proof.
  destruct sample_run_completes as [w' Hrun]. exists w'.
  split; [exact Hrun|].
  destruct (transcription_writes_only_its_columns "videos" "tmp"
              "transcriptions" 30 "small" "quality" true 8
              PyStr.decimal_float verify_passes extract_ok ninety_seconds
              sample_silence cut_ok TranscriberSpec.sample_whisper 12
              render_nothing render_nothing render_nothing sample_hearing
              downloaded_world (Ok tt) w' Hrun) as (_ & _ & Hcols).
  split; (rewrite Hcols; [reflexivity|]); cbn; intros H;
    repeat (destruct H as [H|H]; [discriminate|]); exact H.
Defined.

Lemma sample_run_single_core_row :
  exists w' row',
    sample_run true 1 verify_passes = Some (Ok tt, w') /\
    w_db w' !! "7" = Some row'.
Proof. eexists _, _. vm_compute. split; reflexivity. Qed.

Lemma handled_job_not_selected_again_witness :
  exists w' row',
    sample_run true 1 verify_passes = Some (Ok tt, w') /\
    w_db w' !! "7" = Some row' /\
    needs_transcription row' = false /\
    needs_download 5000 row' = false.
Proof.
  destruct sample_run_single_core_row as (w' & row' & Hrun & Hrow).
  exists w', row'. split; [exact Hrun|]. split; [exact Hrow|].
  destruct (handled_job_not_selected_again "videos" "tmp" "transcriptions"
              30 "small" "quality" true 1 PyStr.decimal_float verify_passes
              extract_ok ninety_seconds sample_silence cut_ok
              TranscriberSpec.sample_whisper 12 render_nothing
              render_nothing render_nothing sample_hearing downloaded_world
              (Ok tt) w' row' 5000 Hrun Hrow) as (H1 & H2).
  split; [exact H1|apply H2; reflexivity].
Defined.

End TranscriptionRunFacts.

(** ** The download query after a failed download *)

Module SelectionFacts.
Import Store Job Download DownloadSpec Selection.
Local Open Scope Q_scope.

Section eligible.
Variable videos_dir : string.
Variable stream : string -> nat -> stream_run.
Variable http : string -> nat -> http_run.
Variable jitter : nat -> Q.

(** X22. The retry limit of the download query never applies:
    [download_video] does not write [retry_count], so a job whose counter is
    below 3 when the download is given up ([None]) is marked ['failed']
    with the same counter, and its row satisfies the download query again,
    at any time. *)
Theorem failed_download_stays_eligible hearing retry_count w w' row row' n
    now :
  download_video videos_dir stream http jitter hearing retry_count w
    = (None, w') ->
  w_db w !! h_id hearing = Some row ->
  row !! "retry_count" = Some (SqlInt n) ->
  (n < 3)%Z ->
  w_db w' !! h_id hearing = Some row' ->
  row' !! "download_status" = Some (SqlText "failed") /\
  row' !! "retry_count" = Some (SqlInt n) /\
  needs_download now row' = true.
Proof.
  intros Hrun Hrow Hcount Hn Hrow'.
  pose proof (DownloadFacts.download_video_outcome videos_dir stream http
                jitter hearing retry_count w) as Hout.
  rewrite Hrun in Hout. unfold retry_outcome in Hout.
  cbn [fst snd] in Hout.
  destruct Hout as (evs & _ & _ & Hcols & Hcases).
  assert (row' !! "retry_count" = Some (SqlInt n)) as Hcount'.
  { pose proof (Hcols (h_id hearing) "retry_count") as H.
    unfold column in H. rewrite Hrow, Hrow' in H. cbn in H.
    rewrite H; [exact Hcount|].
    cbn. intros Hin.
    repeat (destruct Hin as [Hin|Hin]; [discriminate|]). exact Hin. }
  assert (row' !! "download_status" = Some (SqlText "failed")) as Hstatus.
  { destruct Hcases as [(k & _ & _ & _ & Hres & _)
                       |[(k & _ & _ & _ & Hres)|(_ & _ & _ & Hst)]];
      [discriminate|discriminate|].
    unfold column in Hst. rewrite Hrow, Hrow' in Hst. cbn in Hst.
    apply Hst. eauto. }
  split; [exact Hstatus|]. split; [exact Hcount'|].
  unfold needs_download, text_is, int_below. rewrite Hstatus, Hcount'.
  change (String.eqb "failed" "pending") with false.
  change (String.eqb "failed" "failed") with true.
  change (String.eqb "failed" "downloading") with false.
  assert ((n <? 3)%Z = true) as -> by lia.
  cbn [sql_and sql_or holds]. reflexivity.
Qed.
End eligible.

Lemma sample_download_given_up :
  exists w' row',
    download_video "videos" no_stream always_refused half_jitter
      sample_hearing 0 sample_world = (None, w') /\
    w_db w' !! "7" = Some row'.
Proof. eexists _, _. vm_compute. split; reflexivity. Qed.

Lemma failed_download_stays_eligible_witness :
  exists w' row',
    download_video "videos" no_stream always_refused half_jitter
      sample_hearing 0 sample_world = (None, w') /\
    w_db w' !! "7" = Some row' /\
    needs_download 100 row' = true.
Proof.
  destruct sample_download_given_up as (w' & row' & Hrun & Hrow').
  exists w', row'. split; [exact Hrun|]. split; [exact Hrow'|].
  eapply (failed_download_stays_eligible "videos" no_stream always_refused
            half_jitter sample_hearing 0 sample_world w' _ row' 0 100 Hrun).
  - unfold sample_world, sample_hearing. cbn [w_db h_id].
    apply lookup_singleton_eq.
  - reflexivity.
  - lia.
  - exact Hrow'.
Defined.

End SelectionFacts.

(** ** Chunk file names and the clean-up pattern *)

Module ChunkNameFacts.
Import Job Planner PlannerSpec Transcription PyStrFacts.
Local Open Scope Q_scope.

Lemma length_app (a b : string) :
  String.length (a ++ b) = (String.length a + String.length b)%nat.
Proof.
  induction a as [|c a IH]; [reflexivity|].
  change (String c a ++ b)%string with (String c (a ++ b)).
  cbn [String.length]. rewrite IH. reflexivity.
Qed.

Lemma prefix_app (a b : string) : String.prefix a (a ++ b) = true.
Proof.
  induction a as [|c a IH]; [destruct b; reflexivity|].
  change (String c a ++ b)%string with (String c (a ++ b)).
  cbn [String.prefix]. destruct (ascii_dec c c); [exact IH|contradiction].
Qed.

Lemma substring_all (b : string) :
  String.substring 0 (String.length b) b = b.
Proof.
  induction b as [|c b IH]; [reflexivity|].
  cbn [String.length String.substring]. rewrite IH. reflexivity.
Qed.

Lemma substring_head (b c : string) :
  String.substring 0 (String.length b) (b ++ c) = b.
Proof.
  induction b as [|x b IH]; [destruct c; reflexivity|].
  change (String x b ++ c)%string with (String x (b ++ c)).
  cbn [String.length String.substring]. rewrite IH. reflexivity.
Qed.

Lemma substring_mid (a b c : string) :
  String.substring (String.length a) (String.length b) (a ++ b ++ c) = b.
Proof.
  induction a as [|x a IH]; [exact (substring_head b c)|].
  change (String x a ++ b ++ c)%string with (String x (a ++ b ++ c)).
  cbn [String.length String.substring]. exact IH.
Qed.

Lemma substring_tail (a b : string) :
  String.substring (String.length a) (String.length b) (a ++ b) = b.
Proof.
  rewrite <- (append_empty_r b) at 2. rewrite substring_mid. reflexivity.
Qed.

Lemma contains_slash_cons c s :
  PyStr.contains "/" (String c s)
  = Ascii.eqb c "/" || PyStr.contains "/" s.
Proof.
  cbn [PyStr.contains String.prefix].
  destruct (ascii_dec "/" c) as [<-|Hne].
  - destruct s; reflexivity.
  - assert (Ascii.eqb c "/" = false) as ->
      by (apply Ascii.eqb_neq; congruence).
    reflexivity.
Qed.

Lemma contains_slash_app a b :
  PyStr.contains "/" (a ++ b)
  = PyStr.contains "/" a || PyStr.contains "/" b.
Proof.
  induction a as [|c a IH]; [reflexivity|].
  change (String c a ++ b)%string with (String c (a ++ b)).
  rewrite !contains_slash_cons, IH. apply orb_assoc.
Qed.

(** A number is printed with digits only. *)
Lemma pretty_N_char_digit x : Ascii.eqb (pretty_N_char x) "/" = false.
Proof. unfold pretty_N_char. repeat case_match; reflexivity. Qed.

Lemma pretty_N_go_no_slash x : forall s,
  PyStr.contains "/" s = false ->
  PyStr.contains "/" (pretty_N_go x s) = false.
Proof.
  induction (N.lt_wf_0 x) as [x _ IH]. intros s Hs.
  destruct (decide (x = 0%N)) as [->|Hx]; [rewrite pretty_N_go_0; exact Hs|].
  rewrite pretty_N_go_step by lia. apply IH.
  - apply N.div_lt; lia.
  - rewrite contains_slash_cons, pretty_N_char_digit. exact Hs.
Qed.

Lemma pretty_N_no_slash (x : N) : PyStr.contains "/" (pretty x) = false.
Proof.
  unfold pretty, pretty_N. destruct (decide (x = 0%N)); [reflexivity|].
  apply pretty_N_go_no_slash. reflexivity.
Qed.

Lemma fmt_03d_no_slash k : PyStr.contains "/" (fmt_03d k) = false.
Proof.
  unfold fmt_03d. pose proof (pretty_N_no_slash (Z.to_N k)) as H.
  destruct (String.length (pretty (Z.to_N k))) as [|[|[|n]]];
    rewrite ?contains_slash_app, H; reflexivity.
Qed.

(** The name the planner gives a chunk matches the pattern the clean-up
    globs. *)
Lemma chunk_file_matches_glob temp_dir hearing_id k :
  chunk_glob temp_dir hearing_id (chunk_file temp_dir hearing_id k) = true.
Proof.
  unfold chunk_glob, chunk_file.
  set (pre := (temp_dir ++ "/" ++ hearing_id ++ "_chunk_")%string).
  assert ((temp_dir ++ "/" ++ hearing_id ++ "_chunk_" ++ fmt_03d k ++ ".wav")
          %string = (pre ++ fmt_03d k ++ ".wav")%string) as ->
    by (subst pre; rewrite !append_assoc; reflexivity).
  cbv zeta. rewrite prefix_app.
  assert (endswith ".wav" (pre ++ fmt_03d k ++ ".wav") = true) as ->.
  { unfold endswith. rewrite <- append_assoc, length_app.
    pose proof (substring_tail (pre ++ fmt_03d k) ".wav") as Htail.
    change (String.length ".wav") with 4%nat in *.
    replace (String.length (pre ++ fmt_03d k) + 4 - 4)%nat
      with (String.length (pre ++ fmt_03d k)) by lia.
    rewrite Htail.
    apply andb_true_iff. split; [apply Nat.leb_le; lia|reflexivity]. }
  rewrite !length_app. change (String.length ".wav") with 4%nat.
  replace (String.length pre + (String.length (fmt_03d k) + 4)
           - String.length pre - 4)%nat
    with (String.length (fmt_03d k)) by lia.
  rewrite substring_mid, fmt_03d_no_slash.
  assert ((String.length pre + 4
           <=? String.length pre + (String.length (fmt_03d k) + 4))%nat
          = true) as -> by (apply Nat.leb_le; lia).
  reflexivity.
Qed.

Section names.
Variable temp_dir : string.
Variable chunk_duration : Q.
Variable py_float : string -> option Q.
Variable ffmpeg_cut : Q -> Q -> string -> bool * option string.

Local Abbreviation matches hearing_id :=
  (fun c : chunk => chunk_glob temp_dir hearing_id (c_path c) = true).

Lemma plan_loop_names duration silence_periods hearing_id fuel :
  forall cs n chunks (fs : filesystem) r fs',
  plan_loop temp_dir chunk_duration ffmpeg_cut fuel duration silence_periods
    hearing_id cs n chunks fs = Some (r, fs') ->
  (forall path, chunk_glob temp_dir hearing_id path = false ->
                fs' !! path = fs !! path) /\
  (forall out, r = Ok out -> Forall (matches hearing_id) chunks ->
               Forall (matches hearing_id) out).
Proof.
  induction fuel as [|fuel IH]; intros cs n chunks fs r fs' Hrun;
    [discriminate|].
  cbn [plan_loop] in Hrun. cbv zeta in Hrun.
  destruct (Qltb cs duration);
    [|injection Hrun as <- <-; split; [reflexivity|congruence]].
  destruct (Qltb (1 # 2) _); [|apply (IH _ _ _ _ _ _ Hrun)].
  assert (forall (o : option string) path,
            chunk_glob temp_dir hearing_id path = false ->
            write_output fs (chunk_file temp_dir hearing_id n) o !! path
            = fs !! path) as Hout.
  { intros [content|] path Hpath; [|reflexivity]. cbn [write_output].
    apply lookup_insert_ne. intros <-.
    rewrite chunk_file_matches_glob in Hpath. discriminate. }
  destruct (fst (ffmpeg_cut _ _ _)).
  - apply IH in Hrun as [Hframe Hnames]. split.
    + intros path Hpath. rewrite (Hframe path Hpath). apply Hout, Hpath.
    + intros out Hr Hall. apply (Hnames out Hr).
      apply Forall_app. split; [exact Hall|].
      constructor; [|constructor]. cbn [c_path].
      apply chunk_file_matches_glob.
  - injection Hrun as <- <-. split; [|discriminate].
    intros path Hpath. apply Hout, Hpath.
Qed.

End names.


End ChunkNameFacts.

(** ** Transcript file names *)

Module TitleFacts.
Import Transcription.

Lemma contains_char_cons d c s :
  PyStr.contains (String d EmptyString) (String c s)
  = Ascii.eqb c d || PyStr.contains (String d EmptyString) s.
Proof.
  cbn [PyStr.contains String.prefix].
  destruct (ascii_dec d c) as [<-|Hne].
  - rewrite Ascii.eqb_refl. destruct s; reflexivity.
  - assert (Ascii.eqb c d = false) as ->
      by (apply Ascii.eqb_neq; congruence).
    reflexivity.
Qed.

Lemma contains_char_take d n : forall s,
  PyStr.contains (String d EmptyString) s = false ->
  PyStr.contains (String d EmptyString) (String.substring 0 n s) = false.
Proof.
  induction n as [|n IH]; intros [|c s] Hs; try reflexivity.
  cbn [String.substring]. rewrite contains_char_cons in *.
  apply orb_false_iff in Hs as [-> Hs]. apply (IH s Hs).
Qed.

Lemma length_take n : forall s,
  (String.length (String.substring 0 n s) <= n)%nat.
Proof.
  induction n as [|n IH]; intros [|c s]; cbn [String.substring String.length];
    try lia.
  specialize (IH s). lia.
Qed.

Lemma take_short n : forall s,
  (String.length s <= n)%nat -> String.substring 0 n s = s.
Proof.
  induction n as [|n IH]; intros [|c s] Hlen; try reflexivity.
  - cbn [String.length] in Hlen. lia.
  - cbn [String.substring]. rewrite IH; [reflexivity|].
    cbn [String.length] in Hlen. lia.
Qed.

Lemma replace_separators_clean s :
  PyStr.contains "/" (replace_separators s) = false /\
  PyStr.contains "\" (replace_separators s) = false.
Proof.
  induction s as [|c s [IH1 IH2]]; [split; reflexivity|].
  cbn [replace_separators]. rewrite !contains_char_cons, IH1, IH2.
  destruct (Ascii.eqb c "/") eqn:H1; [split; reflexivity|].
  destruct (Ascii.eqb c "\") eqn:H2; [split; reflexivity|].
  cbn [orb]. rewrite H1, H2. split; reflexivity.
Qed.

Lemma replace_separators_id s :
  PyStr.contains "/" s = false -> PyStr.contains "\" s = false ->
  replace_separators s = s.
Proof.
  induction s as [|c s IH]; [reflexivity|].
  rewrite !contains_char_cons. intros H1 H2.
  apply orb_false_iff in H1 as [H1 H1'], H2 as [H2 H2'].
  cbn [replace_separators]. rewrite H1, H2, IH by assumption. reflexivity.
Qed.

(** X24. The name [transcribe_video] derives from a title is a plain file
    name: it contains neither ['/'] nor a backslash and is at most 100
    characters long, so the transcript files land directly in
    [transcriptions_dir]; a title that already is such a name is used
    unchanged. *)
Theorem safe_title_is_a_file_name title :
  PyStr.contains "/" (safe_title_of title) = false /\
  PyStr.contains "\" (safe_title_of title) = false /\
  (String.length (safe_title_of title) <= 100)%nat /\
  (PyStr.contains "/" title = false ->
   PyStr.contains "\" title = false ->
   (String.length title <= 100)%nat ->
   safe_title_of title = title).
Proof.
  unfold safe_title_of.
  destruct (replace_separators_clean title) as [H1 H2].
  split; [apply contains_char_take, H1|].
  split; [apply contains_char_take, H2|].
  split; [apply length_take|].
  intros Hs Hb Hlen. rewrite (replace_separators_id title Hs Hb).
  apply take_short, Hlen.
Qed.

Lemma safe_title_is_a_file_name_witness :
  PyStr.contains "/" (safe_title_of "Ways/Means 3\4") = false /\
  safe_title_of "Budget hearing" = "Budget hearing".
Proof.
  destruct (safe_title_is_a_file_name "Ways/Means 3\4") as (H1 & _).
  destruct (safe_title_is_a_file_name "Budget hearing") as (_ & _ & _ & H4).
  split; [exact H1|].
  apply H4; [reflexivity|reflexivity|vm_compute; lia].
Defined.

End TitleFacts.

(** ** What a completed download records *)

Module DownloadRecordFacts.
Import Store Job Download DownloadSpec DownloadFrame DownloadFacts.
Local Open Scope Q_scope.

Lemma download_complete_sync_record now (db : table) hearing_id filename
    size :
  is_Some (db !! hearing_id) ->
  _update_download_complete_sync now db hearing_id filename size
    !! hearing_id ≫= (fun r : row => r !! "video_size_bytes")
  = Some (SqlInt size) /\
  _update_download_complete_sync now db hearing_id filename size
    !! hearing_id ≫= (fun r : row => r !! "video_file_path")
  = Some (SqlText filename).
Proof.
  intros [r Hr]. unfold _update_download_complete_sync.
  rewrite lookup_alter_eq, Hr. cbn. split.
  - rewrite lookup_insert_ne by discriminate. apply lookup_insert_eq.
  - rewrite !lookup_insert_ne by discriminate. apply lookup_insert_eq.
Qed.

Lemma status_needs_row (db : table) hearing_id value :
  db !! hearing_id ≫= (fun r : row => r !! "download_status") = Some value ->
  is_Some (db !! hearing_id).
Proof. destruct (db !! hearing_id); [eauto|discriminate]. Qed.

Section record.
Variable videos_dir : string.
Variable stream : string -> nat -> stream_run.
Variable http : string -> nat -> http_run.
Variable jitter : nat -> Q.

(** A successful attempt records the size of the file it leaves. *)
Lemma attempt_download_records hearing retry_count path w w1 u :
  attempt_download stream http hearing retry_count path w = (Ok u, w1) ->
  exists now content,
    w_fs w1 !! path = Some content /\
    w_db w1 = _update_download_complete_sync now (w_db w) (h_id hearing)
                (h_id hearing ++ ".mp4")%string (st_size content).
Proof.
  unfold attempt_download. intros Hrun.
  match type of Hrun with
  | context [if ?b then ?s else ?h] =>
      assert (exists r2 w2, (if b then s else h) = (r2, w2) /\
                            w_db w2 = w_db w) as (r2 & w2 & Hf & Hdb)
  end.
  { destruct (_ || _).
    - destruct (fetch_stream _ _ _ _ _) as [r2 w2] eqn:Hf.
      exists r2, w2. split; [reflexivity|].
      eapply fetch_stream_effect, Hf.
    - destruct (fetch_http _ _ _ _ _) as [r2 w2] eqn:Hf.
      exists r2, w2. split; [reflexivity|].
      eapply fetch_http_effect, Hf. }
  rewrite Hf in Hrun. destruct r2 as [u2|e]; [|discriminate].
  destruct (w_fs w2 !! path) as [content|] eqn:Hfile; [|discriminate].
  injection Hrun as _ <-. exists (w_now w2), content.
  cbn [w_fs w_db emit set_stats set_db]. rewrite Hdb. auto.
Qed.

Lemma download_video_records hearing retry_count w :
  let run := download_video videos_dir stream http jitter hearing
               retry_count w in
  column w (h_id hearing) "download_status" <> Some (SqlText "completed") ->
  column (snd run) (h_id hearing) "download_status"
    = Some (SqlText "completed") ->
  exists content,
    w_fs (snd run) !! video_file videos_dir (h_id hearing) = Some content /\
    column (snd run) (h_id hearing) "video_size_bytes"
      = Some (SqlInt (st_size content)) /\
    column (snd run) (h_id hearing) "video_file_path"
      = Some (SqlText (h_id hearing ++ ".mp4")).
Proof.
  funelim (download_video videos_dir stream http jitter hearing retry_count w);
    cbn zeta; cbn [fst snd]; clear Heqcall; intros Hbefore Hdone.
  - (* the file is already there: nothing is recorded *)
    contradiction.
  - (* the attempt succeeds *)
    apply attempt_download_records in Heq
      as (now & content & Hfile & Hdb).
    exists content. split; [exact Hfile|].
    unfold column in *. rewrite Hdb in *.
    apply download_complete_sync_record.
    unfold _update_download_complete_sync in Hdone.
    apply status_needs_row in Hdone.
    apply alter_row_existence in Hdone. exact Hdone.
  - (* the attempt fails and is retried *)
    apply attempt_download_effect in Heq0
      as (evs & _ & _ & _ & Hdb).
    set (w2 := emit (Slept _) _) in *.
    assert (w_db w2 = w_db w1) as Hdb2 by reflexivity.
    apply H; [|exact Hdone].
    unfold column. rewrite Hdb2, Hdb.
    cbn [w_db update_status set_db set_progress emit].
    intros Hstatus.
    pose proof (status_needs_row _ _ _ Hstatus) as Hrow.
    rewrite update_status_sync_field in Hstatus by
      (apply update_status_sync_existence in Hrow; exact Hrow).
    discriminate.
  - (* the attempt fails and the retries are exhausted *)
    exfalso. unfold column in Hdone.
    cbn [w_db update_status set_db emit] in Hdone.
    pose proof (status_needs_row _ _ _ Hdone) as Hrow.
    rewrite update_status_sync_field in Hdone by
      (apply update_status_sync_existence in Hrow; exact Hrow).
    discriminate.
Qed.

(** X25. What the store records is what is on disk: when a job that was
    not yet recorded as downloaded ends a call with
    [download_status = 'completed'], the video file exists, the stored
    [video_size_bytes] is the size of that file and the stored
    [video_file_path] is its name [<id>.mp4]. *)
Theorem completed_download_records_the_file hearing retry_count w res w' :
  download_video videos_dir stream http jitter hearing retry_count w
    = (res, w') ->
  column w (h_id hearing) "download_status" <> Some (SqlText "completed") ->
  column w' (h_id hearing) "download_status" = Some (SqlText "completed") ->
  exists content,
    w_fs w' !! video_file videos_dir (h_id hearing) = Some content /\
    column w' (h_id hearing) "video_size_bytes"
      = Some (SqlInt (st_size content)) /\
    column w' (h_id hearing) "video_file_path"
      = Some (SqlText (h_id hearing ++ ".mp4")).
Proof.
  intros Hrun Hbefore Hdone.
  pose proof (download_video_records hearing retry_count w) as H.
  cbn zeta in H. rewrite Hrun in H. cbn [snd] in H.
  apply H; assumption.
Qed.
End record.

Lemma sample_download_completes :
  exists w',
    download_video "videos" no_stream fourth_time_lucky half_jitter
      sample_hearing 0 sample_world = (Some "videos/7.mp4", w') /\
    column w' "7" "download_status" = Some (SqlText "completed").
Proof. eexists. vm_compute. split; reflexivity. Qed.

Lemma completed_download_records_the_file_witness :
  exists w' content,
    download_video "videos" no_stream fourth_time_lucky half_jitter
      sample_hearing 0 sample_world = (Some "videos/7.mp4", w') /\
    w_fs w' !! "videos/7.mp4" = Some content /\
    column w' "7" "video_size_bytes" = Some (SqlInt (st_size content)).
Proof.
  destruct sample_download_completes as (w' & Hrun & Hdone).
  destruct (completed_download_records_the_file "videos" no_stream
              fourth_time_lucky half_jitter sample_hearing 0 sample_world
              _ w' Hrun) as (content & Hfile & Hsize & _);
    [vm_compute; discriminate|exact Hdone|].
  exists w', content. auto.
Defined.

End DownloadRecordFacts.

(** ** Downloads that go through *)

Module DownloadPathsFacts.
Import Store Job Download DownloadSpec DownloadFrame DownloadFacts.
Import DownloadFrameFacts DownloadRecordFacts.
Local Open Scope Q_scope.

Lemma temp_file_is_another path : temp_file path <> path.
Proof.
  unfold temp_file. intros Heq. apply (f_equal String.length) in Heq.
  rewrite ChunkNameFacts.length_app in Heq. cbn [String.length] in Heq. lia.
Qed.

Section paths.
Variable videos_dir : string.
Variable stream : string -> nat -> stream_run.
Variable http : string -> nat -> http_run.
Variable jitter : nat -> Q.

Local Abbreviation path_of hearing := (video_file videos_dir (h_id hearing)).

(** What [download_video] returns after an attempt that succeeds with the
    file content [content]. *)
Lemma download_after_fetch hearing retry_count w w1 content :
  already_downloaded (path_of hearing) w = false ->
  (if endswith ".m3u8" (h_url hearing) || PyStr.contains "HLS" (h_url hearing)
   then fetch_stream stream hearing retry_count (path_of hearing)
   else fetch_http http hearing retry_count (path_of hearing))
    (update_status (h_id hearing) "download_status" "downloading" None
       (set_progress (h_id hearing) (StartTime (w_now w))
          (emit (StartingDownload (h_title hearing) (retry_count + 1)
                   (max_retries + 1)) w)))
  = (Ok tt, w1) ->
  w_fs w1 !! path_of hearing = Some content ->
  w_db w1 = _update_status_sync (w_now w) (w_db w) (h_id hearing)
              "download_status" "downloading" None ->
  w_stats w1 = w_stats w ->
  exists w',
    download_video videos_dir stream http jitter hearing retry_count w
      = (Some (path_of hearing), w') /\
    w_fs w' = w_fs w1 /\
    dl_successful (w_stats w') = (dl_successful (w_stats w) + 1)%Z /\
    dl_total_bytes (w_stats w')
      = (dl_total_bytes (w_stats w) + st_size content)%Z /\
    last (w_log w')
      = Some (DownloadComplete (h_title hearing) (st_size content)) /\
    (is_Some (w_db w !! h_id hearing) ->
     column w' (h_id hearing) "download_status"
       = Some (SqlText "completed") /\
     column w' (h_id hearing) "video_size_bytes"
       = Some (SqlInt (st_size content))).
Proof.
  intros Hfresh Hfetch Hfile Hdb Hstats.
  rewrite download_video_unfold, Hfresh. unfold attempt_download.
  destruct (endswith ".m3u8" (h_url hearing)
            || PyStr.contains "HLS" (h_url hearing));
    rewrite Hfetch, Hfile; (eexists; split; [reflexivity|]);
    cbn [w_fs w_stats w_log w_db emit set_stats set_db dl_successful
         dl_total_bytes];
    rewrite Hstats, last_snoc;
    (split; [reflexivity|]); (split; [reflexivity|]);
    (split; [reflexivity|]); (split; [reflexivity|]);
    intros Hrow; unfold column;
    cbn [w_fs w_stats w_log w_db emit set_stats set_db]; rewrite Hdb;
    (split;
     [apply download_complete_sync_status
     |apply download_complete_sync_record]);
    apply update_status_sync_existence, Hrow.
Qed.

(** X26. A plain HTTP download whose body arrives completely: the call
    returns the video path at the first attempt, the file holds exactly the
    bytes of the body, one success is counted with the body's size added to
    the byte total, and the job is ['completed'] with that size. *)
Theorem http_download_stores_body hearing retry_count w total chunks
    seconds :
  endswith ".m3u8" (h_url hearing) || PyStr.contains "HLS" (h_url hearing)
    = false ->
  already_downloaded (video_file videos_dir (h_id hearing)) w = false ->
  http (h_url hearing) retry_count = HttpResponse total chunks None seconds ->
  exists w',
    download_video videos_dir stream http jitter hearing retry_count w
      = (Some (video_file videos_dir (h_id hearing)), w') /\
    w_fs w' !! video_file videos_dir (h_id hearing) = Some (body chunks) /\
    dl_successful (w_stats w') = (dl_successful (w_stats w) + 1)%Z /\
    dl_total_bytes (w_stats w')
      = (dl_total_bytes (w_stats w) + st_size (body chunks))%Z /\
    last (w_log w')
      = Some (DownloadComplete (h_title hearing) (st_size (body chunks))) /\
    (is_Some (w_db w !! h_id hearing) ->
     column w' (h_id hearing) "download_status"
       = Some (SqlText "completed") /\
     column w' (h_id hearing) "video_size_bytes"
       = Some (SqlInt (st_size (body chunks)))).
Proof.
  intros Hurl Hfresh Hhttp.
  set (w0 := update_status (h_id hearing) "download_status" "downloading"
               None
               (set_progress (h_id hearing) (StartTime (w_now w))
                  (emit (StartingDownload (h_title hearing)
                           (retry_count + 1) (max_retries + 1)) w))).
  pose proof (write_chunks_frame (h_id hearing) (path_of hearing) total
                chunks 0%Z
                (set_fs (fun fs => <[path_of hearing := EmptyString]> fs) w0)
                EmptyString (lookup_insert_eq _ _ _))
    as (Hfile & _ & _ & Hstats).
  pose proof (write_chunks_effect (h_id hearing) (path_of hearing) total
                chunks 0%Z
                (set_fs (fun fs => <[path_of hearing := EmptyString]> fs) w0))
    as (Hdb & _).
  cbn zeta in Hfile, Hstats, Hdb.
  change (EmptyString ++ body chunks)%string with (body chunks) in Hfile.
  destruct (fold_left _ chunks _) as [d w2] eqn:Hfold. cbn [snd] in *.
  destruct (download_after_fetch hearing retry_count w (elapse seconds w2)
              (body chunks) Hfresh)
    as (w' & Hrun & Hfs & Hrest).
  - rewrite Hurl. unfold fetch_http. rewrite Hhttp. fold w0.
    rewrite Hfold. reflexivity.
  - exact Hfile.
  - cbn [w_db elapse]. rewrite Hdb. reflexivity.
  - cbn [w_stats elapse]. rewrite Hstats. reflexivity.
  - exists w'. split; [exact Hrun|]. split; [rewrite Hfs; exact Hfile|].
    exact Hrest.
Qed.

(** X27. A stream that ffmpeg copies successfully: the output written to
    the [.downloading] file becomes the video file, the [.downloading] file
    is gone, one success is counted, and the job is ['completed'] with the
    size of the output. *)
Theorem stream_download_moves_output hearing retry_count w stderr content
    seconds :
  endswith ".m3u8" (h_url hearing) || PyStr.contains "HLS" (h_url hearing)
    = true ->
  already_downloaded (video_file videos_dir (h_id hearing)) w = false ->
  stream (h_url hearing) retry_count
    = mk_stream_run 0 stderr (Some content) seconds ->
  exists w',
    download_video videos_dir stream http jitter hearing retry_count w
      = (Some (video_file videos_dir (h_id hearing)), w') /\
    w_fs w' !! video_file videos_dir (h_id hearing) = Some content /\
    w_fs w' !! temp_file (video_file videos_dir (h_id hearing)) = None /\
    dl_successful (w_stats w') = (dl_successful (w_stats w) + 1)%Z /\
    (is_Some (w_db w !! h_id hearing) ->
     column w' (h_id hearing) "download_status"
       = Some (SqlText "completed") /\
     column w' (h_id hearing) "video_size_bytes"
       = Some (SqlInt (st_size content))).
Proof.
  intros Hurl Hfresh Hstream.
  pose proof (temp_file_is_another (path_of hearing)) as Htemp.
  unfold temp_file in Htemp.
  set (w0 := update_status (h_id hearing) "download_status" "downloading"
               None
               (set_progress (h_id hearing) (StartTime (w_now w))
                  (emit (StartingDownload (h_title hearing)
                           (retry_count + 1) (max_retries + 1)) w))).
  assert (exists w1,
             fetch_stream stream hearing retry_count (path_of hearing) w0
             = (Ok tt, w1) /\
             w_fs w1 !! path_of hearing = Some content /\
             w_fs w1 !! temp_file (path_of hearing) = None /\
             w_db w1 = _update_status_sync (w_now w) (w_db w) (h_id hearing)
                         "download_status" "downloading" None /\
             w_stats w1 = w_stats w)
    as (w1 & Hfetch & Hfile & Hgone & Hdb & Hstats).
  { unfold fetch_stream. rewrite Hstream.
    cbn [sr_returncode sr_output sr_seconds Z.eqb negb
         Planner.write_output w_fs elapse set_fs emit].
    rewrite lookup_insert_eq. eexists. split; [reflexivity|].
    subst w0.
    cbn [w_fs w_db w_stats elapse set_fs emit update_status set_db
         set_progress].
    split; [apply lookup_insert_eq|].
    split; [|split; reflexivity].
    unfold temp_file. rewrite lookup_insert_ne by congruence.
    apply lookup_delete_eq. }
  destruct (download_after_fetch hearing retry_count w w1 content Hfresh)
    as (w' & Hrun & Hfs & Hok & _ & _ & Hrow);
    [rewrite Hurl; exact Hfetch|exact Hfile|exact Hdb|exact Hstats|].
  exists w'. split; [exact Hrun|]. rewrite Hfs. auto.
Qed.
End paths.

Lemma http_download_stores_body_witness :
  exists w',
    download_video "videos" no_stream whole_body half_jitter sample_hearing
      0 sample_world = (Some "videos/7.mp4", w') /\
    w_fs w' !! "videos/7.mp4" = Some "abcd" /\
    column w' "7" "video_size_bytes" = Some (SqlInt 4).
Proof.
  destruct (http_download_stores_body "videos" no_stream whole_body
              half_jitter sample_hearing 0 sample_world 4 ["ab"; "cd"] 2)
    as (w' & Hrun & Hfile & _ & _ & _ & Hrow);
    [reflexivity|reflexivity|reflexivity|].
  exists w'. split; [exact Hrun|]. split; [exact Hfile|].
  apply Hrow. unfold sample_world, sample_hearing. cbn [w_db h_id].
  rewrite lookup_singleton_eq. eauto.
Defined.

Lemma stream_download_moves_output_witness :
  exists w',
    download_video "videos" copied_stream always_refused half_jitter
      stream_hearing 0 sample_world = (Some "videos/7.mp4", w') /\
    w_fs w' !! "videos/7.mp4" = Some "VIDEO" /\
    w_fs w' !! "videos/7.mp4.downloading" = None.
Proof.
  destruct (stream_download_moves_output "videos" copied_stream
              always_refused half_jitter stream_hearing 0 sample_world ""
              "VIDEO" 3)
    as (w' & Hrun & Hfile & Hgone & _);
    [reflexivity|reflexivity|reflexivity|].
  exists w'. auto.
Defined.

End DownloadPathsFacts.
